(** * RedCoconut: the SQL INSERT generator of [src/App.tsx]

    A shallow embedding of the pure core of the application
    ([chunkArray], [normalizeIdentifier], [quoteIdentifier], [toSqlLiteral],
    [extraValueToSql], [buildInsertScript]) together with the part of the
    JavaScript runtime these functions call, followed by the properties the
    specification states about them.

    Conventions of the embedding.
    - A JavaScript string is a Rocq [string]; the character with code [c]
      stands for the UTF-16 code unit U+00[c], so the strings of the model
      are the strings over U+0000..U+00FF.  [trim], the regular expression
      class [\s] and [toLowerCase] are exact on that range.
    - A JavaScript number is an IEEE-754 binary64 value, a [spec_float] of
      the standard library at precision 53 and maximal exponent 1024.
    - A [Date] is its time value: an integral number of milliseconds since
      the epoch, or the invalid date.
    - A call that may throw returns a [completion]. *)

From Stdlib Require Import String Ascii List ZArith Lia Bool SpecFloat.
Import ListNotations.

Local Open Scope list_scope.
Local Open Scope string_scope.

(* ================================================================== *)
(** * The JavaScript runtime used by the application                  *)
(* ================================================================== *)

Module JS.

(** ** Completions: a call returns a value or throws. *)

Inductive JsError : Type :=
| RangeError (message : string).

Inductive completion (A : Type) : Type :=
| Normal (a : A)
| Throw (e : JsError).

Arguments Normal {A} a.
Arguments Throw {A} e.

Definition bind {A B : Type} (c : completion A) (k : A -> completion B)
  : completion B :=
  match c with
  | Normal a => k a
  | Throw e => Throw e
  end.

(** [Array.prototype.map] with a callback that may throw: the elements are
    visited from left to right and the first exception ends the call. *)
Fixpoint mapM {A B : Type} (f : A -> completion B) (l : list A)
  : completion (list B) :=
  match l with
  | [] => Normal []
  | x :: r =>
      bind (f x) (fun y => bind (mapM f r) (fun ys => Normal (y :: ys)))
  end.

(** ** Strings *)

(** WhiteSpace and LineTerminator code units below U+0100: TAB, LF, VT, FF,
    CR, SP and NBSP.  This is the set removed by [trim] and matched by the
    regular expression class [\s]. *)
Definition isWhiteSpace (c : ascii) : bool :=
  let n := nat_of_ascii c in
  ((9 <=? n) && (n <=? 13) || (n =? 32) || (n =? 160))%nat.

Fixpoint trimStart (s : string) : string :=
  match s with
  | EmptyString => EmptyString
  | String c r => if isWhiteSpace c then trimStart r else s
  end.

Definition isEmpty (s : string) : bool :=
  match s with
  | EmptyString => true
  | String _ _ => false
  end.

Fixpoint trimEnd (s : string) : string :=
  match s with
  | EmptyString => EmptyString
  | String c r =>
      let r' := trimEnd r in
      if isWhiteSpace c && isEmpty r' then EmptyString else String c r'
  end.

(** [String.prototype.trim] *)
Definition trim (s : string) : string := trimEnd (trimStart s).

(** Lower-case mapping of one code unit below U+0100: A-Z and the Latin-1
    capitals U+00C0..U+00DE except the multiplication sign U+00D7. *)
Definition toLowerChar (c : ascii) : ascii :=
  let n := nat_of_ascii c in
  if ((65 <=? n) && (n <=? 90)
      || (192 <=? n) && (n <=? 222) && negb (n =? 215))%nat
  then ascii_of_nat (n + 32)
  else c.

(** [String.prototype.toLowerCase] *)
Fixpoint toLowerCase (s : string) : string :=
  match s with
  | EmptyString => EmptyString
  | String c r => String (toLowerChar c) (toLowerCase r)
  end.

(** [s.replaceAll(c, by)] for a one-character search string [c]. *)
Fixpoint replaceAll (s : string) (c : ascii) (by_ : string) : string :=
  match s with
  | EmptyString => EmptyString
  | String x r =>
      if Ascii.eqb x c then by_ ++ replaceAll r c by_
      else String x (replaceAll r c by_)
  end.

(** [s.replace(c, by)] for a one-character search string [c]: only the first
    occurrence is replaced. *)
Fixpoint replaceFirst (s : string) (c : ascii) (by_ : string) : string :=
  match s with
  | EmptyString => EmptyString
  | String x r =>
      if Ascii.eqb x c then by_ ++ r else String x (replaceFirst r c by_)
  end.

(** [s.replace(/\s+/g, by)]: every maximal run of white space is replaced by
    one copy of [by].  [inRun] tells that the previous code unit belonged to
    a run that has been replaced already. *)
Fixpoint replaceWhiteSpaceRuns (inRun : bool) (s : string) (by_ : string)
  : string :=
  match s with
  | EmptyString => EmptyString
  | String c r =>
      if isWhiteSpace c then
        if inRun then replaceWhiteSpaceRuns true r by_
        else by_ ++ replaceWhiteSpaceRuns true r by_
      else String c (replaceWhiteSpaceRuns false r by_)
  end.

(** [s.slice(0, n)] for a non-negative integer [n]. *)
Fixpoint sliceTo (n : nat) (s : string) : string :=
  match n, s with
  | S n', String c r => String c (sliceTo n' r)
  | _, _ => EmptyString
  end.

(** [Array.prototype.join] on an array of strings. *)
Fixpoint join (sep : string) (l : list string) : string :=
  match l with
  | [] => EmptyString
  | [x] => x
  | x :: r => x ++ sep ++ join sep r
  end.

(** [Array.prototype.includes] / [some (x => x === s)] on strings. *)
Definition includes (l : list string) (s : string) : bool :=
  existsb (fun t => String.eqb t s) l.

(** ** Numbers: IEEE-754 binary64 *)

Definition number : Type := spec_float.

Definition prec : Z := 53.
Definition emax : Z := 1024.

Definition NaN : number := S754_nan.
Definition Infinity : number := S754_infinity false.

(** The number value of an integer: the nearest binary64 value, ties to
    even.  It is exact below 2^53. *)
Definition Number_ofZ (z : Z) : number := binary_normalize prec emax z 0 false.

Definition Number_ofNat (n : nat) : number := Number_ofZ (Z.of_nat n).

(** [Number.isFinite] *)
Definition Number_isFinite (x : number) : bool :=
  match x with
  | S754_zero _ | S754_finite _ _ _ => true
  | S754_infinity _ | S754_nan => false
  end.

(** The operators [+] and [<] on numbers. *)
Definition Number_add (x y : number) : number := SFadd prec emax x y.
Definition Number_lt (x y : number) : bool := SFltb x y.

(** [Math.max(a, b)]: NaN if either argument is NaN, and +0 is larger than
    -0. *)
Definition Math_max (a b : number) : number :=
  match SFcompare a b with
  | None => NaN
  | Some Lt => b
  | Some Gt => a
  | Some Eq => match a with S754_zero true => b | _ => a end
  end.

(** ToIntegerOrInfinity *)
Inductive IntegerOrInfinity : Type :=
| NegInfinity
| Integer (z : Z)
| PosInfinity.

Definition truncate (s : bool) (m : positive) (e : Z) : Z :=
  let a := if (0 <=? e)%Z then (Zpos m * 2 ^ e)%Z else (Zpos m / 2 ^ (- e))%Z in
  if s then (- a)%Z else a.

Definition ToIntegerOrInfinity (x : number) : IntegerOrInfinity :=
  match x with
  | S754_nan => Integer 0
  | S754_zero _ => Integer 0
  | S754_infinity true => NegInfinity
  | S754_infinity false => PosInfinity
  | S754_finite s m e => Integer (truncate s m e)
  end.

(** The position in an array of length [len] that [slice] derives from one
    of its arguments. *)
Definition relativeIndex (len : nat) (r : IntegerOrInfinity) : nat :=
  match r with
  | NegInfinity => 0
  | Integer z =>
      if (z <? 0)%Z then Z.to_nat (Z.max (Z.of_nat len + z) 0)
      else Z.to_nat (Z.min z (Z.of_nat len))
  | PosInfinity => len
  end.

(** [Array.prototype.slice(start, end)] *)
Definition Array_slice {T : Type} (items : list T) (start end_ : number)
  : list T :=
  let len := length items in
  let k := relativeIndex len (ToIntegerOrInfinity start) in
  let final := relativeIndex len (ToIntegerOrInfinity end_) in
  firstn (final - k) (skipn k items).

(** The integer a number denotes, when it denotes one. *)
Definition Number_toInteger (x : number) : option Z :=
  match x with
  | S754_zero _ => Some 0%Z
  | S754_finite s m e =>
      if (0 <=? e)%Z then Some (truncate s m e)
      else if (Zpos m mod 2 ^ (- e) =? 0)%Z then Some (truncate s m e)
      else None
  | _ => None
  end.

(** [items[index]]: the element at an integer index inside the array, and
    [undefined] (here [None]) for every other property key a number gives. *)
Definition Array_get {T : Type} (items : list T) (index : number) : option T :=
  match Number_toInteger index with
  | Some z => if (z <? 0)%Z then None else nth_error items (Z.to_nat z)
  | None => None
  end.

(** ** Decimal numerals *)

Definition digitChar (d : Z) : ascii := ascii_of_nat (48 + Z.to_nat d).

Fixpoint decimalDigits (fuel : nat) (n : Z) (acc : string) : string :=
  match fuel with
  | O => acc
  | S fuel' =>
      let acc' := String (digitChar (n mod 10)) acc in
      if (n <? 10)%Z then acc' else decimalDigits fuel' (n / 10) acc'
  end.

(** The decimal numeral of a non-negative integer, without leading zeros. *)
Definition decimal (n : Z) : string :=
  decimalDigits (S (Z.to_nat (Z.log2 n))) n EmptyString.

Fixpoint zeros (n : nat) : string :=
  match n with
  | O => EmptyString
  | S n' => String "0" (zeros n')
  end.

(** The decimal numeral padded with zeros on the left to [width] digits. *)
Definition padStart (width : nat) (n : Z) : string :=
  let d := decimal n in
  zeros (width - String.length d) ++ d.

Fixpoint dropString (n : nat) (s : string) : string :=
  match n, s with
  | S n', String _ r => dropString n' r
  | _, _ => s
  end.

(** ** Number::toString (radix 10)

    For a finite non-zero [x] the digits are those of the integer [s] with
    the fewest digits [k] such that [s * 10^(n-k)] rounds to [x]; among
    several such [s] the one closest to [x] is taken. *)

(** Comparison of [a * 10^p] with [b * 2^q]. *)
Definition cmpScaled (a p b q : Z) : comparison :=
  (a * 10 ^ Z.max p 0 * 2 ^ Z.max (- q) 0
   ?= b * 2 ^ Z.max q 0 * 10 ^ Z.max (- p) 0)%Z.

(** The least [n], from [n] on, with [m * 2^e < 10^n]. *)
Fixpoint decimalExponentFrom (fuel : nat) (n : Z) (m : positive) (e : Z) : Z :=
  match fuel with
  | O => n
  | S fuel' =>
      match cmpScaled 1 n (Zpos m) e with
      | Gt => n
      | _ => decimalExponentFrom fuel' (n + 1) m e
      end
  end.

(** The least [n] with [m * 2^e < 10^n].  With [b] the number of bits of
    [m * 2^e], that number is at least [2^(b-1)] and [30102 / 100000] is
    less than the decimal logarithm of 2, so the search starts below [n]
    and near it. *)
Definition decimalExponent (m : positive) (e : Z) : Z :=
  let b := (Zpos (digits2_pos m) + e)%Z in
  decimalExponentFrom 8 ((b - 1) * 30102 / 100000 - 1) m e.

(** [s * 10^p] lies in the set of reals that round to [m * 2^e]: between
    the midpoints with the two neighbouring binary64 values, the midpoints
    themselves included when [m] is even. *)
Definition roundsTo (m : positive) (e : Z) (s p : Z) : bool :=
  let below :=
    if ((Zpos m =? 2 ^ 52) && (emin prec emax <? e))%Z then 1%Z else 2%Z in
  let even := Z.even (Zpos m) in
  match cmpScaled s p (4 * Zpos m - below) (e - 2) with
  | Gt => true
  | Eq => even
  | Lt => false
  end
  &&
  match cmpScaled s p (4 * Zpos m + 2) (e - 2) with
  | Lt => true
  | Eq => even
  | Gt => false
  end.

(** [floor (m * 2^e / 10^p)] *)
Definition scaledFloor (m : positive) (e p : Z) : Z :=
  ((Zpos m * 2 ^ Z.max e 0 * 10 ^ Z.max (- p) 0)
   / (2 ^ Z.max (- e) 0 * 10 ^ Z.max p 0))%Z.

(** The pair [(s, n)] of Number::toString for [m * 2^e], trying [k] digits
    and then more. *)
Fixpoint shortestDigits (fuel : nat) (k : Z) (m : positive) (e n0 : Z)
  : Z * Z :=
  let p := (n0 - k)%Z in
  let lo := scaledFloor m e p in
  let hi := (lo + 1)%Z in
  let pick :=
    match roundsTo m e lo p, roundsTo m e hi p with
    | true, true =>
        match cmpScaled (lo + hi) p (2 * Zpos m) e with
        | Gt => Some lo
        | Lt => Some hi
        | Eq => Some (if Z.even lo then lo else hi)
        end
    | true, false => Some lo
    | false, true => Some hi
    | false, false => None
    end in
  match pick with
  | Some s => if (s =? 10 ^ k)%Z then (1%Z, (n0 + 1)%Z) else (s, n0)
  | None =>
      match fuel with
      | O => (lo, n0)
      | S fuel' => shortestDigits fuel' (k + 1) m e n0
      end
  end.

Definition exponentPart (n : Z) : string :=
  let x := (n - 1)%Z in
  String "e" ((if (x <? 0)%Z then "-" else "+") ++ decimal (Z.abs x)).

(** The numeral of a positive finite number with digits [ds] and decimal
    point position [n]. *)
Definition formatDigits (ds : string) (n : Z) : string :=
  match ds with
  | EmptyString => "0"
  | String d rest =>
      let k := Z.of_nat (String.length ds) in
      if ((k <=? n) && (n <=? 21))%Z then
        String d (rest ++ zeros (Z.to_nat (n - k)))
      else if ((0 <? n) && (n <=? 21))%Z then
        String d (sliceTo (Z.to_nat n - 1) rest
                  ++ "." ++ dropString (Z.to_nat n - 1) rest)
      else if ((-6 <? n) && (n <=? 0))%Z then
        String "0" ("." ++ zeros (Z.to_nat (- n)) ++ ds)
      else
        match rest with
        | EmptyString => String d (exponentPart n)
        | _ => String d ("." ++ rest ++ exponentPart n)
        end
  end.

(** [String(x)] for a number [x]. *)
Definition Number_toString (x : number) : string :=
  match x with
  | S754_nan => "NaN"
  | S754_zero _ => "0"
  | S754_infinity s => if s then "-Infinity" else "Infinity"
  | S754_finite s m e =>
      let '(d, n) := shortestDigits 20 1 m e (decimalExponent m e) in
      let body := formatDigits (decimal d) n in
      if s then String "-" body else body
  end.

(** ** StringToNumber: [Number(s)] for a string [s] *)

(** The value of a digit in the given radix. *)
Definition digitValue (radix : Z) (c : ascii) : option Z :=
  let n := Z.of_nat (nat_of_ascii c) in
  let v :=
    if ((48 <=? n) && (n <=? 57))%Z then Some (n - 48)%Z
    else if ((97 <=? n) && (n <=? 102))%Z then Some (n - 87)%Z
    else if ((65 <=? n) && (n <=? 70))%Z then Some (n - 55)%Z
    else None in
  match v with
  | Some d => if (d <? radix)%Z then Some d else None
  | None => None
  end.

(** Reads the longest prefix of digits: the value accumulated onto [acc],
    the number of digits read onto [count], and the rest of the string. *)
Fixpoint readDigits (radix : Z) (s : string) (acc : Z) (count : Z)
  : Z * Z * string :=
  match s with
  | EmptyString => (acc, count, s)
  | String c r =>
      match digitValue radix c with
      | Some d => readDigits radix r (acc * radix + d)%Z (count + 1)%Z
      | None => (acc, count, s)
      end
  end.

(** The binary64 value nearest to [d * 10^x], ties to even, for [0 <= d]. *)
Definition decimalValue (neg : bool) (d x : Z) : number :=
  if (d =? 0)%Z then S754_zero neg
  else if (0 <=? x)%Z then
    binary_normalize prec emax ((if neg then - d else d) * 10 ^ x)%Z 0 false
  else
    let den := (10 ^ (- x))%Z in
    let sh := Z.max 0 (64 + Z.log2 den - Z.log2 d) in
    let q := (d * 2 ^ sh / den)%Z in
    let r := (d * 2 ^ sh mod den)%Z in
    let loc :=
      if (r =? 0)%Z then loc_Exact else loc_Inexact (2 * r ?= den)%Z in
    binary_round_aux prec emax neg q (- sh) loc.

(** StrUnsignedDecimalLiteral, after the optional sign. *)
Definition parseUnsignedDecimal (neg : bool) (s : string) : number :=
  if String.eqb s "Infinity" then S754_infinity neg
  else
    let '(ip, ni, r1) := readDigits 10 s 0 0 in
    let '(m, nf, r2) :=
      match r1 with
      | String "." r => readDigits 10 r ip 0
      | _ => (ip, 0%Z, r1)
      end in
    if (ni + nf =? 0)%Z then NaN
    else
      match r2 with
      | EmptyString => decimalValue neg m (- nf)
      | String c r3 =>
          if Ascii.eqb c "e" || Ascii.eqb c "E" then
            let '(eneg, r4) :=
              match r3 with
              | String "+" r => (false, r)
              | String "-" r => (true, r)
              | _ => (false, r3)
              end in
            match readDigits 10 r4 0 0 with
            | (x, nx, EmptyString) =>
                if (nx =? 0)%Z then NaN
                else decimalValue neg m ((if eneg then - x else x) - nf)
            | _ => NaN
            end
          else NaN
      end.

(** NonDecimalIntegerLiteral: the digits after the prefix. *)
Definition parseRadix (radix : Z) (s : string) : number :=
  match readDigits radix s 0 0 with
  | (v, n, EmptyString) => if (n =? 0)%Z then NaN else Number_ofZ v
  | _ => NaN
  end.

Definition StringToNumber (s : string) : number :=
  match trim s with
  | EmptyString => S754_zero false
  | String "0" (String "x" r) | String "0" (String "X" r) => parseRadix 16 r
  | String "0" (String "o" r) | String "0" (String "O" r) => parseRadix 8 r
  | String "0" (String "b" r) | String "0" (String "B" r) => parseRadix 2 r
  | String "+" r => parseUnsignedDecimal false r
  | String "-" r => parseUnsignedDecimal true r
  | t => parseUnsignedDecimal false t
  end.

(** ** Dates *)

(** A [Date] object holds a time value: NaN (the invalid date) or an
    integral number of milliseconds since 1970-01-01T00:00:00Z, at most
    8.64e15 in absolute value. *)
Inductive Date : Type :=
| InvalidDate
| DateAt (t : Z).

Definition msPerDay : Z := 86400000.

(** The civil date (proleptic Gregorian year, month 1..12, day 1..31) of a
    day number counted from the epoch. *)
Definition civilFromDays (days : Z) : Z * Z * Z :=
  let z := (days + 719468)%Z in
  let era := (z / 146097)%Z in
  let doe := (z - era * 146097)%Z in
  let yoe := ((doe - doe / 1460 + doe / 36524 - doe / 146096) / 365)%Z in
  let doy := (doe - (365 * yoe + yoe / 4 - yoe / 100))%Z in
  let mp := ((5 * doy + 2) / 153)%Z in
  let d := (doy - (153 * mp + 2) / 5 + 1)%Z in
  let m := (if mp <? 10 then mp + 3 else mp - 9)%Z in
  let y := (yoe + era * 400 + (if m <=? 2 then 1 else 0))%Z in
  (y, m, d).

Definition YearFromTime (t : Z) : Z := fst (fst (civilFromDays (t / msPerDay))).
Definition MonthFromTime (t : Z) : Z := snd (fst (civilFromDays (t / msPerDay))).
Definition DateFromTime (t : Z) : Z := snd (civilFromDays (t / msPerDay)).
Definition HourFromTime (t : Z) : Z := ((t / 3600000) mod 24)%Z.
Definition MinFromTime (t : Z) : Z := ((t / 60000) mod 60)%Z.
Definition SecFromTime (t : Z) : Z := ((t / 1000) mod 60)%Z.
Definition msFromTime (t : Z) : Z := (t mod 1000)%Z.
Definition WeekDay (t : Z) : Z := ((t / msPerDay + 4) mod 7)%Z.

(** The year of the ISO format: four digits from 0 to 9999, and a sign
    followed by six digits otherwise. *)
Definition isoYear (y : Z) : string :=
  if ((0 <=? y) && (y <=? 9999))%Z then padStart 4 y
  else String (if (y <? 0)%Z then "-" else "+") (padStart 6 (Z.abs y)).

(** [Date.prototype.toISOString]: throws a RangeError on the invalid
    date. *)
Definition toISOString (d : Date) : completion string :=
  match d with
  | InvalidDate => Throw (RangeError "Invalid time value")
  | DateAt t =>
      Normal (isoYear (YearFromTime t) ++ "-" ++ padStart 2 (MonthFromTime t)
              ++ "-" ++ padStart 2 (DateFromTime t)
              ++ "T" ++ padStart 2 (HourFromTime t)
              ++ ":" ++ padStart 2 (MinFromTime t)
              ++ ":" ++ padStart 2 (SecFromTime t)
              ++ "." ++ padStart 3 (msFromTime t) ++ "Z")
  end.

Definition weekDayName (w : Z) : string :=
  nth (Z.to_nat w) ["Sun"; "Mon"; "Tue"; "Wed"; "Thu"; "Fri"; "Sat"] "Sun".

Definition monthName (m : Z) : string :=
  nth (Z.to_nat (m - 1))
    ["Jan"; "Feb"; "Mar"; "Apr"; "May"; "Jun";
     "Jul"; "Aug"; "Sep"; "Oct"; "Nov"; "Dec"] "Jan".

(** [Date.prototype.toString], which is what [String(d)] calls, on a host
    whose local time zone is UTC. *)
Definition Date_toString (d : Date) : string :=
  match d with
  | InvalidDate => "Invalid Date"
  | DateAt t =>
      let y := YearFromTime t in
      weekDayName (WeekDay t) ++ " " ++ monthName (MonthFromTime t)
      ++ " " ++ padStart 2 (DateFromTime t)
      ++ " " ++ (if (y <? 0)%Z then "-" else "") ++ padStart 4 (Z.abs y)
      ++ " " ++ padStart 2 (HourFromTime t)
      ++ ":" ++ padStart 2 (MinFromTime t)
      ++ ":" ++ padStart 2 (SecFromTime t)
      ++ " GMT+0000 (Coordinated Universal Time)"
  end.

End JS.

(* ================================================================== *)
(** * The application: [src/App.tsx]                                  *)
(* ================================================================== *)

Module App.
Import JS.

(** The line feed of the template literals. *)
Definition LF : string := String (ascii_of_nat 10) EmptyString.

(** ** Types *)

Inductive SqlDialect : Type :=
| mysql
| postgresql
| sqlite
| sqlserver.

(** A dialect is the string of its name. *)
Definition dialectString (d : SqlDialect) : string :=
  match d with
  | mysql => "mysql"
  | postgresql => "postgresql"
  | sqlite => "sqlite"
  | sqlserver => "sqlserver"
  end.

Definition isPostgresql (d : SqlDialect) : bool :=
  match d with postgresql => true | _ => false end.

Record ColumnConfig : Type := {
  sourceIndex : number;
  sourceName : string;
  targetName : string;
  include : bool
}.

Inductive ExtraColumnMode : Type :=
| ModeText
| ModeNumber
| ModeBoolean
| ModeNull
| ModeSql.

Record ExtraColumnConfig : Type := {
  id : string;
  extraTargetName : string;
  extraInclude : bool;
  mode : ExtraColumnMode;
  value : string
}.

Record GeneratorOptions : Type := {
  dialect : SqlDialect;
  tableName : string;
  schemaName : string;
  rowsPerInsert : number;
  includeColumnList : bool;
  trimStrings : bool;
  emptyStringAsNull : bool;
  nullTokens : list string
}.

(** The values a cell of a parsed sheet holds ([unknown] in the source):
    the workbook reader yields strings, numbers, booleans, dates and null,
    and reading past the end of a row yields undefined. *)
Inductive Cell : Type :=
| CNull
| CUndefined
| CDate (d : Date)
| CNumber (n : number)
| CBoolean (b : bool)
| CString (s : string).

Definition Row : Type := list Cell.

(** [String(cell)] *)
Definition String_ (cell : Cell) : string :=
  match cell with
  | CNull => "null"
  | CUndefined => "undefined"
  | CDate d => Date_toString d
  | CNumber n => Number_toString n
  | CBoolean b => if b then "true" else "false"
  | CString s => s
  end.

(** [row[index]] *)
Definition cellAt (row : Row) (index : number) : Cell :=
  match Array_get row index with
  | Some cell => cell
  | None => CUndefined
  end.

(** ** chunkArray *)

(** The loop [for (let i = 0; i < items.length; i += size)] of [chunkArray],
    from the counter value [i] on.  Every round takes one unit of [fuel];
    [None] tells that the fuel ran out before the loop ended. *)
Fixpoint chunkArray_loop {T : Type} (fuel : nat) (items : list T)
  (size i : number) : option (list (list T)) :=
  match fuel with
  | O => None
  | S fuel' =>
      if Number_lt i (Number_ofNat (length items)) then
        match chunkArray_loop fuel' items size (Number_add i size) with
        | Some chunks =>
            Some (Array_slice items i (Number_add i size) :: chunks)
        | None => None
        end
      else Some []
  end.

(** A counter that advances by one or more at every round passes the length
    of [items] within [length items] rounds, so the loop is given one round
    more than that. *)
Definition chunkArray {T : Type} (items : list T) (size : number)
  : option (list (list T)) :=
  chunkArray_loop (S (length items)) items size (Number_ofZ 0).

(** ** Identifiers *)

Definition normalizeIdentifier (value : string) : string :=
  replaceWhiteSpaceRuns false (trim value) "_".

Definition quoteIdentifier (identifier : string) (dialect : SqlDialect)
  : string :=
  let value := normalizeIdentifier identifier in
  if isEmpty value then EmptyString
  else
    match dialect with
    | mysql | sqlite => "`" ++ replaceAll value "`" "``" ++ "`"
    | sqlserver => "[" ++ replaceAll value "]" "]]" ++ "]"
    | postgresql =>
        let dq := String "034" EmptyString in
        dq ++ replaceAll value "034" (dq ++ dq) ++ dq
    end.

(** ** Literals *)

Definition booleanLiteral (dialect : SqlDialect) (b : bool) : string :=
  if isPostgresql dialect then (if b then "TRUE" else "FALSE")
  else (if b then "1" else "0").

Definition toSqlLiteral (value : Cell) (options : GeneratorOptions)
  : completion string :=
  match value with
  | CNull | CUndefined => Normal "NULL"
  | CDate d =>
      bind (toISOString d) (fun iso =>
        Normal ("'" ++ sliceTo 19 (replaceFirst iso "T" " ") ++ "'"))
  | CNumber n =>
      Normal (if Number_isFinite n then Number_toString n else "NULL")
  | CBoolean b => Normal (booleanLiteral (dialect options) b)
  | CString _ =>
      let stringValue := String_ value in
      let stringValue :=
        if trimStrings options then trim stringValue else stringValue in
      if emptyStringAsNull options && (String.length stringValue =? 0)%nat
      then Normal "NULL"
      else
        let lower := toLowerCase stringValue in
        if existsb (fun token => String.eqb token lower) (nullTokens options)
        then Normal "NULL"
        else Normal ("'" ++ replaceAll stringValue "'" "''" ++ "'")
  end.

Definition truthy : list string := ["true"; "1"; "yes"; "y"; "on"].

Definition extraValueToSql (column : ExtraColumnConfig)
  (options : GeneratorOptions) : completion string :=
  match mode column with
  | ModeNull => Normal "NULL"
  | ModeSql =>
      let expression := trim (value column) in
      Normal (if (0 <? String.length expression)%nat then expression
              else "NULL")
  | ModeNumber =>
      let numeric := StringToNumber (value column) in
      Normal (if Number_isFinite numeric then Number_toString numeric
              else "NULL")
  | ModeBoolean =>
      let value := toLowerCase (trim (value column)) in
      let boolValue := includes truthy value in
      Normal (booleanLiteral (dialect options) boolValue)
  | ModeText => toSqlLiteral (CString (value column)) options
  end.

(** ** buildInsertScript

    The local constants of the function are definitions of their own, named
    as in the source. *)

Definition includedColumns (columns : list ColumnConfig) : list ColumnConfig :=
  filter (fun column =>
            include column
            && (0 <? String.length (normalizeIdentifier (targetName column)))%nat)
         columns.

Definition includedExtraColumns (extraColumns : list ExtraColumnConfig)
  : list ExtraColumnConfig :=
  filter (fun column =>
            extraInclude column
            && (0 <? String.length
                       (normalizeIdentifier (extraTargetName column)))%nat)
         extraColumns.

(** The callback of the row filter: the cell is neither null nor undefined
    nor blank as a string. *)
Definition cellHasContent (cell : Cell) : bool :=
  match cell with
  | CNull => false
  | CUndefined => false
  | _ => negb (String.eqb (trim (String_ cell)) EmptyString)
  end.

Definition filteredRows (rows : list Row) : list Row :=
  filter (fun row => existsb cellHasContent row) rows.

Definition tableRef (cleanTable : string) (options : GeneratorOptions)
  : string :=
  let schema := normalizeIdentifier (schemaName options) in
  if negb (isEmpty schema)
  then quoteIdentifier schema (dialect options)
       ++ "." ++ quoteIdentifier cleanTable (dialect options)
  else quoteIdentifier cleanTable (dialect options).

Definition mappedColumns (columns : list ColumnConfig)
  (options : GeneratorOptions) : list string :=
  map (fun column => quoteIdentifier (targetName column) (dialect options))
      (includedColumns columns).

Definition customColumns (extraColumns : list ExtraColumnConfig)
  (options : GeneratorOptions) : list string :=
  map (fun column =>
         quoteIdentifier (extraTargetName column) (dialect options))
      (includedExtraColumns extraColumns).

Definition columnList (columns : list ColumnConfig)
  (extraColumns : list ExtraColumnConfig) (options : GeneratorOptions)
  : string :=
  join ", " (mappedColumns columns options
             ++ customColumns extraColumns options)%list.

(** The values of one row: the literals of the included source columns, then
    those of the included extra columns. *)
Definition rowValueList (columns : list ColumnConfig)
  (extraColumns : list ExtraColumnConfig) (options : GeneratorOptions)
  (row : Row) : completion (list string) :=
  bind (mapM (fun column =>
                toSqlLiteral (cellAt row (sourceIndex column)) options)
             (includedColumns columns))
       (fun sourceValues =>
  bind (mapM (fun column => extraValueToSql column options)
             (includedExtraColumns extraColumns))
       (fun extraValues =>
  Normal (sourceValues ++ extraValues)%list)).

(** The tuple of one row: its values, joined by commas, in parentheses. *)
Definition rowTuple (columns : list ColumnConfig)
  (extraColumns : list ExtraColumnConfig) (options : GeneratorOptions)
  (row : Row) : completion string :=
  bind (rowValueList columns extraColumns options row)
       (fun values => Normal ("(" ++ join ", " values ++ ")")).

Definition rowValues (columns : list ColumnConfig)
  (extraColumns : list ExtraColumnConfig) (options : GeneratorOptions)
  (rows : list Row) : completion (list string) :=
  mapM (rowTuple columns extraColumns options) (filteredRows rows).

Definition useColumnList (extraColumns : list ExtraColumnConfig)
  (options : GeneratorOptions) : bool :=
  includeColumnList options
  || (0 <? length (includedExtraColumns extraColumns))%nat.

(** The INSERT statement of one chunk of tuples. *)
Definition statement (columns : list ColumnConfig)
  (extraColumns : list ExtraColumnConfig) (options : GeneratorOptions)
  (cleanTable : string) (chunk : list string) : string :=
  if useColumnList extraColumns options then
    "INSERT INTO " ++ tableRef cleanTable options
    ++ " (" ++ columnList columns extraColumns options ++ ")"
    ++ LF ++ "VALUES" ++ LF ++ join ("," ++ LF) chunk ++ ";"
  else
    "INSERT INTO " ++ tableRef cleanTable options
    ++ LF ++ "VALUES" ++ LF ++ join ("," ++ LF) chunk ++ ";".

(** The text returned in the end, from the surviving rows and the
    statements. *)
Definition script (options : GeneratorOptions) (rowCount : nat)
  (statements : list string) : string :=
  join LF
    [ "-- Generated by RedCoconut SQL Builder";
      "-- Dialect: " ++ dialectString (dialect options);
      "-- Rows: " ++ Number_toString (Number_ofNat rowCount);
      EmptyString;
      join (LF ++ LF) statements ].

(** [None] is the case in which the loop of [chunkArray] does not end
    within its fuel; [Some (Throw e)] is an exception that leaves the
    function; [Some (Normal s)] is the returned string. *)
Definition buildInsertScript (rows : list Row) (columns : list ColumnConfig)
  (extraColumns : list ExtraColumnConfig) (options : GeneratorOptions)
  : option (completion string) :=
  let cleanTable := normalizeIdentifier (tableName options) in
  if isEmpty cleanTable then Some (Normal EmptyString)
  else if ((length (includedColumns columns) =? 0)
           && (length (includedExtraColumns extraColumns) =? 0))%nat
  then Some (Normal EmptyString)
  else if (length (filteredRows rows) =? 0)%nat then Some (Normal EmptyString)
  else
    match rowValues columns extraColumns options rows with
    | Throw e => Some (Throw e)
    | Normal tuples =>
        match chunkArray tuples (Math_max (Number_ofZ 1) (rowsPerInsert options)) with
        | None => None
        | Some chunks =>
            let statements :=
              map (statement columns extraColumns options cleanTable) chunks in
            Some (Normal (script options (length (filteredRows rows))
                            statements))
        end
    end.

End App.

(* ================================================================== *)
(** * The specification's vocabulary                                  *)
(* ================================================================== *)

(** Definitions that follow the words of the specification, to be compared
    with the functions of [App]. *)
Module Spec.
Import JS App.

(** *** Identifiers (4.1, 4.2) *)

(** The longest prefix without white space. *)
Fixpoint takeWord (s : string) : string :=
  match s with
  | EmptyString => EmptyString
  | String c r => if isWhiteSpace c then EmptyString else String c (takeWord r)
  end.

(** The maximal runs of code units that are not white space, in order.
    [inWord] tells that the previous code unit belongs to a run that has
    been listed already. *)
Fixpoint wordsFrom (inWord : bool) (s : string) : list string :=
  match s with
  | EmptyString => []
  | String c r =>
      if isWhiteSpace c then wordsFrom false r
      else if inWord then wordsFrom true r
      else takeWord s :: wordsFrom true r
  end.

Definition words (s : string) : list string := wordsFrom false s.

(** "Leading/trailing whitespace removed and internal whitespace runs
    collapsed to a single underscore": the words, one underscore between
    two of them. *)
Definition normalized (s : string) : string := join "_" (words s).

(** The quote characters of a dialect: the opening one and the closing one,
    which is the one to double inside. *)
Definition openQuote (d : SqlDialect) : ascii :=
  match d with
  | mysql | sqlite => "`"
  | sqlserver => "["
  | postgresql => "034"
  end%char.

Definition closeQuote (d : SqlDialect) : ascii :=
  match d with
  | mysql | sqlite => "`"
  | sqlserver => "]"
  | postgresql => "034"
  end%char.

(** Every occurrence of [c] written twice. *)
Fixpoint doubled (c : ascii) (s : string) : string :=
  match s with
  | EmptyString => EmptyString
  | String x r =>
      if Ascii.eqb x c then String c (String c (doubled c r))
      else String x (doubled c r)
  end.

Definition quoted (d : SqlDialect) (name : string) : string :=
  String (openQuote d) (doubled (closeQuote d) name
                        ++ String (closeQuote d) EmptyString).

(** Some code unit of the string is white space. *)
Fixpoint anyWhiteSpace (s : string) : bool :=
  match s with
  | EmptyString => false
  | String c r => isWhiteSpace c || anyWhiteSpace r
  end.

(** The words, each preceded by an underscore. *)
Fixpoint sepJoin (l : list string) : string :=
  match l with
  | [] => EmptyString
  | w :: r => "_" ++ w ++ sepJoin r
  end.

(** *** Literals (4.3, 4.4) *)

(** "TRUE/FALSE for postgresql, else 1/0" *)
Definition booleanSql (d : SqlDialect) (b : bool) : string :=
  match d with
  | postgresql => if b then "TRUE" else "FALSE"
  | _ => if b then "1" else "0"
  end.

(** The value an extra column in boolean mode stands for. *)
Definition extraBoolean (v : string) : bool :=
  includes ["true"; "1"; "yes"; "y"; "on"] (toLowerCase (trim v)).

(** The options [o] with another dialect. *)
Definition withDialect (o : GeneratorOptions) (d : SqlDialect)
  : GeneratorOptions :=
  {| dialect := d; tableName := tableName o; schemaName := schemaName o;
     rowsPerInsert := rowsPerInsert o;
     includeColumnList := includeColumnList o;
     trimStrings := trimStrings o;
     emptyStringAsNull := emptyStringAsNull o;
     nullTokens := nullTokens o |}.

(** An extra column in boolean mode. *)
Definition booleanColumn (i name : string) (inc : bool) (v : string)
  : ExtraColumnConfig :=
  {| id := i; extraTargetName := name; extraInclude := inc;
     mode := ModeBoolean; value := v |}.

(** Two strings are equal when case is ignored. *)
Definition equalIgnoringCase (a b : string) : Prop :=
  toLowerCase a = toLowerCase b.

(** The string a cell is matched as: trimmed if and only if [trimStrings]. *)
Definition matchedString (o : GeneratorOptions) (s : string) : string :=
  if trimStrings o then trim s else s.

(** "A single-quoted string with embedded single quotes doubled" *)
Definition singleQuoted (s : string) : string :=
  String "'" (doubled "'" s ++ "'").

(** The rule for strings: NULL for the empty string under
    [emptyStringAsNull], NULL for a string whose lower-case form is a null
    token, the quoted string otherwise. *)
Definition stringLiteral (o : GeneratorOptions) (s : string) : string :=
  let v := matchedString o s in
  if emptyStringAsNull o && isEmpty v then "NULL"
  else if includes (nullTokens o) (toLowerCase v) then "NULL"
  else singleQuoted v.

(** Options with the given null tokens, trimming strings and taking the
    empty string as NULL. *)
Definition optionsWithTokens (tokens : list string) : GeneratorOptions :=
  {| dialect := postgresql; tableName := "t"; schemaName := EmptyString;
     rowsPerInsert := Number_ofZ 250; includeColumnList := true;
     trimStrings := true; emptyStringAsNull := true;
     nullTokens := tokens |}.

(** An extra column in number mode. *)
Definition numberColumn (i name : string) (inc : bool) (v : string)
  : ExtraColumnConfig :=
  {| id := i; extraTargetName := name; extraInclude := inc;
     mode := ModeNumber; value := v |}.

(** The string is empty or made of white space only. *)
Fixpoint whiteSpaceOnly (s : string) : bool :=
  match s with
  | EmptyString => true
  | String c r => isWhiteSpace c && whiteSpaceOnly r
  end.

(** *** Dates (4.3, rule 2) *)

(** The [w] low-order decimal digits of [n], the most significant first. *)
Fixpoint fixedDigits (w : nat) (n : Z) : string :=
  match w with
  | O => EmptyString
  | S w' => fixedDigits w' (n / 10) ++ String (digitChar (n mod 10)) EmptyString
  end.

(** The literal 'YYYY-MM-DD HH:MM:SS' of the time value [t]: its UTC fields,
    the milliseconds dropped. *)
Definition sqlTimestamp (t : Z) : string :=
  "'" ++ fixedDigits 4 (YearFromTime t)
  ++ "-" ++ fixedDigits 2 (MonthFromTime t)
  ++ "-" ++ fixedDigits 2 (DateFromTime t)
  ++ " " ++ fixedDigits 2 (HourFromTime t)
  ++ ":" ++ fixedDigits 2 (MinFromTime t)
  ++ ":" ++ fixedDigits 2 (SecFromTime t) ++ "'".

(** The encoding of a number: "its decimal string if finite, else NULL". *)
Definition numberLiteral (n : number) : string :=
  if Number_isFinite n then Number_toString n else "NULL".

(** The rules of the Literal Encoder as claim C1 lists them: null and
    undefined, dates, numbers, and every other value as a string. *)
Definition encodesAsListed (o : GeneratorOptions) (cell : Cell)
  (r : completion string) : Prop :=
  match cell with
  | CNull | CUndefined => r = Normal "NULL"
  | CDate InvalidDate => exists s, r = Normal s
  | CDate (DateAt t) => r = Normal (sqlTimestamp t)
  | CNumber n => r = Normal (numberLiteral n)
  | CBoolean _ | CString _ => r = Normal (stringLiteral o (String_ cell))
  end.

(** The dates whose ISO format has a four-digit year. *)
Definition fourDigitYear (cell : Cell) : bool :=
  match cell with
  | CDate InvalidDate => false
  | CDate (DateAt t) => ((0 <=? YearFromTime t) && (YearFromTime t <=? 9999))%Z
  | _ => true
  end.

(** The rules with the one for booleans in its place, before the one for
    strings. *)
Definition encodes (o : GeneratorOptions) (cell : Cell)
  (r : completion string) : Prop :=
  match cell with
  | CNull | CUndefined => r = Normal "NULL"
  | CDate InvalidDate => True
  | CDate (DateAt t) => r = Normal (sqlTimestamp t)
  | CNumber n => r = Normal (numberLiteral n)
  | CBoolean b => r = Normal (booleanSql (dialect o) b)
  | CString s => r = Normal (stringLiteral o s)
  end.

(** A code unit occurs in a string. *)
Fixpoint occurs (c : ascii) (s : string) : bool :=
  match s with
  | EmptyString => false
  | String x r => Ascii.eqb x c || occurs c r
  end.

(** *** The Statement Builder (4.5) *)

(** A column is used when it is included and its target name normalizes to
    a name that is not empty. *)
Definition usableColumn (c : ColumnConfig) : bool :=
  include c && negb (isEmpty (normalized (targetName c))).

Definition usableExtra (c : ExtraColumnConfig) : bool :=
  extraInclude c && negb (isEmpty (normalized (extraTargetName c))).

(** A cell is blank when it is null, undefined, or white space only once
    converted to a string. *)
Definition blankCell (cell : Cell) : bool :=
  match cell with
  | CNull | CUndefined => true
  | _ => whiteSpaceOnly (String_ cell)
  end.

(** A row is blank when every one of its cells is. *)
Definition blankRow (row : Row) : bool := forallb blankCell row.

Definition survivingRows (rows : list Row) : list Row :=
  filter (fun row => negb (blankRow row)) rows.

(** The degenerate inputs: an empty table name, no usable column among the
    mapped and the extra ones, or no surviving row. *)
Definition degenerate (rows : list Row) (columns : list ColumnConfig)
  (extraColumns : list ExtraColumnConfig) (o : GeneratorOptions) : bool :=
  isEmpty (normalized (tableName o))
  || (negb (existsb usableColumn columns)
      && negb (existsb usableExtra extraColumns))
  || forallb blankRow rows.

(** The names of the column list: the quoted mapped target names, then the
    quoted extra target names. *)
Definition columnNames (columns : list ColumnConfig)
  (extraColumns : list ExtraColumnConfig) (d : SqlDialect) : list string :=
  (map (fun c => quoteIdentifier (targetName c) d) (filter usableColumn columns)
   ++ map (fun c => quoteIdentifier (extraTargetName c) d)
          (filter usableExtra extraColumns))%list.

(** The batch size handed to [chunkArray]. *)
Definition batchSize (o : GeneratorOptions) : number :=
  Math_max (Number_ofZ 1) (rowsPerInsert o).

(** The three comment lines at the head of a script. *)
Definition header (o : GeneratorOptions) (rowCount : nat) : string :=
  "-- Generated by RedCoconut SQL Builder" ++ LF
  ++ "-- Dialect: " ++ dialectString (dialect o) ++ LF
  ++ "-- Rows: " ++ Number_toString (Number_ofNat rowCount).

(** The layout claim C3 describes: two lines without a line feed inside,
    a blank line, and the statements with a blank line between two of
    them. *)
Definition twoLineHeaderLayout (out : string) : Prop :=
  exists line1 line2 statements,
    occurs (ascii_of_nat 10) line1 = false
    /\ occurs (ascii_of_nat 10) line2 = false
    /\ out = line1 ++ LF ++ line2 ++ LF ++ LF ++ join (LF ++ LF) statements.

(** The text after the first line feed. *)
Fixpoint afterFirstLine (s : string) : string :=
  match s with
  | EmptyString => EmptyString
  | String c r => if Ascii.eqb c (ascii_of_nat 10) then r else afterFirstLine r
  end.

(** The inputs of the example of section 8: two rows, the columns id and
    name, the table t. *)
Definition exampleRows : list Row :=
  [ [CNumber (Number_ofZ 1); CString "Ann"];
    [CNumber (Number_ofZ 2); CString "Bea"] ].

Definition exampleColumns : list ColumnConfig :=
  [ {| sourceIndex := Number_ofZ 0; sourceName := "id";
       targetName := "id"; include := true |};
    {| sourceIndex := Number_ofZ 1; sourceName := "name";
       targetName := "name"; include := true |} ].

Definition exampleOptions (d : SqlDialect) (size : number)
  : GeneratorOptions :=
  {| dialect := d; tableName := "t"; schemaName := EmptyString;
     rowsPerInsert := size; includeColumnList := true;
     trimStrings := true; emptyStringAsNull := true;
     nullTokens := ["null"; "n/a"] |}.

(** An extra column whose value is the SQL expression NOW(). *)
Definition createdAt : ExtraColumnConfig :=
  {| id := "extra-1"; extraTargetName := "created at"; extraInclude := true;
     mode := ModeSql; value := "NOW()" |}.

(** The script of the example with one row per INSERT under sqlite. *)
Definition exampleScript : string :=
  Eval vm_compute in
    match buildInsertScript exampleRows exampleColumns []
            (exampleOptions sqlite (Number_ofZ 1)) with
    | Some (Normal out) => out
    | _ => EmptyString
    end.

(** *** Batches (4.5, steps 7 and 8) *)

(** Consecutive batches of [n] items, the last one of the items that are
    left; [fuel] bounds the number of batches. *)
Fixpoint batchesFrom {T : Type} (fuel n : nat) (l : list T) : list (list T) :=
  match fuel with
  | O => []
  | S fuel' =>
      match l with
      | [] => []
      | _ :: _ => firstn n l :: batchesFrom fuel' n (skipn n l)
      end
  end.

Definition batchesOf {T : Type} (n : nat) (l : list T) : list (list T) :=
  batchesFrom (length l) n l.


(** The binary64 value of a positive integer [n] below 2^53, of sign [s]:
    the mantissa is [n] shifted to 53 bits. *)
Definition canon (s : bool) (n : positive) : number :=
  S754_finite s (Z.to_pos (Zpos n * 2 ^ (53 - Zpos (digits2_pos n))))
    (Zpos (digits2_pos n) - 53).

End Spec.

(* ================================================================== *)
(** * The rest of the runtime and of [src/App.tsx]                    *)
(* ================================================================== *)

(** The runtime functions called by the column inference and by the
    handlers of the component. *)
Module JSMore.
Import JS.

(** [s.split(sep)] for a one-character separator: the pieces between the
    separators, one piece more than there are separators. *)
Fixpoint split (s : string) (sep : ascii) : list string :=
  match s with
  | EmptyString => [EmptyString]
  | String c r =>
      if Ascii.eqb c sep then EmptyString :: split r sep
      else
        match split r sep with
        | piece :: pieces => String c piece :: pieces
        | [] => [String c EmptyString]
        end
  end.

(** [Boolean(s)] for a string: the empty string is the only falsy one. *)
Definition Boolean_string (s : string) : bool := negb (isEmpty s).

(** [Boolean(x)] for a number: NaN and the two zeros are the falsy ones. *)
Definition Boolean_number (x : number) : bool :=
  match x with
  | S754_nan | S754_zero _ => false
  | S754_infinity _ | S754_finite _ _ _ => true
  end.

(** [a || b] on strings. *)
Definition orElse (a b : string) : string :=
  if Boolean_string a then a else b.

(** [Array.prototype.findIndex], with [None] for the result -1. *)
Fixpoint findIndex {A : Type} (f : A -> bool) (l : list A) : option nat :=
  match l with
  | [] => None
  | x :: r =>
      if f x then Some O
      else match findIndex f r with
           | Some i => Some (S i)
           | None => None
           end
  end.

(** A code unit occurs in a string. *)
Fixpoint contains (c : ascii) (s : string) : bool :=
  match s with
  | EmptyString => false
  | String x r => Ascii.eqb x c || contains c r
  end.

(** [s.replace(/\.[^.]+$/, '')]: the match is tried at every position from
    the left; it succeeds at a dot that is followed, up to the end of the
    string, by one or more code units none of which is a dot, and the match
    is removed. *)
Fixpoint removeExtension (s : string) : string :=
  match s with
  | EmptyString => EmptyString
  | String c r =>
      if Ascii.eqb c "." && negb (isEmpty r) && negb (contains "." r)
      then EmptyString
      else String c (removeExtension r)
  end.

(** [Array.prototype.map] with the index passed to the callback. *)
Fixpoint mapIndexed {A B : Type} (f : A -> nat -> B) (index : nat)
  (l : list A) : list B :=
  match l with
  | [] => []
  | x :: r => f x index :: mapIndexed f (S index) r
  end.

End JSMore.

(** The functions of [src/App.tsx] besides the generator: the column
    inference and the state updates of the component.  A state update is the
    function from the previous state to the next one; lengths and positions
    of arrays are natural numbers, and [crypto.randomUUID()] is the
    parameter [uuid]. *)
Module Component.
Import JS JSMore App.

Definition defaultOptions : GeneratorOptions :=
  {| dialect := mysql; tableName := "my_table"; schemaName := EmptyString;
     rowsPerInsert := Number_ofZ 250; includeColumnList := true;
     trimStrings := true; emptyStringAsNull := true;
     nullTokens := ["null"; "nil"; "n/a"] |}.

Definition defaultTimestampExpression (dialect : SqlDialect) : string :=
  match dialect with
  | mysql => "NOW()"
  | postgresql => "NOW()"
  | sqlite => "CURRENT_TIMESTAMP"
  | sqlserver => "SYSDATETIME()"
  end.

(** ** inferColumns *)

(** The name of the column at [index]: the header cell, trimmed, when there
    is one with content, and [column_N] otherwise. *)
Definition inferredSourceName (header : Row) (hasHeaderRow : bool)
  (index : nat) : string :=
  let raw :=
    if hasHeaderRow then
      match nth_error header index with
      | Some cell => cell
      | None => CUndefined
      end
    else CUndefined in
  if cellHasContent raw then trim (String_ raw)
  else "column_" ++ Number_toString (Number_ofNat (index + 1)).

Definition inferColumns (rows : list Row) (hasHeaderRow : bool)
  : list ColumnConfig :=
  let header :=
    if hasHeaderRow then
      match rows with
      | first :: _ => first
      | [] => []
      end
    else [] in
  let maxColumns :=
    fold_left (fun max row => Nat.max max (length row)) rows (length header) in
  map (fun index =>
         let sourceName := inferredSourceName header hasHeaderRow index in
         {| sourceIndex := Number_ofNat index;
            sourceName := sourceName;
            targetName := normalizeIdentifier sourceName;
            include := true |})
      (seq 0 maxColumns).

(** The rows handed to [buildInsertScript]: the rows of the sheet, without
    the first one when it is the header. *)
Definition dataRows (activeRows : list Row) (hasHeaderRow : bool) : list Row :=
  if (length activeRows =? 0)%nat then []
  else if hasHeaderRow then skipn 1 activeRows else activeRows.

(** ** The table name and the file names *)

(** The table name set when a file is loaded. *)
Definition defaultTableName (fileName : string) : string :=
  orElse (normalizeIdentifier (removeExtension fileName)) "my_table".

(** The name of the downloaded file. *)
Definition downloadName (options : GeneratorOptions) : string :=
  orElse (normalizeIdentifier (tableName options)) "insert_script" ++ ".sql".

(** ** The fields of the form *)

(** The value stored for the field "Rows Per INSERT". *)
Definition rowsPerInsertOfField (text : string) : number :=
  let n := StringToNumber text in
  if Boolean_number n then n else Number_ofZ 1.

(** The tokens stored for the field "NULL tokens". *)
Definition nullTokensOfField (text : string) : list string :=
  filter Boolean_string
    (map (fun token => toLowerCase (trim token)) (split text ",")).

Definition setDialect (options : GeneratorOptions) (d : SqlDialect)
  : GeneratorOptions :=
  {| dialect := d; tableName := tableName options;
     schemaName := schemaName options;
     rowsPerInsert := rowsPerInsert options;
     includeColumnList := includeColumnList options;
     trimStrings := trimStrings options;
     emptyStringAsNull := emptyStringAsNull options;
     nullTokens := nullTokens options |}.

(** [handleDialectChange]: the next options and the next timestamp
    expression. *)
Definition handleDialectChange (options : GeneratorOptions)
  (timestampExpression : string) (dialect : SqlDialect)
  : GeneratorOptions * string :=
  let oldDefault := defaultTimestampExpression (App.dialect options) in
  let nextDefault := defaultTimestampExpression dialect in
  (setDialect options dialect,
   if String.eqb (trim timestampExpression) EmptyString
      || String.eqb timestampExpression oldDefault
   then nextDefault else timestampExpression).

(** ** The extra columns *)

(** A [Partial<ExtraColumnConfig>]: the fields that are given. *)
Record ExtraColumnPatch : Type := {
  patchId : option string;
  patchTargetName : option string;
  patchInclude : option bool;
  patchMode : option ExtraColumnMode;
  patchValue : option string
}.

Definition orKeep {A : Type} (given : option A) (old : A) : A :=
  match given with
  | Some a => a
  | None => old
  end.

(** [{ ...column, ...patch }] *)
Definition applyPatch (column : ExtraColumnConfig) (patch : ExtraColumnPatch)
  : ExtraColumnConfig :=
  {| id := orKeep (patchId patch) (id column);
     extraTargetName := orKeep (patchTargetName patch) (extraTargetName column);
     extraInclude := orKeep (patchInclude patch) (extraInclude column);
     mode := orKeep (patchMode patch) (mode column);
     value := orKeep (patchValue patch) (value column) |}.

Definition addExtraColumn (uuid : string) (prev : list ExtraColumnConfig)
  : list ExtraColumnConfig :=
  (prev ++ [ {| id := uuid;
                extraTargetName :=
                  "extra_column_"
                  ++ Number_toString (Number_ofNat (length prev + 1));
                extraInclude := true;
                mode := ModeText;
                value := EmptyString |} ])%list.

Definition updateExtraColumn (i : string) (patch : ExtraColumnPatch)
  (prev : list ExtraColumnConfig) : list ExtraColumnConfig :=
  map (fun column =>
         if String.eqb (id column) i then applyPatch column patch else column)
      prev.

Definition removeExtraColumn (i : string) (prev : list ExtraColumnConfig)
  : list ExtraColumnConfig :=
  filter (fun column => negb (String.eqb (id column) i)) prev.

(** The name under which [upsertExtraColumn] looks a column up. *)
Definition lookupName (targetName : string) : string :=
  toLowerCase (normalizeIdentifier targetName).

Definition upsertExtraColumn (uuid : string) (targetName : string)
  (mode : ExtraColumnMode) (value : string) (prev : list ExtraColumnConfig)
  : list ExtraColumnConfig :=
  let normalized := lookupName targetName in
  let existingIndex :=
    findIndex (fun column =>
                 String.eqb (lookupName (extraTargetName column)) normalized)
              prev in
  let nextColumn :=
    {| id := match existingIndex with
             | Some i =>
                 match nth_error prev i with
                 | Some column => id column
                 | None => uuid
                 end
             | None => uuid
             end;
       extraTargetName := targetName;
       extraInclude := true;
       mode := mode;
       value := value |} in
  match existingIndex with
  | Some i =>
      mapIndexed (fun column index =>
                    if (index =? i)%nat then nextColumn else column) O prev
  | None => (prev ++ [nextColumn])%list
  end.

(** What [applyTimestampDefaults] does: an error toast and no change of
    state, or the new extra columns and a success toast. *)
Inductive TimestampDefaults : Type :=
| ToastError (message : string)
| ToastSuccess (message : string) (extraColumns : list ExtraColumnConfig).

(** The queued updates [upsertExtraColumn(columnName, 'sql', expression)],
    applied in order; [uuid k] is the identifier drawn by the update of
    number [k]. *)
Fixpoint upsertAll (uuid : nat -> string) (k : nat) (columnNames : list string)
  (expression : string) (prev : list ExtraColumnConfig)
  : list ExtraColumnConfig :=
  match columnNames with
  | [] => prev
  | columnName :: rest =>
      upsertAll uuid (S k) rest expression
        (upsertExtraColumn (uuid k) columnName ModeSql expression prev)
  end.

Definition applyTimestampDefaults (uuid : nat -> string)
  (options : GeneratorOptions) (timestampExpression : string)
  (timestampColumnNames : string) (extraColumns : list ExtraColumnConfig)
  : TimestampDefaults :=
  let columnNames :=
    filter Boolean_string
      (map (fun column => trim column) (split timestampColumnNames ",")) in
  if (length columnNames =? 0)%nat
  then ToastError "Add at least one timestamp column name"
  else
    let expression :=
      orElse (trim timestampExpression)
        (defaultTimestampExpression (dialect options)) in
    ToastSuccess
      ("Timestamp defaults applied to "
       ++ Number_toString (Number_ofNat (length columnNames))
       ++ " column"
       ++ (if (length columnNames =? 1)%nat then EmptyString else "s"))
      (upsertAll uuid O columnNames expression extraColumns).

(** What [handleDownload] does: an error toast, or the file that is offered
    under a name, and a success toast. *)
Inductive Download : Type :=
| DownloadError (message : string)
| DownloadFile (name content message : string).

Definition handleDownload (generatedSql : string) (options : GeneratorOptions)
  : Download :=
  if negb (Boolean_string generatedSql)
  then DownloadError "No SQL generated yet"
  else DownloadFile (downloadName options) generatedSql "SQL file downloaded".

End Component.

(** The vocabulary of the properties proved about the component. *)
Module Props.
Import JS JSMore App Spec Component.

(** Reading a quoted text as an SQL lexer does: the text up to the closing
    quote [c], a doubled [c] standing for one; [None] when the closing quote
    is missing or is followed by more text. *)
Fixpoint readQuoted (c : ascii) (s : string) : option string :=
  match s with
  | EmptyString => None
  | String x r =>
      if Ascii.eqb x c then
        match r with
        | EmptyString => Some EmptyString
        | String y r' =>
            if Ascii.eqb y c then option_map (String c) (readQuoted c r')
            else None
        end
      else option_map (String x) (readQuoted c r)
  end.

(** The name a quoted identifier of dialect [d] denotes. *)
Definition readIdentifier (d : SqlDialect) (q : string) : option string :=
  match q with
  | EmptyString => None
  | String o body =>
      if Ascii.eqb o (openQuote d) then readQuoted (closeQuote d) body
      else None
  end.

(** The text a single-quoted string literal denotes. *)
Definition readStringLiteral (lit : string) : option string :=
  match lit with
  | EmptyString => None
  | String o body => if Ascii.eqb o "'" then readQuoted "'" body else None
  end.

(** The cell is the invalid date. *)
Definition isInvalidDate (cell : Cell) : bool :=
  match cell with
  | CDate InvalidDate => true
  | _ => false
  end.

(** Some row that survives the filter of blank rows holds the invalid date
    in the cell of an included column. *)
Definition hasInvalidDate (rows : list Row) (columns : list ColumnConfig)
  : bool :=
  existsb (fun row =>
             existsb (fun column =>
                        isInvalidDate (cellAt row (sourceIndex column)))
                     (includedColumns columns))
          (filteredRows rows).

(** A call throws. *)
Definition throws {A : Type} (c : completion A) : bool :=
  match c with
  | Throw _ => true
  | Normal _ => false
  end.

(** The exception of [Date.prototype.toISOString]. *)
Definition invalidTime : JsError := RangeError "Invalid time value".

(** Two target names are the same to [upsertExtraColumn]. *)
Definition sameName (a b : string) : bool :=
  String.eqb (lookupName a) (lookupName b).

(** The extra column that [upsertExtraColumn] writes, with identifier [i]. *)
Definition upserted (i targetName : string) (mode : ExtraColumnMode)
  (value : string) : ExtraColumnConfig :=
  {| id := i; extraTargetName := targetName; extraInclude := true;
     mode := mode; value := value |}.

(** The names [applyTimestampDefaults] reads from its field. *)
Definition timestampNames (timestampColumnNames : string) : list string :=
  filter Boolean_string
    (map (fun column => trim column) (split timestampColumnNames ",")).

(** The expression [applyTimestampDefaults] writes. *)
Definition timestampValue (options : GeneratorOptions)
  (timestampExpression : string) : string :=
  orElse (trim timestampExpression)
    (defaultTimestampExpression (dialect options)).

(** The names of the extra columns as [upsertExtraColumn] compares them. *)
Definition lookupNames (extraColumns : list ExtraColumnConfig) : list string :=
  map (fun column => lookupName (extraTargetName column)) extraColumns.

End Props.

(* ================================================================== *)
(** * Facts about the runtime                                         *)
(* ================================================================== *)

Import JS App Spec.

Lemma append_empty_r (s : string) : s ++ EmptyString = s.
Proof. induction s as [|c s IH]; simpl; congruence. Qed.

Lemma append_assoc (a b c : string) : (a ++ b) ++ c = a ++ (b ++ c).
Proof. induction a as [|x a IH]; simpl; congruence. Qed.

Lemma isEmpty_true (s : string) : isEmpty s = true -> s = EmptyString.
Proof. destruct s; simpl; congruence. Qed.

Lemma length_zero_isEmpty (s : string) :
  (String.length s =? 0)%nat = isEmpty s.
Proof. destruct s; reflexivity. Qed.

Lemma length_pos_isEmpty (s : string) :
  (0 <? String.length s)%nat = negb (isEmpty s).
Proof. destruct s; reflexivity. Qed.

(** *** trim *)

Lemma trimEnd_fixed_tail (c : ascii) (r : string) :
  trimEnd (String c r) = String c r -> trimEnd r = r.
Proof.
  simpl. destruct (isWhiteSpace c && isEmpty (trimEnd r)); congruence.
Qed.

Lemma trimEnd_idempotent (s : string) : trimEnd (trimEnd s) = trimEnd s.
Proof.
  induction s as [|c r IH]; simpl; [reflexivity|].
  destruct (isWhiteSpace c && isEmpty (trimEnd r)) eqn:E; simpl; [reflexivity|].
  rewrite IH, E. reflexivity.
Qed.

Lemma trimStart_head (s : string) :
  match trimStart s with
  | EmptyString => True
  | String c _ => isWhiteSpace c = false
  end.
Proof.
  induction s as [|c r IH]; simpl; [exact I|].
  destruct (isWhiteSpace c) eqn:E; [exact IH | exact E].
Qed.

(** *** The words of a string and [normalizeIdentifier] *)

Lemma join_cons_sepJoin (w : string) (l : list string) :
  join "_" (w :: l) = w ++ sepJoin l.
Proof.
  revert w. induction l as [|v l IH]; intros w.
  - simpl. now rewrite append_empty_r.
  - change (join "_" (w :: v :: l)) with (w ++ "_" ++ join "_" (v :: l)).
    rewrite IH. reflexivity.
Qed.

Lemma takeWord_trimEnd (s : string) : takeWord (trimEnd s) = takeWord s.
Proof.
  induction s as [|c r IH]; simpl; [reflexivity|].
  destruct (isWhiteSpace c) eqn:E; simpl.
  - destruct (isEmpty (trimEnd r)); simpl; [reflexivity | now rewrite E].
  - now rewrite E, IH.
Qed.

Lemma wordsFrom_trimEnd (s : string) (b : bool) :
  wordsFrom b (trimEnd s) = wordsFrom b s.
Proof.
  revert b. induction s as [|c r IH]; intros b; simpl; [reflexivity|].
  destruct (isWhiteSpace c) eqn:E; simpl.
  - destruct (isEmpty (trimEnd r)) eqn:F; simpl.
    + rewrite <- IH. apply isEmpty_true in F. now rewrite F.
    + now rewrite E, IH.
  - rewrite E, IH. destruct b; [reflexivity|].
    f_equal. f_equal. apply takeWord_trimEnd.
Qed.

Lemma words_trimStart (s : string) : words (trimStart s) = words s.
Proof.
  unfold words. induction s as [|c r IH]; simpl; [reflexivity|].
  destruct (isWhiteSpace c) eqn:E; [exact IH|].
  simpl. now rewrite E.
Qed.

Lemma words_trim (s : string) : words (trim s) = words s.
Proof.
  unfold trim, words. rewrite wordsFrom_trimEnd. apply words_trimStart.
Qed.

(** Inside a string that does not end in white space: after a code unit
    that is not white space, and after a run of white space. *)
Lemma replaceWhiteSpaceRuns_words (s : string) :
  trimEnd s = s ->
  replaceWhiteSpaceRuns false s "_" = takeWord s ++ sepJoin (wordsFrom true s)
  /\ (s <> EmptyString ->
      "_" ++ replaceWhiteSpaceRuns true s "_" = sepJoin (wordsFrom false s)).
Proof.
  induction s as [|c r IH]; intros Hfix.
  - split; [reflexivity | congruence].
  - pose proof (trimEnd_fixed_tail _ _ Hfix) as Hr.
    destruct (IH Hr) as [IH1 IH2].
    assert (Hne : isWhiteSpace c = true -> r <> EmptyString).
    { intros E ->. simpl in Hfix. rewrite E in Hfix. discriminate. }
    simpl. destruct (isWhiteSpace c) eqn:E.
    + split; [apply IH2, Hne; reflexivity|].
      intros _. apply IH2, Hne; reflexivity.
    + split.
      * simpl. now rewrite IH1.
      * intros _. simpl. now rewrite IH1.
Qed.

Lemma normalizeIdentifier_words (s : string) :
  normalizeIdentifier s = normalized s.
Proof.
  unfold normalizeIdentifier, normalized.
  rewrite <- (words_trim s).
  assert (Hfix : trimEnd (trim s) = trim s) by apply trimEnd_idempotent.
  assert (Hhead : match trim s with
                  | EmptyString => True
                  | String c _ => isWhiteSpace c = false
                  end).
  { unfold trim. pose proof (trimStart_head s) as H.
    destruct (trimStart s) as [|c r]; simpl; [exact I|].
    rewrite H. simpl. exact H. }
  destruct (trim s) as [|c r]; [reflexivity|].
  pose proof (trimEnd_fixed_tail _ _ Hfix) as Hr.
  destruct (replaceWhiteSpaceRuns_words r Hr) as [H1 _].
  unfold words. simpl. rewrite Hhead.
  rewrite join_cons_sepJoin. simpl. now rewrite H1.
Qed.

(** The normalized identifier is free of white space. *)
Lemma anyWhiteSpace_append (a b : string) :
  anyWhiteSpace (a ++ b) = anyWhiteSpace a || anyWhiteSpace b.
Proof.
  induction a as [|c a IH]; simpl; [reflexivity|].
  now rewrite IH, orb_assoc.
Qed.

Lemma takeWord_no_white_space (s : string) :
  anyWhiteSpace (takeWord s) = false.
Proof.
  induction s as [|c r IH]; simpl; [reflexivity|].
  destruct (isWhiteSpace c) eqn:E; simpl; [reflexivity|].
  now rewrite E, IH.
Qed.

Lemma wordsFrom_no_white_space (b : bool) (s : string) :
  Forall (fun w => anyWhiteSpace w = false) (wordsFrom b s).
Proof.
  revert b. induction s as [|c r IH]; intros b; simpl; [constructor|].
  destruct (isWhiteSpace c) eqn:E; [apply IH|].
  destruct b; [apply IH|].
  constructor; [|apply IH].
  simpl. now rewrite E, takeWord_no_white_space.
Qed.

Lemma normalizeIdentifier_no_white_space (s : string) :
  anyWhiteSpace (normalizeIdentifier s) = false.
Proof.
  rewrite normalizeIdentifier_words. unfold normalized, words.
  pose proof (wordsFrom_no_white_space false s) as H.
  induction H as [|w l Hw _ IH]; [reflexivity|].
  rewrite join_cons_sepJoin, anyWhiteSpace_append, Hw. simpl.
  clear Hw. destruct l as [|v l]; [reflexivity|].
  rewrite join_cons_sepJoin in IH. simpl.
  now rewrite anyWhiteSpace_append in *.
Qed.

Lemma replaceAll_doubled (c : ascii) (s : string) :
  replaceAll s c (String c (String c EmptyString)) = doubled c s.
Proof.
  induction s as [|x r IH]; simpl; [reflexivity|].
  destruct (Ascii.eqb x c); simpl; now rewrite IH.
Qed.

(* ================================================================== *)
(** * Identifier quoting                                              *)
(* ================================================================== *)

(** C5. [quoteIdentifier] normalizes its argument first, to the words of the
    identifier joined by single underscores (white space removed at both ends
    and every run of white space inside collapsed to one underscore).  An
    empty result gives the empty string; any other result is wrapped in
    backticks for mysql and sqlite, in square brackets for sqlserver and in
    double quotes for postgresql, with the closing quote character doubled
    wherever it occurs inside.  The empty identifier gives the empty string
    under every dialect. *)
Theorem quoteIdentifier_normalizes_then_quotes
  (identifier : string) (d : SqlDialect) :
  normalizeIdentifier identifier = normalized identifier
  /\ quoteIdentifier identifier d
     = (if isEmpty (normalized identifier) then EmptyString
        else quoted d (normalized identifier))
  /\ quoteIdentifier EmptyString d = EmptyString
  /\ normalizeIdentifier "  a   b  " = "a_b".
Proof.
  split; [apply normalizeIdentifier_words|].
  split; [|split; reflexivity].
  unfold quoteIdentifier, quoted. rewrite normalizeIdentifier_words.
  destruct (isEmpty (normalized identifier)); [reflexivity|].
  destruct d; simpl; now rewrite replaceAll_doubled.
Qed.

(* ================================================================== *)
(** * Booleans                                                        *)
(* ================================================================== *)

Lemma booleanLiteral_booleanSql (d : SqlDialect) (b : bool) :
  booleanLiteral d b = booleanSql d b.
Proof. destruct d, b; reflexivity. Qed.

Lemma includes_In (l : list string) (s : string) :
  includes l s = true <-> In s l.
Proof.
  unfold includes. rewrite existsb_exists. split.
  - intros [t [Hin Heq]]. apply String.eqb_eq in Heq. now subst.
  - intros Hin. exists s. split; [exact Hin | apply String.eqb_refl].
Qed.

(** C9. A boolean cell encodes as TRUE/FALSE under postgresql and as 1/0
    under every other dialect.  An extra column in boolean mode stands for
    true if and only if its value, trimmed and lower-cased, is one of true,
    1, yes, y, on, and encodes by the same rule; so the value yes gives TRUE
    under postgresql and 1 under mysql. *)
Theorem boolean_encoding_per_dialect
  (o : GeneratorOptions) (b : bool)
  (i name v : string) (inc : bool) :
  toSqlLiteral (CBoolean b) o = Normal (booleanSql (dialect o) b)
  /\ extraValueToSql (booleanColumn i name inc v) o
     = Normal (booleanSql (dialect o) (extraBoolean v))
  /\ (extraBoolean v = true
      <-> In (toLowerCase (trim v)) ["true"; "1"; "yes"; "y"; "on"])
  /\ extraValueToSql (booleanColumn i name inc "yes") (withDialect o postgresql)
     = Normal "TRUE"
  /\ extraValueToSql (booleanColumn i name inc "yes") (withDialect o mysql)
     = Normal "1".
Proof.
  repeat split.
  - simpl. now rewrite booleanLiteral_booleanSql.
  - unfold extraValueToSql. simpl. now rewrite booleanLiteral_booleanSql.
  - unfold extraBoolean. apply includes_In.
  - unfold extraBoolean. apply includes_In.
Qed.

(* ================================================================== *)
(** * String literals and null tokens                                 *)
(* ================================================================== *)

Lemma toSqlLiteral_string (s : string) (o : GeneratorOptions) :
  toSqlLiteral (CString s) o = Normal (stringLiteral o s).
Proof.
  unfold toSqlLiteral, stringLiteral, matchedString, singleQuoted, includes.
  simpl String_. rewrite length_zero_isEmpty.
  destruct (emptyStringAsNull o && isEmpty _); [reflexivity|].
  destruct (existsb _ _); [reflexivity|].
  now rewrite replaceAll_doubled.
Qed.

(** C4, as stated, fails: the token N/A is configured and the cell N/A is
    equal to it, yet the cell is encoded as the string 'N/A'.  The encoder
    compares the lower-cased cell with the token as it is configured, so a
    token with a capital letter matches no cell. *)
Lemma null_token_with_capitals_never_matches :
  ~ (forall (o : GeneratorOptions) (token s : string),
        In token (nullTokens o) ->
        equalIgnoringCase (matchedString o s) token ->
        toSqlLiteral (CString s) o = Normal "NULL").
Proof.
  intros H.
  specialize (H (optionsWithTokens ["N/A"]) "N/A" "N/A").
  assert (E : toSqlLiteral (CString "N/A") (optionsWithTokens ["N/A"])
              = Normal "'N/A'") by reflexivity.
  rewrite E in H. 
  assert (C : @Normal string "'N/A'" = Normal "NULL").
  { apply H; [left; reflexivity | reflexivity]. }
  discriminate C.
Qed.

(** C4, amended. For every configured null token that is written in lower
    case, every string cell whose value (trimmed when [trimStrings] is set)
    equals the token when case is ignored is encoded as NULL; with the
    tokens null and n/a the cell N/A is encoded as NULL. *)
Theorem lower_case_null_token_matches_ignoring_case
  (o : GeneratorOptions) (token s : string) :
  In token (nullTokens o) ->
  toLowerCase token = token ->
  equalIgnoringCase (matchedString o s) token ->
  toSqlLiteral (CString s) o = Normal "NULL"
  /\ toSqlLiteral (CString "N/A") (optionsWithTokens ["null"; "n/a"])
     = Normal "NULL".
Proof.
  intros Hin Hlow Heq. split; [|reflexivity].
  rewrite toSqlLiteral_string. unfold stringLiteral.
  destruct (emptyStringAsNull o && isEmpty _); [reflexivity|].
  unfold equalIgnoringCase in Heq. rewrite Heq, Hlow.
  apply includes_In in Hin. now rewrite Hin.
Qed.

Lemma lower_case_null_token_witness :
  toSqlLiteral (CString "  N/a ") (optionsWithTokens ["null"; "n/a"])
  = Normal "NULL"
  /\ toSqlLiteral (CString "N/A") (optionsWithTokens ["null"; "n/a"])
     = Normal "NULL".
Proof.
  apply (lower_case_null_token_matches_ignoring_case
           (optionsWithTokens ["null"; "n/a"]) "n/a" "  N/a ").
  - simpl. right. left. reflexivity.
  - reflexivity.
  - reflexivity.
Defined.

(* ================================================================== *)
(** * Numbers as text                                                 *)
(* ================================================================== *)

Lemma trimStart_whiteSpaceOnly (s : string) :
  whiteSpaceOnly s = true -> trimStart s = EmptyString.
Proof.
  induction s as [|c r IH]; simpl; [reflexivity|].
  intros H. apply andb_true_iff in H as [Hc Hr]. rewrite Hc. auto.
Qed.

Lemma trim_whiteSpaceOnly (s : string) :
  whiteSpaceOnly s = true -> trim s = EmptyString.
Proof.
  intros H. unfold trim. now rewrite trimStart_whiteSpaceOnly.
Qed.

Lemma trim_empty_whiteSpaceOnly (s : string) :
  trim s = EmptyString -> whiteSpaceOnly s = true.
Proof.
  unfold trim. induction s as [|c r IH]; simpl; [reflexivity|].
  destruct (isWhiteSpace c) eqn:E; simpl; [exact IH|].
  rewrite E. simpl. discriminate.
Qed.

Lemma StringToNumber_blank (s : string) :
  whiteSpaceOnly s = true -> StringToNumber s = S754_zero false.
Proof.
  intros H. unfold StringToNumber. now rewrite trim_whiteSpaceOnly.
Qed.

Lemma digitChar_cases (k : Z) :
  In (digitChar (k mod 10))
     ["0"; "1"; "2"; "3"; "4"; "5"; "6"; "7"; "8"; "9"]%char.
Proof.
  pose proof (Z.mod_pos_bound k 10 ltac:(lia)) as B.
  assert (C : (k mod 10 = 0 \/ k mod 10 = 1 \/ k mod 10 = 2 \/ k mod 10 = 3
               \/ k mod 10 = 4 \/ k mod 10 = 5 \/ k mod 10 = 6
               \/ k mod 10 = 7 \/ k mod 10 = 8 \/ k mod 10 = 9)%Z) by lia.
  repeat (destruct C as [C|C]; [rewrite C; simpl; tauto|]).
  rewrite C; simpl; tauto.
Qed.

Lemma digitChar_not_N (k : Z) : digitChar (k mod 10) <> "N"%char.
Proof.
  pose proof (digitChar_cases k) as H. simpl in H.
  repeat (destruct H as [H|H]; [rewrite <- H; discriminate|]).
  contradiction.
Qed.

Lemma decimalDigits_head (fuel : nat) (n : Z) (acc : string) :
  exists k r, decimalDigits (S fuel) n acc = String (digitChar (k mod 10)) r.
Proof.
  revert n acc. induction fuel as [|fuel IH]; intros n acc.
  - simpl. destruct (n <? 10)%Z; eauto.
  - change (decimalDigits (S (S fuel)) n acc)
      with (let acc' := String (digitChar (n mod 10)) acc in
            if (n <? 10)%Z then acc'
            else decimalDigits (S fuel) (n / 10) acc').
    cbv zeta. destruct (n <? 10)%Z; [eauto | apply IH].
Qed.

Lemma formatDigits_head (ds : string) (n : Z) :
  (forall c r, ds = String c r -> c <> "N"%char) ->
  exists c r, formatDigits ds n = String c r /\ c <> "N"%char.
Proof.
  intros H. destruct ds as [|d rest].
  - exists "0"%char, EmptyString. split; [reflexivity | discriminate].
  - specialize (H d rest eq_refl). unfold formatDigits.
    destruct (_ && _)%bool; [eauto|].
    destruct (_ && _)%bool; [eauto|].
    destruct (_ && _)%bool.
    + eexists _, _. split; [reflexivity | discriminate].
    + destruct rest; eauto.
Qed.

(** The numeral of a finite number starts with a digit or a minus sign. *)
Lemma Number_toString_finite_head (x : number) :
  Number_isFinite x = true ->
  exists c r, Number_toString x = String c r /\ c <> "N"%char.
Proof.
  destruct x as [s|s| |s m e]; try discriminate; intros _.
  - eexists _, _. split; [reflexivity | discriminate].
  - unfold Number_toString.
    destruct (shortestDigits 20 1 m e (decimalExponent m e)) as [d n].
    destruct (formatDigits_head (decimal d) n) as [c [r [E Hc]]].
    { intros c r Hd. unfold decimal in Hd.
      destruct (decimalDigits_head (Z.to_nat (Z.log2 d)) d EmptyString)
        as [k [r' Hk]].
      rewrite Hk in Hd. injection Hd as <- _. apply digitChar_not_N. }
    destruct s.
    + eexists _, _. split; [reflexivity | discriminate].
    + eauto.
Qed.

Lemma Number_toString_finite_not_NULL (x : number) :
  Number_isFinite x = true -> Number_toString x <> "NULL".
Proof.
  intros H E. destruct (Number_toString_finite_head x H) as [c [r [E' Hc]]].
  rewrite E' in E. injection E as -> _. now apply Hc.
Qed.

(** The numeral of a row count below one thousand is its decimal numeral. *)
Lemma row_count_numeral_table :
  forallb (fun n => String.eqb (Number_toString (Number_ofNat n))
                               (decimal (Z.of_nat n)))
          (seq 0 (Z.to_nat 1000)) = true.
Proof. vm_compute. reflexivity. Qed.

Lemma row_count_numeral (n : nat) :
  (n < Z.to_nat 1000)%nat ->
  Number_toString (Number_ofNat n) = decimal (Z.of_nat n).
Proof.
  intros Hn. pose proof row_count_numeral_table as T.
  rewrite forallb_forall in T. apply String.eqb_eq, T, in_seq. lia.
Qed.

(** C10. An extra column in number mode whose value is empty or made of
    white space only is encoded as 0, since the number of such a string is
    +0, a finite number.  NULL is the encoding exactly when the value has a
    number that is not finite, as the text abc has. *)
Theorem number_mode_blank_is_zero
  (o : GeneratorOptions) (i name v : string) (inc : bool) :
  (whiteSpaceOnly v = true ->
   extraValueToSql (numberColumn i name inc v) o = Normal "0")
  /\ (extraValueToSql (numberColumn i name inc v) o = Normal "NULL"
      <-> Number_isFinite (StringToNumber v) = false)
  /\ StringToNumber EmptyString = S754_zero false
  /\ Number_isFinite (S754_zero false) = true
  /\ extraValueToSql (numberColumn i name inc "abc") o = Normal "NULL".
Proof.
  unfold extraValueToSql. simpl mode. simpl value.
  split; [|split; [|repeat split]].
  - intros H. now rewrite StringToNumber_blank.
  - destruct (Number_isFinite (StringToNumber v)) eqn:F.
    + split; [|discriminate]. intros E. injection E as E.
      now apply Number_toString_finite_not_NULL in E.
    + split; reflexivity.
Qed.

Lemma number_mode_blank_witness :
  extraValueToSql (numberColumn "c1" "qty" true "  ")
    (optionsWithTokens ["null"]) = Normal "0".
Proof.
  apply (number_mode_blank_is_zero
           (optionsWithTokens ["null"]) "c1" "qty" "  " true).
  reflexivity.
Defined.

(* ================================================================== *)
(** * Dates                                                           *)
(* ================================================================== *)

Lemma civilFromDays_ranges (days : Z) :
  (1 <= snd (fst (civilFromDays days)) <= 12
   /\ 1 <= snd (civilFromDays days) <= 31)%Z.
Proof.
  unfold civilFromDays. cbv zeta. cbn [fst snd].
  set (z := (days + 719468)%Z).
  set (era := (z / 146097)%Z).
  set (doe := (z - era * 146097)%Z).
  assert (Hdoe : (0 <= doe <= 146096)%Z).
  { subst doe era. pose proof (Z.div_mod z 146097 ltac:(lia)).
    pose proof (Z.mod_pos_bound z 146097 ltac:(lia)). lia. }
  clearbody doe. clear z era.
  set (yoe := ((doe - doe / 1460 + doe / 36524 - doe / 146096) / 365)%Z).
  set (doy := (doe - (365 * yoe + yoe / 4 - yoe / 100))%Z).
  assert (Hdoy : (0 <= doy <= 365)%Z).
  { subst doy yoe.
    assert (Hb : (doe / 36524 = 0 \/ doe / 36524 = 1 \/ doe / 36524 = 2
                  \/ doe / 36524 = 3 \/ doe / 36524 = 4)%Z)
      by (Z.div_mod_to_equations; lia).
    assert (Hc : (doe / 146096 = 0 \/ doe / 146096 = 1)%Z)
      by (Z.div_mod_to_equations; lia).
    set (yoe := ((doe - doe / 1460 + doe / 36524 - doe / 146096) / 365)%Z).
    assert (Hy : (0 <= yoe <= 399)%Z)
      by (subst yoe; Z.div_mod_to_equations; lia).
    assert (Hd : (yoe / 100 = 0 \/ yoe / 100 = 1 \/ yoe / 100 = 2
                  \/ yoe / 100 = 3)%Z)
      by (Z.div_mod_to_equations; lia).
    subst yoe.
    destruct Hc as [Hc|Hc]; destruct Hb as [Hb|[Hb|[Hb|[Hb|Hb]]]];
      destruct Hd as [Hd|[Hd|[Hd|Hd]]]; rewrite ?Hb, ?Hc, ?Hd in *;
      Z.div_mod_to_equations; lia. }
  clearbody doy.
  set (mp := ((5 * doy + 2) / 153)%Z).
  assert (Hmp : (0 <= mp <= 11)%Z) by (subst mp; Z.div_mod_to_equations; lia).
  split.
  - destruct (mp <? 10)%Z eqn:E;
      [apply Z.ltb_lt in E | apply Z.ltb_ge in E]; lia.
  - subst mp. Z.div_mod_to_equations; lia.
Qed.

Lemma length_append (a b : string) :
  String.length (a ++ b) = (String.length a + String.length b)%nat.
Proof. induction a as [|c a IH]; simpl; congruence. Qed.

Lemma fixedDigits_length (w : nat) (n : Z) :
  String.length (fixedDigits w n) = w.
Proof.
  revert n. induction w as [|w IH]; intros n; [reflexivity|].
  cbn [fixedDigits]. rewrite length_append, IH. simpl. lia.
Qed.

Lemma zeros_snoc (j : nat) : zeros j ++ "0" = String "0" (zeros j).
Proof. induction j as [|j IH]; simpl; congruence. Qed.

Lemma fixedDigits_zero (j : nat) : fixedDigits j 0 = zeros j.
Proof.
  induction j as [|j IH]; [reflexivity|].
  cbn [fixedDigits]. change (0 / 10)%Z with 0%Z. rewrite IH.
  change (String (digitChar (0 mod 10)) EmptyString) with "0".
  apply zeros_snoc.
Qed.

(** A numeral of fixed width is the shorter one that holds the number, with
    zeros before it. *)
Lemma fixedDigits_pad (w j : nat) (n : Z) :
  (0 <= n < 10 ^ Z.of_nat w)%Z ->
  fixedDigits (j + w) n = zeros j ++ fixedDigits w n.
Proof.
  revert n. induction w as [|w IH]; intros n Hn.
  - assert (n = 0%Z) by (simpl in Hn; lia). subst n.
    rewrite Nat.add_0_r, fixedDigits_zero. simpl.
    now rewrite append_empty_r.
  - rewrite Nat.add_succ_r. cbn [fixedDigits].
    rewrite IH, append_assoc; [reflexivity|].
    rewrite Nat2Z.inj_succ, Z.pow_succ_r in Hn by lia.
    split; [apply Z.div_pos; lia | apply Z.div_lt_upper_bound; lia].
Qed.

(** With enough fuel, [decimalDigits] writes the numeral of the width the
    number has. *)
Lemma decimalDigits_fixedDigits (fuel : nat) (n : Z) (acc : string) :
  (0 <= n < 10 ^ Z.of_nat fuel)%Z -> (1 <= fuel)%nat ->
  exists w, (1 <= w <= fuel)%nat
            /\ (n < 10 ^ Z.of_nat w)%Z
            /\ (w = 1%nat \/ 10 ^ (Z.of_nat w - 1) <= n)%Z
            /\ decimalDigits fuel n acc = fixedDigits w n ++ acc.
Proof.
  revert n acc. induction fuel as [|fuel IH]; intros n acc Hn Hf; [lia|].
  cbn [decimalDigits].
  destruct (Z.ltb_spec n 10) as [Hlt|Hge].
  - exists 1%nat. repeat split; try lia.
  - rewrite Nat2Z.inj_succ, Z.pow_succ_r in Hn by lia.
    assert (Hq : (0 <= n / 10 < 10 ^ Z.of_nat fuel)%Z).
    { split; [apply Z.div_pos; lia | apply Z.div_lt_upper_bound; lia]. }
    assert (Hfuel : (1 <= fuel)%nat).
    { destruct fuel; [simpl in Hn; lia | lia]. }
    destruct (IH (n / 10)%Z (String (digitChar (n mod 10)) acc) Hq Hfuel)
      as [w [Hw [Hu [Hb E]]]].
    exists (S w). repeat split; try lia.
    + rewrite Nat2Z.inj_succ, Z.pow_succ_r by lia.
      pose proof (Z.div_mod n 10 ltac:(lia)).
      pose proof (Z.mod_pos_bound n 10 ltac:(lia)). lia.
    + right. replace (Z.of_nat (S w) - 1)%Z with (Z.succ (Z.of_nat w - 1))
        by lia.
      rewrite Z.pow_succ_r by lia.
      pose proof (Z.div_mod n 10 ltac:(lia)).
      pose proof (Z.mod_pos_bound n 10 ltac:(lia)).
      destruct Hb as [->|Hb]; [simpl; lia | lia].
    + rewrite E. cbn [fixedDigits]. rewrite append_assoc. reflexivity.
Qed.

Lemma padStart_fixedDigits (width : nat) (n : Z) :
  (1 <= width)%nat -> (0 <= n < 10 ^ Z.of_nat width)%Z ->
  padStart width n = fixedDigits width n.
Proof.
  intros Hwidth Hn. unfold padStart, decimal.
  assert (Hfuel : (n < 10 ^ Z.of_nat (S (Z.to_nat (Z.log2 n))))%Z).
  { rewrite Nat2Z.inj_succ, Z2Nat.id by apply Z.log2_nonneg.
    destruct (Z.eq_dec n 0) as [->|Hnz]; [simpl; lia|].
    destruct (Z.log2_spec n ltac:(lia)) as [_ Hu].
    eapply Z.lt_le_trans; [exact Hu|].
    apply Z.pow_le_mono_l. lia. }
  destruct (decimalDigits_fixedDigits (S (Z.to_nat (Z.log2 n))) n EmptyString
              ltac:(lia) ltac:(lia)) as [w [Hw [Hnw [Hb E]]]].
  rewrite E, append_empty_r, fixedDigits_length.
  assert (Hle : (w <= width)%nat).
  { destruct Hb as [->|Hb]; [lia|].
    assert (Z.of_nat w - 1 < Z.of_nat width)%Z
      by (apply (Z.pow_lt_mono_r_iff 10); lia).
    lia. }
  replace width with ((width - w) + w)%nat at 2 by lia.
  rewrite fixedDigits_pad by lia. reflexivity.
Qed.

Lemma padStart_four_digits (n : Z) :
  (0 <= n <= 9999)%Z -> padStart 4 n = fixedDigits 4 n.
Proof.
  intros H. apply padStart_fixedDigits; [lia|].
  change (10 ^ Z.of_nat 4)%Z with 10000%Z. lia.
Qed.

Lemma padStart_two_digits (n : Z) :
  (0 <= n <= 99)%Z -> padStart 2 n = fixedDigits 2 n.
Proof.
  intros H. apply padStart_fixedDigits; [lia|].
  change (10 ^ Z.of_nat 2)%Z with 100%Z. lia.
Qed.

Lemma digitChar_not_T (k : Z) : Ascii.eqb (digitChar (k mod 10)) "T" = false.
Proof.
  pose proof (digitChar_cases k) as H. simpl in H.
  repeat (destruct H as [H|H]; [rewrite <- H; reflexivity|]).
  contradiction.
Qed.

(** The first nineteen code units of an ISO date with a four-digit year,
    the T replaced by a space. *)
Lemma iso_prefix (y mo d h mi s ms : Z) :
  sliceTo 19
    (replaceFirst
       (fixedDigits 4 y ++ "-" ++ fixedDigits 2 mo ++ "-" ++ fixedDigits 2 d
        ++ "T" ++ fixedDigits 2 h ++ ":" ++ fixedDigits 2 mi
        ++ ":" ++ fixedDigits 2 s ++ "." ++ padStart 3 ms ++ "Z")
       "T" " ")
  = fixedDigits 4 y ++ "-" ++ fixedDigits 2 mo ++ "-" ++ fixedDigits 2 d
    ++ " " ++ fixedDigits 2 h ++ ":" ++ fixedDigits 2 mi
    ++ ":" ++ fixedDigits 2 s.
Proof.
  cbn [fixedDigits append replaceFirst].
  rewrite !digitChar_not_T.
  reflexivity.
Qed.

Lemma toSqlLiteral_date (t : Z) (o : GeneratorOptions) :
  (0 <= YearFromTime t <= 9999)%Z ->
  toSqlLiteral (CDate (DateAt t)) o = Normal (sqlTimestamp t).
Proof.
  intros Hy. unfold toSqlLiteral, toISOString, bind, isoYear.
  replace ((0 <=? YearFromTime t) && (YearFromTime t <=? 9999))%Z with true
    by (symmetry; apply andb_true_iff; split; apply Z.leb_le; lia).
  destruct (civilFromDays_ranges (t / msPerDay)) as [Hm Hd].
  fold (MonthFromTime t) in Hm. fold (DateFromTime t) in Hd.
  pose proof (Z.mod_pos_bound (t / 3600000) 24 ltac:(lia)) as Hh.
  pose proof (Z.mod_pos_bound (t / 60000) 60 ltac:(lia)) as Hmi.
  pose proof (Z.mod_pos_bound (t / 1000) 60 ltac:(lia)) as Hs.
  fold (HourFromTime t) in Hh. fold (MinFromTime t) in Hmi.
  fold (SecFromTime t) in Hs.
  rewrite (padStart_four_digits (YearFromTime t)) by lia.
  rewrite (padStart_two_digits (MonthFromTime t)) by lia.
  rewrite (padStart_two_digits (DateFromTime t)) by lia.
  rewrite (padStart_two_digits (HourFromTime t)) by lia.
  rewrite (padStart_two_digits (MinFromTime t)) by lia.
  rewrite (padStart_two_digits (SecFromTime t)) by lia.
  rewrite iso_prefix. unfold sqlTimestamp.
  cbn [fixedDigits append]. reflexivity.
Qed.

(* ================================================================== *)
(** * The Literal Encoder                                             *)
(* ================================================================== *)

(** C1, as stated, fails.  The rules it lists send every value that is not
    null, a date or a number to the rule for strings, but the encoder has a
    rule of its own for booleans: true is encoded as TRUE, not as 'true'.
    The rule for dates also fails outside the years 0 to 9999, where the ISO
    format has a sign and six digits for the year, and on the invalid date,
    where [toISOString] throws. *)
Lemma listed_literal_rules_fail :
  ~ encodesAsListed (optionsWithTokens ["null"]) (CBoolean true)
      (toSqlLiteral (CBoolean true) (optionsWithTokens ["null"]))
  /\ toSqlLiteral (CBoolean true) (optionsWithTokens ["null"]) = Normal "TRUE"
  /\ ~ encodesAsListed (optionsWithTokens ["null"])
         (CDate (DateAt 253402300800000))
         (toSqlLiteral (CDate (DateAt 253402300800000))
            (optionsWithTokens ["null"]))
  /\ toSqlLiteral (CDate (DateAt 253402300800000)) (optionsWithTokens ["null"])
     = Normal "'+010000-01-01 00:00'"
  /\ ~ encodesAsListed (optionsWithTokens ["null"]) (CDate InvalidDate)
         (toSqlLiteral (CDate InvalidDate) (optionsWithTokens ["null"])).
Proof.
  repeat split.
  - intros H. vm_compute in H. discriminate H.
  - intros H. vm_compute in H. discriminate H.
  - intros [s H]. vm_compute in H. discriminate H.
Qed.

(** C1, amended.  The Literal Encoder applies its rules in this order: null
    and undefined give NULL; a valid date with a UTC year from 0 to 9999
    gives the quoted literal 'YYYY-MM-DD HH:MM:SS' of its UTC fields, the
    milliseconds dropped; a finite number gives its decimal string and any
    other number NULL; a boolean gives TRUE or FALSE under postgresql and 1
    or 0 under the other dialects; a string is trimmed if and only if
    [trimStrings] is set, gives NULL if the result is empty and
    [emptyStringAsNull] is set, gives NULL if the lower-cased result is one
    of the null tokens, and otherwise gives the result in single quotes with
    every single quote inside doubled, as O'Brien gives 'O''Brien'. *)
Theorem toSqlLiteral_rules (o : GeneratorOptions) (cell : Cell) :
  fourDigitYear cell = true ->
  encodes o cell (toSqlLiteral cell o)
  /\ toSqlLiteral (CString "O'Brien") (optionsWithTokens ["null"])
     = Normal "'O''Brien'".
Proof.
  intros Hd. split; [|reflexivity].
  destruct cell as [| |[|t]|n|b|s]; unfold encodes.
  - reflexivity.
  - reflexivity.
  - exact I.
  - apply toSqlLiteral_date. simpl in Hd.
    apply andb_true_iff in Hd as [H1 H2].
    apply Z.leb_le in H1. apply Z.leb_le in H2. lia.
  - reflexivity.
  - simpl. now rewrite booleanLiteral_booleanSql.
  - apply toSqlLiteral_string.
Qed.

Lemma toSqlLiteral_rules_witness :
  encodes (optionsWithTokens ["null"]) (CDate (DateAt 1700000000123))
    (toSqlLiteral (CDate (DateAt 1700000000123)) (optionsWithTokens ["null"]))
  /\ toSqlLiteral (CString "O'Brien") (optionsWithTokens ["null"])
     = Normal "'O''Brien'".
Proof.
  apply (toSqlLiteral_rules (optionsWithTokens ["null"])
           (CDate (DateAt 1700000000123))).
  vm_compute. reflexivity.
Defined.

(* ================================================================== *)
(** * The Statement Builder                                           *)
(* ================================================================== *)

Lemma filter_ext_bool {A : Type} (f g : A -> bool) (l : list A) :
  (forall x, f x = g x) -> filter f l = filter g l.
Proof.
  intros H. induction l as [|x l IH]; simpl; [reflexivity|].
  now rewrite H, IH.
Qed.

Lemma filter_nil_existsb {A : Type} (f : A -> bool) (l : list A) :
  (length (filter f l) =? 0)%nat = negb (existsb f l).
Proof.
  induction l as [|x l IH]; simpl; [reflexivity|].
  destruct (f x); simpl; [reflexivity | exact IH].
Qed.

Lemma includedColumns_usable (columns : list ColumnConfig) :
  includedColumns columns = filter usableColumn columns.
Proof.
  apply filter_ext_bool. intros c. unfold usableColumn.
  now rewrite length_pos_isEmpty, normalizeIdentifier_words.
Qed.

Lemma includedExtraColumns_usable (extraColumns : list ExtraColumnConfig) :
  includedExtraColumns extraColumns = filter usableExtra extraColumns.
Proof.
  apply filter_ext_bool. intros c. unfold usableExtra.
  now rewrite length_pos_isEmpty, normalizeIdentifier_words.
Qed.

Lemma whiteSpaceOnly_trim (s : string) :
  whiteSpaceOnly s = String.eqb (trim s) EmptyString.
Proof.
  destruct (whiteSpaceOnly s) eqn:E.
  - rewrite trim_whiteSpaceOnly by exact E. reflexivity.
  - destruct (String.eqb (trim s) EmptyString) eqn:F; [|reflexivity].
    apply String.eqb_eq, trim_empty_whiteSpaceOnly in F. congruence.
Qed.

Lemma cellHasContent_blankCell (cell : Cell) :
  cellHasContent cell = negb (blankCell cell).
Proof.
  destruct cell; simpl; try reflexivity; now rewrite whiteSpaceOnly_trim.
Qed.

Lemma existsb_negb_forallb {A : Type} (f g : A -> bool) (l : list A) :
  (forall x, f x = negb (g x)) -> existsb f l = negb (forallb g l).
Proof.
  intros H. induction l as [|x l IH]; simpl; [reflexivity|].
  rewrite H, IH. now destruct (g x), (forallb g l).
Qed.

Lemma filteredRows_surviving (rows : list Row) :
  filteredRows rows = survivingRows rows.
Proof.
  apply filter_ext_bool. intros row.
  apply existsb_negb_forallb, cellHasContent_blankCell.
Qed.

Lemma survivingRows_none (rows : list Row) :
  (length (survivingRows rows) =? 0)%nat = forallb blankRow rows.
Proof.
  unfold survivingRows. rewrite filter_nil_existsb.
  rewrite (existsb_negb_forallb _ blankRow) by reflexivity.
  apply negb_involutive.
Qed.

(** C2. When the table name normalizes to the empty string, or no column,
    mapped or extra, is both included and of a target name that normalizes
    to a non-empty one, or no row survives the filter of blank rows,
    [buildInsertScript] returns the empty string: it returns, and does not
    throw. *)
Theorem degenerate_input_gives_empty_script
  (rows : list Row) (columns : list ColumnConfig)
  (extraColumns : list ExtraColumnConfig) (o : GeneratorOptions) :
  degenerate rows columns extraColumns o = true ->
  buildInsertScript rows columns extraColumns o = Some (Normal EmptyString).
Proof.
  unfold degenerate, buildInsertScript. intros H.
  rewrite normalizeIdentifier_words.
  destruct (isEmpty (normalized (tableName o))); [reflexivity|].
  rewrite includedColumns_usable, includedExtraColumns_usable.
  rewrite !filter_nil_existsb.
  destruct (negb (existsb usableColumn columns)
            && negb (existsb usableExtra extraColumns)); [reflexivity|].
  rewrite filteredRows_surviving, survivingRows_none.
  simpl in H. now rewrite H.
Qed.

Lemma degenerate_input_witness :
  buildInsertScript [[CNull; CString "  "]; []] exampleColumns []
    (exampleOptions mysql (Number_ofZ 250))
  = Some (Normal EmptyString).
Proof.
  apply (degenerate_input_gives_empty_script
           [[CNull; CString "  "]; []] exampleColumns []
           (exampleOptions mysql (Number_ofZ 250))).
  reflexivity.
Defined.


(** What [buildInsertScript] has computed when it returns a string that is
    not empty. *)
Lemma buildInsertScript_returns
  (rows : list Row) (columns : list ColumnConfig)
  (extraColumns : list ExtraColumnConfig) (o : GeneratorOptions)
  (out : string) :
  buildInsertScript rows columns extraColumns o = Some (Normal out) ->
  out <> EmptyString ->
  exists tuples chunks,
    rowValues columns extraColumns o rows = Normal tuples
    /\ chunkArray tuples (batchSize o) = Some chunks
    /\ out = script o (length (filteredRows rows))
               (map (statement columns extraColumns o
                       (normalizeIdentifier (tableName o))) chunks).
Proof.
  unfold buildInsertScript, batchSize. intros H Hne.
  destruct (isEmpty _); [injection H as <-; congruence|].
  destruct (_ && _)%bool; [injection H as <-; congruence|].
  destruct (_ =? 0)%nat; [injection H as <-; congruence|].
  destruct (rowValues columns extraColumns o rows) as [tuples|e] eqn:Er;
    [|discriminate].
  destruct (chunkArray tuples _) as [chunks|] eqn:Ec; [|discriminate].
  injection H as <-. exists tuples, chunks.
  split; [reflexivity|]. split; [exact Ec | reflexivity].
Qed.

Lemma script_header (o : GeneratorOptions) (n : nat) (statements : list string) :
  script o n statements
  = header o n ++ LF ++ LF ++ join (LF ++ LF) statements.
Proof.
  unfold script, header. cbn [join].
  rewrite !append_assoc. reflexivity.
Qed.



(* ================================================================== *)
(** * The layout of a script                                          *)
(* ================================================================== *)

Lemma afterFirstLine_append (line rest : string) :
  occurs (ascii_of_nat 10) line = false ->
  afterFirstLine (line ++ LF ++ rest) = rest.
Proof.
  induction line as [|c line IH]; intros H.
  - reflexivity.
  - cbn [occurs] in H. apply orb_false_iff in H as [Hc Hl].
    cbn [append afterFirstLine]. rewrite Hc. apply IH, Hl.
Qed.

(** C3, as stated, fails: the script of the example is not made of a header
    of two lines, a blank line and the statements.  Its header has three
    lines, so the third line is the row count and not a blank line. *)
Lemma script_header_has_three_lines :
  buildInsertScript exampleRows exampleColumns []
    (exampleOptions sqlite (Number_ofZ 1)) = Some (Normal exampleScript)
  /\ exampleScript <> EmptyString
  /\ ~ twoLineHeaderLayout exampleScript.
Proof.
  split; [vm_compute; reflexivity|]. split; [discriminate|].
  intros [line1 [line2 [statements [H1 [H2 E]]]]].
  apply (f_equal afterFirstLine) in E.
  rewrite afterFirstLine_append in E by exact H1.
  apply (f_equal afterFirstLine) in E.
  rewrite afterFirstLine_append in E by exact H2.
  vm_compute in E. discriminate E.
Qed.

(** C3, amended.  A script that is returned and not empty is a header of
    three comment lines, namely a fixed line naming the generator, a line
    with the name of the dialect and a line with the number of surviving
    rows, then a blank line, then the INSERT statements, one for each batch
    of tuples, with a blank line between two of them. *)
Theorem script_layout
  (rows : list Row) (columns : list ColumnConfig)
  (extraColumns : list ExtraColumnConfig) (o : GeneratorOptions)
  (out : string) :
  buildInsertScript rows columns extraColumns o = Some (Normal out) ->
  out <> EmptyString ->
  exists tuples batches,
    rowValues columns extraColumns o rows = Normal tuples
    /\ chunkArray tuples (batchSize o) = Some batches
    /\ out = "-- Generated by RedCoconut SQL Builder" ++ LF
             ++ "-- Dialect: " ++ dialectString (dialect o) ++ LF
             ++ "-- Rows: "
             ++ Number_toString (Number_ofNat (length (survivingRows rows)))
             ++ LF ++ LF
             ++ join (LF ++ LF)
                  (map (statement columns extraColumns o
                          (normalizeIdentifier (tableName o))) batches).
Proof.
  intros H Hne.
  destruct (buildInsertScript_returns _ _ _ _ _ H Hne)
    as [tuples [chunks [Ht [Hc Hout]]]].
  exists tuples, chunks. split; [exact Ht|]. split; [exact Hc|].
  rewrite Hout, script_header, filteredRows_surviving. unfold header.
  rewrite !append_assoc. reflexivity.
Qed.

Lemma script_layout_witness :
  exists tuples batches,
    rowValues exampleColumns [] (exampleOptions sqlite (Number_ofZ 1))
      exampleRows = Normal tuples
    /\ chunkArray tuples (batchSize (exampleOptions sqlite (Number_ofZ 1)))
       = Some batches
    /\ exampleScript
       = "-- Generated by RedCoconut SQL Builder" ++ LF
         ++ "-- Dialect: " ++ "sqlite" ++ LF
         ++ "-- Rows: "
         ++ Number_toString (Number_ofNat (length (survivingRows exampleRows)))
         ++ LF ++ LF
         ++ join (LF ++ LF)
              (map (statement exampleColumns []
                      (exampleOptions sqlite (Number_ofZ 1))
                      (normalizeIdentifier "t")) batches).
Proof.
  apply (script_layout exampleRows exampleColumns []
           (exampleOptions sqlite (Number_ofZ 1)) exampleScript).
  - vm_compute. reflexivity.
  - discriminate.
Defined.

(* ================================================================== *)
(** * The column list                                                 *)
(* ================================================================== *)





(* ================================================================== *)
(** * Integers as binary64 numbers                                    *)
(* ================================================================== *)

(** Below 2^53 the arithmetic of the loop of [chunkArray] is exact: the
    number of an integer is its canonical binary64 form, and [+], [<] and
    ToIntegerOrInfinity agree with the integers. *)

Local Open Scope Z_scope.

Lemma digits2_size (n : positive) : digits2_pos n = Pos.size n.
Proof. induction n; simpl; congruence. Qed.

Lemma digits_bounds (n : positive) :
  2 ^ (Zpos (digits2_pos n) - 1) <= Zpos n < 2 ^ Zpos (digits2_pos n).
Proof.
  rewrite digits2_size.
  pose proof (Pos.size_gt n) as G. pose proof (Pos.size_le n) as L.
  apply Pos2Z.pos_lt_pos in G. apply Pos2Z.pos_le_pos in L.
  rewrite Pos2Z.inj_pow in G, L. change (Zpos n~0) with (2 * Zpos n) in L.
  split; [|exact G].
  replace (Zpos (Pos.size n)) with (Z.succ (Zpos (Pos.size n) - 1)) in L by lia.
  rewrite Z.pow_succ_r in L by lia. lia.
Qed.

Lemma digits_unique (n : positive) (d : Z) :
  2 ^ (d - 1) <= Zpos n < 2 ^ d -> Zpos (digits2_pos n) = d.
Proof.
  intros [Hl Hu]. destruct (digits_bounds n) as [Bl Bu].
  assert (Hd : 0 < d).
  { destruct (Z.ltb_spec 0 d) as [|Hneg]; [assumption|].
    assert (2 ^ d <= 1).
    { destruct (Z.eq_dec d 0) as [->|]; [simpl; lia|].
      rewrite Z.pow_neg_r by lia. lia. }
    lia. }
  assert (d - 1 < Zpos (digits2_pos n)).
  { apply (Z.pow_lt_mono_r_iff 2); lia. }
  assert (Zpos (digits2_pos n) - 1 < d).
  { apply (Z.pow_lt_mono_r_iff 2); lia. }
  lia.
Qed.

Lemma Zpos_iter_xO (m p : positive) :
  Zpos (Pos.iter xO m p) = Zpos m * 2 ^ Zpos p.
Proof.
  change (Pos.iter xO m p) with (shift_pos p m).
  rewrite shift_pos_correct. apply Z.mul_comm.
Qed.

Lemma iter_pos_nat {A : Type} (f : A -> A) (p : positive) (x : A) :
  iter_pos f p x = Nat.iter (Pos.to_nat p) f x.
Proof.
  revert x. induction p as [p IH|p IH|]; intros x; cbn [iter_pos].
  - rewrite !IH, Pos2Nat.inj_xI.
    replace (S (2 * Pos.to_nat p))%nat
      with (Pos.to_nat p + (Pos.to_nat p + 1))%nat by lia.
    rewrite !Nat.iter_add. reflexivity.
  - rewrite !IH, Pos2Nat.inj_xO.
    replace (2 * Pos.to_nat p)%nat
      with (Pos.to_nat p + Pos.to_nat p)%nat by lia.
    rewrite Nat.iter_add. reflexivity.
  - reflexivity.
Qed.

Lemma shr_exact_nat (k : nat) (m : positive) :
  Nat.iter k shr_1
    {| shr_m := Zpos (Nat.iter k xO m); shr_r := false; shr_s := false |}
  = {| shr_m := Zpos m; shr_r := false; shr_s := false |}.
Proof.
  induction k as [|k IH]; [reflexivity|].
  rewrite Nat.iter_succ_r. simpl. exact IH.
Qed.

Lemma shr_exact (p m : positive) :
  iter_pos shr_1 p
    {| shr_m := Zpos (Pos.iter xO m p); shr_r := false; shr_s := false |}
  = {| shr_m := Zpos m; shr_r := false; shr_s := false |}.
Proof.
  rewrite iter_pos_nat, Pos2Nat.inj_iter.
  change (nat_rect (fun _ => positive) m (fun _ => xO) (Pos.to_nat p))
    with (Nat.iter (Pos.to_nat p) xO m).
  apply shr_exact_nat.
Qed.

Lemma round_aux_canonical (s : bool) (m : positive) (e : Z) :
  Zpos (digits2_pos m) = 53 -> -1074 <= e <= 971 ->
  binary_round_aux prec emax s (Zpos m) e loc_Exact = S754_finite s m e.
Proof.
  intros Hd He. unfold binary_round_aux, shr_fexp, Zdigits2.
  rewrite Hd. unfold fexp, emin, prec, emax.
  replace (Z.max (53 + e - 53) (3 - 1024 - 53) - e) with 0 by lia.
  cbn [shr shr_record_of_loc shr_m loc_of_shr_record shr_r shr_s
       round_nearest_even Zdigits2].
  rewrite Hd.
  replace (Z.max (53 + e - 53) (3 - 1024 - 53) - e) with 0 by lia.
  cbn [shr shr_m].
  replace (e <=? 1024 - 53) with true by (symmetry; apply Z.leb_le; lia).
  reflexivity.
Qed.

Lemma round_aux_shift (s : bool) (m p : positive) (e : Z) :
  Zpos (digits2_pos m) = 53 -> -1074 <= e + Zpos p <= 971 ->
  binary_round_aux prec emax s (Zpos (Pos.iter xO m p)) e loc_Exact
  = S754_finite s m (e + Zpos p).
Proof.
  intros Hd He.
  assert (HD : Zpos (digits2_pos (Pos.iter xO m p)) = 53 + Zpos p).
  { apply digits_unique. rewrite Zpos_iter_xO.
    destruct (digits_bounds m) as [Bl Bu]. rewrite Hd in Bl, Bu.
    replace (53 + Zpos p - 1) with (52 + Zpos p) by lia.
    rewrite !Z.pow_add_r by lia.
    change (53 - 1) with 52 in Bl. nia. }
  unfold binary_round_aux, shr_fexp, Zdigits2.
  rewrite HD. unfold fexp, emin, prec, emax.
  replace (Z.max (53 + Zpos p + e - 53) (3 - 1024 - 53) - e) with (Zpos p)
    by lia.
  cbn [shr shr_record_of_loc]. rewrite shr_exact.
  cbn [shr_m loc_of_shr_record shr_r shr_s round_nearest_even Zdigits2].
  rewrite Hd.
  replace (Z.max (53 + (e + Zpos p) - 53) (3 - 1024 - 53) - (e + Zpos p))
    with 0 by lia.
  cbn [shr shr_m].
  replace (e + Zpos p <=? 1024 - 53) with true
    by (symmetry; apply Z.leb_le; lia).
  reflexivity.
Qed.

Lemma canon_mantissa (n : positive) :
  Zpos (digits2_pos n) <= 53 ->
  let m := Z.to_pos (Zpos n * 2 ^ (53 - Zpos (digits2_pos n))) in
  Zpos m = Zpos n * 2 ^ (53 - Zpos (digits2_pos n))
  /\ Zpos (digits2_pos m) = 53.
Proof.
  intros Hd m.
  assert (Hp : 0 < 2 ^ (53 - Zpos (digits2_pos n)))
    by (apply Z.pow_pos_nonneg; lia).
  assert (Hm : Zpos m = Zpos n * 2 ^ (53 - Zpos (digits2_pos n)))
    by (subst m; rewrite Z2Pos.id; nia).
  split; [exact Hm|].
  apply digits_unique. rewrite Hm.
  destruct (digits_bounds n) as [Bl Bu].
  replace (2 ^ (53 - 1)) with
    (2 ^ (Zpos (digits2_pos n) - 1) * 2 ^ (53 - Zpos (digits2_pos n))).
  2:{ rewrite <- Z.pow_add_r by lia. f_equal. lia. }
  replace (2 ^ 53) with
    (2 ^ Zpos (digits2_pos n) * 2 ^ (53 - Zpos (digits2_pos n))).
  2:{ rewrite <- Z.pow_add_r by lia. f_equal. lia. }
  nia.
Qed.

Lemma binary_round_exact (s : bool) (M n : positive) (e : Z) :
  Zpos M = Zpos n * 2 ^ (- e) -> e <= 0 ->
  Zpos (digits2_pos n) <= 53 ->
  binary_round prec emax s M e = canon s n.
Proof.
  intros HM He Hd.
  destruct (canon_mantissa n Hd) as [Hm Hdm].
  set (m := Z.to_pos (Zpos n * 2 ^ (53 - Zpos (digits2_pos n)))) in *.
  set (dn := Zpos (digits2_pos n)) in *.
  assert (Hdn : 1 <= dn) by (subst dn; lia).
  assert (HD : Zpos (digits2_pos M) = dn - e).
  { apply digits_unique. rewrite HM.
    destruct (digits_bounds n) as [Bl Bu]. fold dn in Bl, Bu.
    replace (dn - e - 1) with ((dn - 1) + (- e)) by lia.
    replace (dn - e) with (dn + (- e)) by lia.
    rewrite !Z.pow_add_r by lia.
    assert (0 < 2 ^ (- e)) by (apply Z.pow_pos_nonneg; lia). nia. }
  unfold binary_round, canon. fold dn. fold m.
  rewrite HD. unfold fexp, emin, prec, emax.
  replace (Z.max (dn - e + e - 53) (3 - 1024 - 53)) with (dn - 53) by lia.
  unfold shl_align.
  destruct (dn - 53 - e) as [|p|q] eqn:Hsh.
  - assert (M = m).
    { apply Pos2Z.inj. rewrite HM, Hm. f_equal. f_equal. lia. }
    subst M. replace e with (dn - 53) by lia.
    apply round_aux_canonical; [exact Hdm | lia].
  - assert (M = Pos.iter xO m p).
    { apply Pos2Z.inj. rewrite Zpos_iter_xO, HM, Hm.
      rewrite <- Z.mul_assoc, <- Z.pow_add_r by lia. f_equal. f_equal. lia. }
    subst M. replace (dn - 53) with (e + Zpos p) by lia.
    apply round_aux_shift; [exact Hdm | lia].
  - assert (Pos.iter xO M q = m).
    { apply Pos2Z.inj. rewrite Zpos_iter_xO, HM, Hm.
      rewrite <- Z.mul_assoc, <- Z.pow_add_r by lia. f_equal. f_equal. lia. }
    rewrite H. apply round_aux_canonical; [exact Hdm | lia].
Qed.

Lemma Number_ofZ_pos (n : positive) :
  Zpos (digits2_pos n) <= 53 -> Number_ofZ (Zpos n) = canon false n.
Proof.
  intros Hd. unfold Number_ofZ, binary_normalize.
  apply binary_round_exact; [simpl; lia | lia | exact Hd].
Qed.

Lemma Number_ofZ_neg (n : positive) :
  Zpos (digits2_pos n) <= 53 -> Number_ofZ (Zneg n) = canon true n.
Proof.
  intros Hd. unfold Number_ofZ, binary_normalize.
  apply binary_round_exact; [simpl; lia | lia | exact Hd].
Qed.

Lemma digits_le_53 (n : positive) :
  Zpos n < 2 ^ 53 <-> Zpos (digits2_pos n) <= 53.
Proof.
  destruct (digits_bounds n) as [Bl Bu]. split; intros H.
  - assert (Zpos (digits2_pos n) - 1 < 53)
      by (apply (Z.pow_lt_mono_r_iff 2); lia). lia.
  - eapply Z.lt_le_trans; [exact Bu|].
    apply Z.pow_le_mono_r; lia.
Qed.

Lemma shl_align_value (m : positive) (e ez : Z) :
  ez <= e -> Zpos (fst (shl_align m e ez)) = Zpos m * 2 ^ (e - ez).
Proof.
  intros H. unfold shl_align.
  destruct (ez - e) as [|p|q] eqn:Hsh; cbn [fst].
  - replace (e - ez) with 0 by lia. simpl. lia.
  - lia.
  - rewrite Zpos_iter_xO. f_equal. f_equal. lia.
Qed.

Lemma canon_scaled (n : positive) (ez : Z) :
  Zpos (digits2_pos n) <= 53 -> ez <= Zpos (digits2_pos n) - 53 ->
  Zpos (Z.to_pos (Zpos n * 2 ^ (53 - Zpos (digits2_pos n))))
  * 2 ^ (Zpos (digits2_pos n) - 53 - ez)
  = Zpos n * 2 ^ (- ez).
Proof.
  intros Hd He. destruct (canon_mantissa n Hd) as [Hm _]. rewrite Hm.
  rewrite <- Z.mul_assoc, <- Z.pow_add_r by lia. f_equal. f_equal. lia.
Qed.

Lemma Number_add_canon (a b : positive) :
  Zpos a + Zpos b < 2 ^ 53 ->
  Number_add (canon false a) (canon false b) = canon false (a + b).
Proof.
  intros H.
  assert (Ha : Zpos (digits2_pos a) <= 53) by (apply digits_le_53; lia).
  assert (Hb : Zpos (digits2_pos b) <= 53) by (apply digits_le_53; lia).
  assert (Hab : Zpos (digits2_pos (a + b)) <= 53)
    by (apply digits_le_53; lia).
  unfold Number_add, SFadd, canon. cbn [cond_Zopp].
  set (ez := Z.min (Zpos (digits2_pos a) - 53) (Zpos (digits2_pos b) - 53)).
  cbn [Z.add binary_normalize]. 
  apply binary_round_exact; [|lia|exact Hab].
  rewrite Pos2Z.inj_add, !shl_align_value by lia.
  rewrite !canon_scaled by lia. lia.
Qed.

Lemma Number_ofZ_nonneg_cases (x : Z) :
  0 <= x < 2 ^ 53 ->
  (x = 0 /\ Number_ofZ x = S754_zero false)
  \/ (exists n, x = Zpos n /\ Zpos (digits2_pos n) <= 53
                /\ Number_ofZ x = canon false n).
Proof.
  intros H. destruct x as [|n|n]; [left; auto | right | lia].
  assert (Hd : Zpos (digits2_pos n) <= 53) by (apply digits_le_53; lia).
  exists n. repeat split; [exact Hd | now apply Number_ofZ_pos].
Qed.

(** Splits on a non-negative integer below 2^53 being zero or positive,
    with the number it has in either case. *)
Ltac number_cases x a Ha Ex :=
  destruct (Number_ofZ_nonneg_cases x ltac:(lia)) as [[-> Ex]|[a [-> [Ha Ex]]]].

Lemma Number_add_ofZ (x y : Z) :
  0 <= x -> 0 <= y -> x + y < 2 ^ 53 ->
  Number_add (Number_ofZ x) (Number_ofZ y) = Number_ofZ (x + y).
Proof.
  intros Hx Hy H.
  number_cases x a Ha Ex; number_cases y b Hb Ey.
  - reflexivity.
  - rewrite Ex. simpl Z.add. rewrite Ey. reflexivity.
  - rewrite Ey. rewrite Z.add_0_r, Ex. reflexivity.
  - rewrite Ex, Ey, Number_add_canon by lia.
    change (Zpos a + Zpos b) with (Zpos (a + b)).
    symmetry. apply Number_ofZ_pos, digits_le_53. lia.
Qed.

Lemma canon_compare (a b : positive) :
  Zpos (digits2_pos a) <= 53 -> Zpos (digits2_pos b) <= 53 ->
  SFcompare (canon false a) (canon false b) = Some (Zpos a ?= Zpos b).
Proof.
  intros Ha Hb. unfold canon, SFcompare.
  destruct (canon_mantissa a Ha) as [Hma _].
  destruct (canon_mantissa b Hb) as [Hmb _].
  cbv zeta in Hma, Hmb.
  remember (Z.to_pos (Zpos a * 2 ^ (53 - Zpos (digits2_pos a)))) as ma eqn:Ea.
  remember (Z.to_pos (Zpos b * 2 ^ (53 - Zpos (digits2_pos b)))) as mb eqn:Eb.
  clear Ea Eb.
  destruct (digits_bounds a) as [Al Au]. destruct (digits_bounds b) as [Bl Bu].
  remember (Zpos (digits2_pos a)) as da eqn:Eda.
  remember (Zpos (digits2_pos b)) as db eqn:Edb.
  assert (1 <= da /\ 1 <= db) as [Pa Pb] by (subst da db; lia).
  clear Eda Edb. f_equal.
  destruct (Z.compare_spec (da - 53) (db - 53)) as [E|E|E].
  - assert (da = db) by lia. subst da.
    change (Pos.compare_cont Eq ma mb) with (Pos.compare ma mb).
    rewrite (Pos2Z.inj_compare ma mb), Hma, Hmb.
    assert (P : 2 ^ (53 - db) > 0)
      by (apply Z.lt_gt, Z.pow_pos_nonneg; lia).
    now rewrite <- (Zmult_compare_compat_r _ _ _ P).
  - symmetry. apply Z.compare_lt_iff.
    assert (2 ^ da <= 2 ^ (db - 1)) by (apply Z.pow_le_mono_r; lia). lia.
  - symmetry. apply Z.compare_gt_iff.
    assert (2 ^ db <= 2 ^ (da - 1)) by (apply Z.pow_le_mono_r; lia). lia.
Qed.

Lemma Number_lt_ofZ (x y : Z) :
  0 <= x < 2 ^ 53 -> 0 <= y < 2 ^ 53 ->
  Number_lt (Number_ofZ x) (Number_ofZ y) = (x <? y).
Proof.
  intros Hx Hy. unfold Number_lt, SFltb.
  number_cases x a Ha Ex; number_cases y b Hb Ey; rewrite ?Ex, ?Ey.
  - reflexivity.
  - reflexivity.
  - reflexivity.
  - rewrite canon_compare by assumption. unfold Z.ltb.
    destruct (Zpos a ?= Zpos b); reflexivity.
Qed.

Lemma ToIntegerOrInfinity_ofZ (x : Z) :
  0 <= x < 2 ^ 53 -> ToIntegerOrInfinity (Number_ofZ x) = Integer x.
Proof.
  intros Hx.
  number_cases x a Ha Ex; rewrite Ex; [reflexivity|].
  unfold canon, ToIntegerOrInfinity, truncate. f_equal.
  destruct (canon_mantissa a Ha) as [Hm _]. rewrite Hm.
  destruct (Z.leb_spec 0 (Zpos (digits2_pos a) - 53)) as [E|E].
  - replace (53 - Zpos (digits2_pos a)) with 0 by lia.
    replace (Zpos (digits2_pos a) - 53) with 0 by lia. simpl. lia.
  - replace (- (Zpos (digits2_pos a) - 53)) with (53 - Zpos (digits2_pos a))
      by lia.
    apply Z.div_mul.
    assert (0 < 2 ^ (53 - Zpos (digits2_pos a)))
      by (apply Z.pow_pos_nonneg; lia). lia.
Qed.

Lemma Math_max_ofZ (k : Z) :
  - 2 ^ 53 < k < 2 ^ 53 ->
  Math_max (Number_ofZ 1) (Number_ofZ k) = Number_ofZ (Z.max 1 k).
Proof.
  intros Hk.
  assert (E1 : Number_ofZ 1 = canon false 1)
    by (apply Number_ofZ_pos; simpl; lia).
  destruct k as [|n|n].
  - reflexivity.
  - assert (Hd : Zpos (digits2_pos n) <= 53) by (apply digits_le_53; lia).
    unfold Math_max. rewrite E1, (Number_ofZ_pos n Hd).
    rewrite canon_compare by (simpl; lia || assumption).
    destruct (Z.compare_spec 1 (Zpos n)) as [E|E|E].
    + replace (Z.max 1 (Zpos n)) with 1 by lia. rewrite E1. reflexivity.
    + replace (Z.max 1 (Zpos n)) with (Zpos n) by lia.
      now rewrite (Number_ofZ_pos n Hd).
    + lia.
  - assert (Hd : Zpos (digits2_pos n) <= 53) by (apply digits_le_53; lia).
    unfold Math_max. rewrite E1, (Number_ofZ_neg n Hd).
    replace (Z.max 1 (Zneg n)) with 1 by lia. rewrite E1. reflexivity.
Qed.

(* ================================================================== *)
(** * Batches                                                         *)
(* ================================================================== *)

Lemma batchesFrom_nil {T : Type} (fuel n : nat) :
  batchesFrom fuel n (@nil T) = [].
Proof. destruct fuel; reflexivity. Qed.

Lemma batchesFrom_fuel {T : Type} (n : nat) (l : list T) :
  (1 <= n)%nat ->
  forall f f', (length l <= f)%nat -> (length l <= f')%nat ->
  batchesFrom f n l = batchesFrom f' n l.
Proof.
  intros Hn f. revert l.
  induction f as [|f IH]; intros l f' Hf Hf'.
  - destruct l; [|simpl in Hf; lia]. now rewrite !batchesFrom_nil.
  - destruct l as [|x l]; [now rewrite !batchesFrom_nil|].
    destruct f' as [|f']; [simpl in Hf'; lia|].
    cbn [batchesFrom]. f_equal.
    assert (Hs : (length (skipn n (x :: l)) <= length l)%nat).
    { rewrite length_skipn. cbn [length]. lia. }
    simpl in Hf, Hf'. apply IH; lia.
Qed.



(** The loop of [chunkArray] over [items] with an integer size [K]: the
    counter takes the values [0], [K], [2 * K], ... exactly. *)
Section IntegerSize.

Context {T : Type}.
Variable items : list T.
Variable K : nat.
Hypothesis size_positive : (1 <= K)%nat.
Hypothesis size_exact : Z.of_nat K < 2 ^ 53.
Hypothesis length_bound : Z.of_nat (length items) < 2 ^ 32.

Lemma Array_slice_ofZ (pos : nat) :
  Z.of_nat pos + Z.of_nat K < 2 ^ 53 -> (pos < length items)%nat ->
  Array_slice items (Number_ofZ (Z.of_nat pos))
    (Number_ofZ (Z.of_nat pos + Z.of_nat K))
  = firstn K (skipn pos items).
Proof.
  intros Hb Hp. unfold Array_slice.
  rewrite !ToIntegerOrInfinity_ofZ by lia. unfold relativeIndex.
  replace (Z.of_nat pos <? 0) with false by (symmetry; apply Z.ltb_ge; lia).
  replace (Z.of_nat pos + Z.of_nat K <? 0) with false
    by (symmetry; apply Z.ltb_ge; lia).
  replace (Z.to_nat (Z.min (Z.of_nat pos) (Z.of_nat (length items))))
    with pos by lia.
  destruct (Nat.le_gt_cases (pos + K) (length items)) as [Hle|Hgt].
  - f_equal. lia.
  - replace (Z.to_nat (Z.min (Z.of_nat pos + Z.of_nat K)
                         (Z.of_nat (length items))) - pos)%nat
      with (length items - pos)%nat by lia.
    rewrite !firstn_all2; try reflexivity; rewrite length_skipn; lia.
Qed.

(** Either the counter is at its start, or the size is less than the length
    and every sum stays far below 2^53. *)
Lemma chunkArray_loop_integer (fuel pos : nat) :
  (length items - pos < fuel)%nat ->
  Z.of_nat pos < 2 ^ 53 ->
  ((pos < length items)%nat -> pos = 0%nat \/ (K < length items)%nat) ->
  chunkArray_loop fuel items (Number_ofZ (Z.of_nat K))
    (Number_ofZ (Z.of_nat pos))
  = Some (batchesFrom (length items - pos) K (skipn pos items)).
Proof.
  revert pos.
  induction fuel as [|fuel IH]; intros pos Hfuel Hpos Hinv; [lia|].
  cbn [chunkArray_loop]. unfold Number_ofNat.
  rewrite Number_lt_ofZ by lia.
  destruct (Z.ltb_spec (Z.of_nat pos) (Z.of_nat (length items))) as [Hlt|Hge].
  - assert (Hsum : Z.of_nat pos + Z.of_nat K < 2 ^ 53).
    { destruct Hinv as [->|HKL]; lia. }
    rewrite Number_add_ofZ by lia.
    rewrite Array_slice_ofZ by lia.
    replace (Z.of_nat pos + Z.of_nat K) with (Z.of_nat (pos + K)) by lia.
    rewrite IH by lia.
    f_equal.
    replace (length items - pos)%nat with (S (length items - pos - 1)) by lia.
    cbn [batchesFrom].
    destruct (skipn pos items) as [|x rest] eqn:Es.
    { apply (f_equal (@length T)) in Es. rewrite length_skipn in Es.
      simpl in Es. lia. }
    rewrite <- Es. f_equal.
    rewrite skipn_skipn. rewrite (Nat.add_comm K pos).
    apply batchesFrom_fuel; [lia | rewrite length_skipn; lia
                                 | rewrite length_skipn; lia].
  - replace (length items - pos)%nat with 0%nat by lia. reflexivity.
Qed.

End IntegerSize.

Lemma chunkArray_integer {T : Type} (items : list T) (k : Z) :
  Z.of_nat (length items) < 2 ^ 32 -> - 2 ^ 53 < k < 2 ^ 53 ->
  chunkArray items (Math_max (Number_ofZ 1) (Number_ofZ k))
  = Some (batchesOf (Z.to_nat (Z.max 1 k)) items).
Proof.
  intros HL Hk. unfold chunkArray. rewrite Math_max_ofZ by exact Hk.
  replace (Z.max 1 k) with (Z.of_nat (Z.to_nat (Z.max 1 k))) at 1 by lia.
  change 0 with (Z.of_nat 0).
  rewrite chunkArray_loop_integer by lia.
  rewrite Nat.sub_0_r. reflexivity.
Qed.

Lemma filter_length_le {A : Type} (f : A -> bool) (l : list A) :
  (length (filter f l) <= length l)%nat.
Proof.
  induction l as [|x l IH]; simpl; [lia|]. destruct (f x); simpl; lia.
Qed.




(* ================================================================== *)
(** * The component: more of [src/App.tsx]                          *)
(* ================================================================== *)

(** Properties read from the code of the component and of the generator. *)

Import JSMore Component Props.
Local Close Scope Z_scope.

(* ================================================================== *)
(** * Identifiers read back                                         *)
(* ================================================================== *)

Lemma trimStart_no_white_space (s : string) :
  anyWhiteSpace s = false -> trimStart s = s.
Proof.
  destruct s as [|c r]; simpl; [reflexivity|].
  intros H. apply orb_false_iff in H as [-> _]. reflexivity.
Qed.

Lemma trimEnd_no_white_space (s : string) :
  anyWhiteSpace s = false -> trimEnd s = s.
Proof.
  induction s as [|c r IH]; simpl; [reflexivity|].
  intros H. apply orb_false_iff in H as [-> H]. rewrite (IH H). reflexivity.
Qed.

Lemma replaceWhiteSpaceRuns_no_white_space (s : string) :
  anyWhiteSpace s = false -> replaceWhiteSpaceRuns false s "_" = s.
Proof.
  induction s as [|c r IH]; simpl; [reflexivity|].
  intros H. apply orb_false_iff in H as [-> H]. rewrite (IH H). reflexivity.
Qed.

Lemma normalizeIdentifier_fixed (s : string) :
  anyWhiteSpace s = false -> normalizeIdentifier s = s.
Proof.
  intros H. unfold normalizeIdentifier, trim.
  rewrite (trimStart_no_white_space s H), (trimEnd_no_white_space s H).
  apply replaceWhiteSpaceRuns_no_white_space, H.
Qed.

Lemma normalizeIdentifier_idempotent (s : string) :
  normalizeIdentifier (normalizeIdentifier s) = normalizeIdentifier s.
Proof. apply normalizeIdentifier_fixed, normalizeIdentifier_no_white_space. Qed.

Lemma trimEnd_head (c : ascii) (r : string) :
  isWhiteSpace c = false -> exists r', trimEnd (String c r) = String c r'.
Proof. intros H. simpl. rewrite H. simpl. eauto. Qed.

Lemma trim_empty_or_head (s : string) :
  trim s = EmptyString
  \/ exists c r, trim s = String c r /\ isWhiteSpace c = false.
Proof.
  unfold trim. pose proof (trimStart_head s) as H.
  destruct (trimStart s) as [|c r]; [left; reflexivity|].
  right. destruct (trimEnd_head c r H) as [r' E]. eauto.
Qed.

Lemma normalizeIdentifier_empty (s : string) :
  isEmpty (normalizeIdentifier s) = isEmpty (trim s).
Proof.
  unfold normalizeIdentifier.
  destruct (trim_empty_or_head s) as [->|[c [r [-> H]]]]; [reflexivity|].
  simpl. rewrite H. reflexivity.
Qed.

Lemma trimStart_trimEnd_fixed (s : string) :
  match s with EmptyString => True | String c _ => isWhiteSpace c = false end ->
  trimStart (trimEnd s) = trimEnd s.
Proof.
  destruct s as [|c r]; [reflexivity|]. intros H.
  destruct (trimEnd_head c r H) as [r' ->]. simpl. rewrite H. reflexivity.
Qed.

Lemma trim_idempotent (s : string) : trim (trim s) = trim s.
Proof.
  unfold trim. rewrite trimStart_trimEnd_fixed by apply trimStart_head.
  apply trimEnd_idempotent.
Qed.

(** *** Reading a quoted text *)

Lemma readQuoted_doubled (c : ascii) (s : string) :
  readQuoted c (doubled c s ++ String c EmptyString) = Some s.
Proof.
  induction s as [|x r IH]; simpl.
  - rewrite Ascii.eqb_refl. reflexivity.
  - destruct (Ascii.eqb x c) eqn:E.
    + apply Ascii.eqb_eq in E. subst x. simpl. rewrite !Ascii.eqb_refl.
      rewrite IH. reflexivity.
    + simpl. rewrite E, IH. reflexivity.
Qed.

Lemma quoteIdentifier_quoted (s : string) (d : SqlDialect) :
  quoteIdentifier s d
  = if isEmpty (normalizeIdentifier s) then EmptyString
    else quoted d (normalizeIdentifier s).
Proof.
  unfold quoteIdentifier. cbv zeta.
  destruct (isEmpty (normalizeIdentifier s)); [reflexivity|].
  destruct d; unfold quoted; simpl openQuote; simpl closeQuote;
    rewrite <- replaceAll_doubled; reflexivity.
Qed.

Lemma readIdentifier_quoted (d : SqlDialect) (name : string) :
  readIdentifier d (quoted d name) = Some name.
Proof.
  unfold readIdentifier, quoted. rewrite Ascii.eqb_refl.
  apply readQuoted_doubled.
Qed.

(** X1. A quoted identifier reads back, as an SQL lexer reads it, to the
    normalized name, and a blank name is the only one that gives no quoted
    identifier; hence two names with the same quoted identifier have the
    same normalized name.  Normalizing is idempotent, so quoting a
    normalized name is quoting the name, and the table reference of
    [buildInsertScript], which quotes the normalized table name once more,
    is the quoted schema, a dot and the quoted table, or the quoted table
    alone when the schema is blank. *)
Theorem quoteIdentifier_round_trip (a b : string) (o : GeneratorOptions) :
  readIdentifier (dialect o) (quoteIdentifier a (dialect o))
  = (if isEmpty (trim a) then None else Some (normalizeIdentifier a))
  /\ (quoteIdentifier a (dialect o) = quoteIdentifier b (dialect o) ->
      normalizeIdentifier a = normalizeIdentifier b)
  /\ normalizeIdentifier (normalizeIdentifier a) = normalizeIdentifier a
  /\ quoteIdentifier (normalizeIdentifier a) (dialect o)
     = quoteIdentifier a (dialect o)
  /\ tableRef (normalizeIdentifier a) o
     = (if isEmpty (trim (schemaName o)) then quoteIdentifier a (dialect o)
        else quoteIdentifier (schemaName o) (dialect o)
             ++ "." ++ quoteIdentifier a (dialect o)).
Proof.
  assert (Hq : forall s, quoteIdentifier (normalizeIdentifier s) (dialect o)
                         = quoteIdentifier s (dialect o)).
  { intros s. now rewrite !quoteIdentifier_quoted,
                normalizeIdentifier_idempotent. }
  split; [|split; [|split; [|split]]].
  - rewrite quoteIdentifier_quoted, normalizeIdentifier_empty.
    destruct (isEmpty (trim a)); [reflexivity|apply readIdentifier_quoted].
  - rewrite !quoteIdentifier_quoted.
    destruct (isEmpty (normalizeIdentifier a)) eqn:Ea,
             (isEmpty (normalizeIdentifier b)) eqn:Eb.
    + intros _. apply isEmpty_true in Ea, Eb. congruence.
    + discriminate.
    + discriminate.
    + intros H. apply (f_equal (readIdentifier (dialect o))) in H.
      rewrite !readIdentifier_quoted in H. congruence.
  - apply normalizeIdentifier_idempotent.
  - apply Hq.
  - unfold tableRef. cbv zeta. rewrite !Hq, normalizeIdentifier_empty.
    now destruct (isEmpty (trim (schemaName o))).
Qed.

Lemma quoteIdentifier_round_trip_witness :
  normalizeIdentifier "order  items" = normalizeIdentifier " order items ".
Proof.
  apply (proj1 (proj2 (quoteIdentifier_round_trip "order  items"
                         " order items " (optionsWithTokens [])))).
  reflexivity.
Defined.

(* ================================================================== *)
(** * Exceptions and the empty script                               *)
(* ================================================================== *)

Lemma toSqlLiteral_outcome (cell : Cell) (o : GeneratorOptions) :
  if isInvalidDate cell then toSqlLiteral cell o = Throw invalidTime
  else exists s, toSqlLiteral cell o = Normal s.
Proof.
  destruct cell as [| |[|t]| | |s]; simpl isInvalidDate; try reflexivity;
    try (simpl; eauto; fail).
  rewrite toSqlLiteral_string. eauto.
Qed.

Lemma extraValueToSql_returns (column : ExtraColumnConfig)
  (o : GeneratorOptions) : exists s, extraValueToSql column o = Normal s.
Proof.
  unfold extraValueToSql. destruct (mode column); eauto.
  rewrite toSqlLiteral_string. eauto.
Qed.

Lemma existsb_ext_bool {A : Type} (f g : A -> bool) (l : list A) :
  (forall x, f x = g x) -> existsb f l = existsb g l.
Proof. intros H. induction l as [|x l IH]; simpl; congruence. Qed.

Lemma mapM_cases {A B : Type} (f : A -> completion B) (l : list A)
  (e0 : JsError) :
  (forall x e, f x = Throw e -> e = e0) ->
  if existsb (fun x => throws (f x)) l then mapM f l = Throw e0
  else exists ys, mapM f l = Normal ys.
Proof.
  intros He. induction l as [|x l IH]; simpl; [eauto|].
  destruct (f x) as [y|e] eqn:Fx; simpl.
  - destruct (existsb _ l).
    + rewrite IH. reflexivity.
    + destruct IH as [ys ->]. simpl. eauto.
  - rewrite (He x e Fx). reflexivity.
Qed.

Lemma toSqlLiteral_throws (cell : Cell) (o : GeneratorOptions) :
  throws (toSqlLiteral cell o) = isInvalidDate cell.
Proof.
  pose proof (toSqlLiteral_outcome cell o) as H.
  destruct (isInvalidDate cell); [rewrite H; reflexivity|].
  destruct H as [s ->]. reflexivity.
Qed.

Lemma toSqlLiteral_error (cell : Cell) (o : GeneratorOptions) (e : JsError) :
  toSqlLiteral cell o = Throw e -> e = invalidTime.
Proof.
  pose proof (toSqlLiteral_outcome cell o) as H.
  destruct (isInvalidDate cell); [congruence|].
  destruct H as [s ->]. discriminate.
Qed.

Lemma rowTuple_outcome (columns : list ColumnConfig)
  (extraColumns : list ExtraColumnConfig) (o : GeneratorOptions) (row : Row) :
  if existsb (fun column => isInvalidDate (cellAt row (sourceIndex column)))
             (includedColumns columns)
  then rowTuple columns extraColumns o row = Throw invalidTime
  else exists tuple, rowTuple columns extraColumns o row = Normal tuple.
Proof.
  unfold rowTuple, rowValueList.
  pose proof (mapM_cases
                (fun column => toSqlLiteral (cellAt row (sourceIndex column)) o)
                (includedColumns columns) invalidTime
                (fun x e => toSqlLiteral_error _ o e)) as H.
  cbv beta in H.
  rewrite (existsb_ext_bool _
             (fun column => isInvalidDate (cellAt row (sourceIndex column))) _
             (fun column => toSqlLiteral_throws _ o)) in H.
  destruct (existsb _ (includedColumns columns)).
  - rewrite H. reflexivity.
  - destruct H as [ys ->]. simpl.
    pose proof (mapM_cases (fun column => extraValueToSql column o)
                  (includedExtraColumns extraColumns) invalidTime) as H.
    assert (E : existsb (fun x => throws (extraValueToSql x o))
                  (includedExtraColumns extraColumns) = false).
    { generalize (includedExtraColumns extraColumns) as l.
      induction l as [|c l IH]; [reflexivity|]. simpl. rewrite IH.
      destruct (extraValueToSql_returns c o) as [s ->]. reflexivity. }
    cbv beta in H. rewrite E in H. destruct H as [zs ->].
    + intros x e Hx. destruct (extraValueToSql_returns x o) as [s Hs].
      congruence.
    + simpl. eauto.
Qed.

Lemma rowValues_outcome (rows : list Row) (columns : list ColumnConfig)
  (extraColumns : list ExtraColumnConfig) (o : GeneratorOptions) :
  if hasInvalidDate rows columns
  then rowValues columns extraColumns o rows = Throw invalidTime
  else exists tuples, rowValues columns extraColumns o rows = Normal tuples.
Proof.
  unfold rowValues, hasInvalidDate.
  assert (Ht : forall row,
             throws (rowTuple columns extraColumns o row)
             = existsb (fun column =>
                          isInvalidDate (cellAt row (sourceIndex column)))
                       (includedColumns columns)).
  { intros row. pose proof (rowTuple_outcome columns extraColumns o row) as H.
    destruct (existsb _ _); [rewrite H; reflexivity|].
    destruct H as [t ->]. reflexivity. }
  pose proof (mapM_cases (rowTuple columns extraColumns o) (filteredRows rows)
                invalidTime) as H.
  cbv beta in H. rewrite (existsb_ext_bool _ _ _ Ht) in H. apply H.
  clear H. intros row e Hr.
  pose proof (rowTuple_outcome columns extraColumns o row) as H'.
  destruct (existsb _ (includedColumns columns)); [congruence|].
  destruct H' as [t Ht']. congruence.
Qed.

Lemma buildInsertScript_degenerate
  (rows : list Row) (columns : list ColumnConfig)
  (extraColumns : list ExtraColumnConfig) (o : GeneratorOptions) :
  buildInsertScript rows columns extraColumns o
  = if degenerate rows columns extraColumns o then Some (Normal EmptyString)
    else
      match rowValues columns extraColumns o rows with
      | Throw e => Some (Throw e)
      | Normal tuples =>
          match chunkArray tuples (batchSize o) with
          | None => None
          | Some chunks =>
              Some (Normal
                      (script o (length (filteredRows rows))
                         (map (statement columns extraColumns o
                                 (normalizeIdentifier (tableName o))) chunks)))
          end
      end.
Proof.
  unfold degenerate, buildInsertScript, batchSize.
  rewrite normalizeIdentifier_words.
  destruct (isEmpty (normalized (tableName o))); [reflexivity|].
  rewrite includedColumns_usable, includedExtraColumns_usable.
  rewrite !filter_nil_existsb.
  destruct (negb (existsb usableColumn columns)
            && negb (existsb usableExtra extraColumns)); [reflexivity|].
  rewrite filteredRows_surviving at 1. rewrite survivingRows_none.
  destruct (forallb blankRow rows); reflexivity.
Qed.

Lemma script_not_empty (o : GeneratorOptions) (n : nat)
  (statements : list string) : script o n statements <> EmptyString.
Proof. unfold script. cbn [join]. discriminate. Qed.

(** X3. The only exception of the generator is the RangeError of the
    invalid date: [toSqlLiteral] returns for every cell but the invalid
    date, on which it throws; [extraValueToSql] always returns; and
    [buildInsertScript] throws if and only if the input is not degenerate
    and some row that survives the filter of blank rows holds the invalid
    date under an included column. *)
Theorem buildInsertScript_exceptions
  (rows : list Row) (columns : list ColumnConfig)
  (extraColumns : list ExtraColumnConfig) (o : GeneratorOptions) :
  (forall cell, (exists s, toSqlLiteral cell o = Normal s)
                \/ (cell = CDate InvalidDate
                    /\ toSqlLiteral cell o = Throw invalidTime))
  /\ (forall column, exists s, extraValueToSql column o = Normal s)
  /\ (buildInsertScript rows columns extraColumns o = Some (Throw invalidTime)
      <-> degenerate rows columns extraColumns o = false
          /\ hasInvalidDate rows columns = true)
  /\ (forall e, buildInsertScript rows columns extraColumns o = Some (Throw e)
                -> e = invalidTime).
Proof.
  split; [|split; [|split]].
  - intros cell. pose proof (toSqlLiteral_outcome cell o) as H.
    destruct cell as [| |[|t]| | |s]; simpl in H; auto.
  - intros column. apply extraValueToSql_returns.
  - rewrite buildInsertScript_degenerate.
    pose proof (rowValues_outcome rows columns extraColumns o) as H.
    destruct (degenerate rows columns extraColumns o).
    { split; [discriminate|]. intros [? _]. discriminate. }
    destruct (hasInvalidDate rows columns).
    + rewrite H. split; auto.
    + destruct H as [tuples ->].
      split; [|intros [_ ?]; discriminate].
      destruct (chunkArray tuples (batchSize o)); discriminate.
  - intros e. rewrite buildInsertScript_degenerate.
    pose proof (rowValues_outcome rows columns extraColumns o) as H.
    destruct (degenerate rows columns extraColumns o); [discriminate|].
    destruct (hasInvalidDate rows columns).
    + rewrite H. congruence.
    + destruct H as [tuples ->].
      destruct (chunkArray tuples (batchSize o)); discriminate.
Qed.

(** X4. [buildInsertScript] returns the empty string only for degenerate
    input: every other returned script starts with the comment line
    "-- Generated by RedCoconut SQL Builder". *)
Theorem empty_script_only_for_degenerate_input
  (rows : list Row) (columns : list ColumnConfig)
  (extraColumns : list ExtraColumnConfig) (o : GeneratorOptions) :
  (buildInsertScript rows columns extraColumns o = Some (Normal EmptyString)
   <-> degenerate rows columns extraColumns o = true)
  /\ (forall out,
        buildInsertScript rows columns extraColumns o = Some (Normal out) ->
        out = EmptyString
        \/ exists rest,
             out = "-- Generated by RedCoconut SQL Builder" ++ LF ++ rest).
Proof.
  rewrite buildInsertScript_degenerate.
  destruct (degenerate rows columns extraColumns o).
  - split; [split; reflexivity|]. intros out E. left. congruence.
  - split.
    + split; [|discriminate].
      destruct (rowValues columns extraColumns o rows) as [tuples|e];
        [|discriminate].
      destruct (chunkArray tuples (batchSize o)) as [chunks|]; [|discriminate].
      intros E. injection E as E. now apply script_not_empty in E.
    + intros out.
      destruct (rowValues columns extraColumns o rows) as [tuples|e];
        [|discriminate].
      destruct (chunkArray tuples (batchSize o)) as [chunks|]; [|discriminate].
      intros E. injection E as <-. right. unfold script. cbn [join].
      eexists. rewrite !append_assoc. reflexivity.
Qed.

(* ================================================================== *)
(** * Cells and inferred columns                                    *)
(* ================================================================== *)

Lemma Number_toInteger_ofZ (z : Z) :
  (0 <= z < 2 ^ 53)%Z -> Number_toInteger (Number_ofZ z) = Some z.
Proof.
  intros Hz. pose proof (ToIntegerOrInfinity_ofZ z Hz) as HT.
  destruct (Number_ofZ_nonneg_cases z Hz) as [[-> E]|[n [-> [Hn E]]]].
  - rewrite E. reflexivity.
  - rewrite E in *. unfold canon in *.
    destruct (canon_mantissa n Hn) as [Hm _]. cbv zeta in Hm.
    remember (Z.pos (digits2_pos n) - 53)%Z as e eqn:Ee.
    remember (Z.to_pos (Z.pos n * 2 ^ (53 - Z.pos (digits2_pos n)))) as m eqn:Em.
    cbn [ToIntegerOrInfinity] in HT.
    assert (Ht : truncate false m e = Z.pos n) by congruence.
    cbn [Number_toInteger]. rewrite Ht.
    destruct (0 <=? e)%Z; [reflexivity|].
    rewrite Hm. replace (- e)%Z with (53 - Z.pos (digits2_pos n))%Z by lia.
    rewrite Z.mod_mul; [reflexivity|].
    apply Z.pow_nonzero; lia.
Qed.

Lemma cellAt_ofNat (row : Row) (i : nat) :
  (Z.of_nat i < 2 ^ 53)%Z -> cellAt row (Number_ofNat i) = nth i row CUndefined.
Proof.
  intros Hi. unfold cellAt, Array_get, Number_ofNat.
  rewrite Number_toInteger_ofZ by lia.
  destruct (Z.of_nat i <? 0)%Z eqn:E; [lia|].
  rewrite Nat2Z.id. revert i Hi E.
  induction row as [|c row IH]; intros [|i] Hi E; simpl; try reflexivity.
  apply IH; lia.
Qed.

Lemma fold_left_max (rows : list Row) (n : nat) :
  fold_left (fun max row => Nat.max max (length row)) rows n
  = Nat.max n (list_max (map (@length Cell) rows)).
Proof.
  revert n. induction rows as [|row rows IH]; intros n; simpl.
  - lia.
  - rewrite IH. lia.
Qed.

Lemma inferColumns_length (rows : list Row) (hasHeaderRow : bool) :
  length (inferColumns rows hasHeaderRow) = list_max (map (@length Cell) rows).
Proof.
  unfold inferColumns. cbv zeta. rewrite length_map, length_seq, fold_left_max.
  destruct hasHeaderRow; [|simpl; lia].
  destruct rows as [|first rest]; simpl; lia.
Qed.

Lemma list_max_In (l : list nat) (n : nat) : In n l -> n <= list_max l.
Proof.
  induction l as [|x l IH]; simpl; [tauto|].
  intros [->|H]; [lia|]. specialize (IH H). lia.
Qed.

Lemma trim_head_fixed (c : ascii) (r : string) :
  isWhiteSpace c = false -> isEmpty (trim (String c r)) = false.
Proof.
  intros H. unfold trim. simpl trimStart. rewrite H.
  destruct (trimEnd_head c r H) as [r' ->]. reflexivity.
Qed.

Lemma inferredSourceName_not_blank (header : Row) (hasHeaderRow : bool)
  (index : nat) :
  isEmpty (trim (inferredSourceName header hasHeaderRow index)) = false.
Proof.
  unfold inferredSourceName. cbv zeta.
  match goal with |- context [cellHasContent ?raw] => generalize raw end.
  intros raw. destruct (cellHasContent raw) eqn:E.
  - rewrite trim_idempotent. destruct raw; try discriminate;
      simpl in E; destruct (trim _); try discriminate; reflexivity.
  - apply trim_head_fixed. reflexivity.
Qed.

Lemma inferColumns_included (rows : list Row) (hasHeaderRow : bool) :
  includedColumns (inferColumns rows hasHeaderRow)
  = inferColumns rows hasHeaderRow.
Proof.
  unfold inferColumns. cbv zeta.
  match goal with |- context [seq 0 ?n] => generalize (seq 0 n) end.
  match goal with |- context [inferredSourceName ?h] => generalize h end.
  intros header l. unfold includedColumns.
  induction l as [|i l IH]; [reflexivity|].
  cbn [map filter include targetName]. rewrite IH.
  rewrite normalizeIdentifier_idempotent, length_pos_isEmpty.
  rewrite normalizeIdentifier_empty, inferredSourceName_not_blank.
  reflexivity.
Qed.

Lemma mapM_map {A B C : Type} (g : A -> B) (f : B -> completion C)
  (l : list A) : mapM f (map g l) = mapM (fun x => f (g x)) l.
Proof. induction l as [|x l IH]; simpl; [reflexivity|]. now rewrite IH. Qed.

Lemma mapM_ext_in {A B : Type} (f g : A -> completion B) (l : list A) :
  (forall x, In x l -> f x = g x) -> mapM f l = mapM g l.
Proof.
  induction l as [|x l IH]; simpl; [reflexivity|]. intros H.
  rewrite (H x (or_introl eq_refl)), IH; [reflexivity|]. auto.
Qed.

Lemma nth_cells {A : Type} (d : A) (row : list A) :
  map (fun i => nth i row d) (seq 0 (length row)) = row.
Proof.
  induction row as [|c row IH]; [reflexivity|].
  cbn [length seq map nth]. rewrite <- seq_shift, map_map.
  cbn [nth]. now rewrite IH.
Qed.

Lemma nth_padded {A : Type} (d : A) (row : list A) (w : nat) :
  map (fun i => nth i row d) (seq (length row) w) = repeat d w.
Proof.
  remember (length row) as n eqn:E.
  assert (Hn : length row <= n) by lia. clear E.
  revert n Hn. induction w as [|w IH]; intros n Hn; simpl; [reflexivity|].
  rewrite nth_overflow by lia. rewrite IH by lia. reflexivity.
Qed.

Lemma cells_padded {A : Type} (d : A) (row : list A) (w : nat) :
  length row <= w ->
  map (fun i => nth i row d) (seq 0 w) = (row ++ repeat d (w - length row))%list.
Proof.
  intros H. replace w with (length row + (w - length row)) at 1 by lia.
  rewrite seq_app, map_app. cbn [Nat.add].
  now rewrite nth_padded, nth_cells.
Qed.

Lemma inferColumns_literals (rows : list Row) (hasHeaderRow : bool)
  (o : GeneratorOptions) (row : Row) :
  (Z.of_nat (length (inferColumns rows hasHeaderRow)) < 2 ^ 53)%Z ->
  length row <= length (inferColumns rows hasHeaderRow) ->
  mapM (fun column => toSqlLiteral (cellAt row (sourceIndex column)) o)
       (includedColumns (inferColumns rows hasHeaderRow))
  = mapM (fun cell => toSqlLiteral cell o)
         (row ++ repeat CUndefined
                   (length (inferColumns rows hasHeaderRow) - length row))%list.
Proof.
  intros Hw Hr. rewrite inferColumns_included.
  rewrite <- (cells_padded CUndefined row _ Hr). rewrite mapM_map.
  revert Hw. rewrite inferColumns_length. intros Hw.
  unfold inferColumns. cbv zeta. rewrite fold_left_max.
  replace (Nat.max _ _) with (list_max (map (@length Cell) rows)).
  2:{ destruct hasHeaderRow; [|simpl; lia].
      destruct rows as [|first rest]; simpl; lia. }
  rewrite mapM_map. apply mapM_ext_in. intros i Hi. apply in_seq in Hi.
  cbn [sourceIndex]. rewrite cellAt_ofNat by lia. reflexivity.
Qed.

(* ================================================================== *)
(** * The fields of the form                                        *)
(* ================================================================== *)

Lemma toLowerChar_idempotent (c : ascii) :
  toLowerChar (toLowerChar c) = toLowerChar c.
Proof. destruct c as [[] [] [] [] [] [] [] []]; reflexivity. Qed.

Lemma isWhiteSpace_toLowerChar (c : ascii) :
  isWhiteSpace (toLowerChar c) = isWhiteSpace c.
Proof. destruct c as [[] [] [] [] [] [] [] []]; reflexivity. Qed.

Lemma comma_toLowerChar (c : ascii) :
  Ascii.eqb (toLowerChar c) "," = Ascii.eqb c ",".
Proof. destruct c as [[] [] [] [] [] [] [] []]; reflexivity. Qed.

Lemma toLowerCase_idempotent (s : string) :
  toLowerCase (toLowerCase s) = toLowerCase s.
Proof.
  induction s as [|c r IH]; simpl; [reflexivity|].
  now rewrite toLowerChar_idempotent, IH.
Qed.

Lemma isEmpty_toLowerCase (s : string) : isEmpty (toLowerCase s) = isEmpty s.
Proof. destruct s; reflexivity. Qed.

Lemma trimStart_toLowerCase (s : string) :
  trimStart (toLowerCase s) = toLowerCase (trimStart s).
Proof.
  induction s as [|c r IH]; simpl; [reflexivity|].
  rewrite isWhiteSpace_toLowerChar. destruct (isWhiteSpace c); [exact IH|].
  reflexivity.
Qed.

Lemma trimEnd_toLowerCase (s : string) :
  trimEnd (toLowerCase s) = toLowerCase (trimEnd s).
Proof.
  induction s as [|c r IH]; simpl; [reflexivity|].
  rewrite isWhiteSpace_toLowerChar, IH, isEmpty_toLowerCase.
  destruct (isWhiteSpace c && isEmpty (trimEnd r)); reflexivity.
Qed.

Lemma trim_toLowerCase (s : string) :
  trim (toLowerCase s) = toLowerCase (trim s).
Proof. unfold trim. now rewrite trimStart_toLowerCase, trimEnd_toLowerCase. Qed.

Lemma contains_toLowerCase (s : string) :
  contains "," (toLowerCase s) = contains "," s.
Proof.
  induction s as [|c r IH]; simpl; [reflexivity|].
  now rewrite comma_toLowerChar, IH.
Qed.

Lemma contains_trimStart (c : ascii) (s : string) :
  contains c s = false -> contains c (trimStart s) = false.
Proof.
  induction s as [|x r IH]; simpl; [reflexivity|]. intros H.
  apply orb_false_iff in H as [Hx Hr].
  destruct (isWhiteSpace x); [auto|]. simpl. now rewrite Hx, Hr.
Qed.

Lemma contains_trimEnd (c : ascii) (s : string) :
  contains c s = false -> contains c (trimEnd s) = false.
Proof.
  induction s as [|x r IH]; simpl; [reflexivity|]. intros H.
  apply orb_false_iff in H as [Hx Hr].
  destruct (isWhiteSpace x && isEmpty (trimEnd r)); [reflexivity|].
  simpl. now rewrite Hx, IH.
Qed.

Lemma split_not_nil (s : string) (sep : ascii) : split s sep <> [].
Proof.
  induction s as [|c r IH]; simpl; [discriminate|].
  destruct (Ascii.eqb c sep); [discriminate|].
  destruct (split r sep); discriminate.
Qed.

Lemma split_pieces (s : string) (sep : ascii) :
  Forall (fun piece => contains sep piece = false) (split s sep).
Proof.
  induction s as [|c r IH]; simpl.
  - repeat constructor.
  - destruct (Ascii.eqb c sep) eqn:E; [constructor; [reflexivity|exact IH]|].
    destruct (split r sep) as [|piece pieces]; [repeat constructor; simpl; now rewrite E|].
    inversion IH; subst. constructor; [simpl; now rewrite E|assumption].
Qed.

Lemma split_no_separator (s : string) (sep : ascii) :
  contains sep s = false -> split s sep = [s].
Proof.
  induction s as [|c r IH]; simpl; [reflexivity|]. intros H.
  apply orb_false_iff in H as [-> Hr]. now rewrite (IH Hr).
Qed.

Lemma split_append (a b : string) (sep : ascii) :
  contains sep a = false ->
  split (a ++ String sep b) sep = a :: split b sep.
Proof.
  induction a as [|c r IH]; simpl.
  - intros _. now rewrite Ascii.eqb_refl.
  - intros H. apply orb_false_iff in H as [-> Hr]. now rewrite (IH Hr).
Qed.

(** The shape of the tokens the field stores. *)
Lemma nullTokensOfField_shape (text token : string) :
  In token (nullTokensOfField text) ->
  isEmpty token = false /\ toLowerCase token = token /\ trim token = token
  /\ contains "," token = false.
Proof.
  unfold nullTokensOfField. intros H. apply filter_In in H as [H Hne].
  apply in_map_iff in H as [piece [<- Hp]].
  unfold Boolean_string in Hne. apply negb_true_iff in Hne.
  split; [exact Hne|]. split; [apply toLowerCase_idempotent|].
  split; [now rewrite trim_toLowerCase, trim_idempotent|].
  rewrite contains_toLowerCase. unfold trim.
  apply contains_trimEnd, contains_trimStart.
  pose proof (split_pieces text ",") as F. rewrite Forall_forall in F.
  now apply F.
Qed.

Lemma trim_leading_space (s : string) : trim (String " " s) = trim s.
Proof. reflexivity. Qed.

Lemma nullTokensOfField_join (tokens : list string) :
  Forall (fun token =>
            isEmpty token = false /\ toLowerCase token = token
            /\ trim token = token /\ contains "," token = false) tokens ->
  nullTokensOfField (join ", " tokens) = tokens.
Proof.
  induction tokens as [|x l IH]; [reflexivity|]. intros F.
  inversion F as [|? ? [Hne [Hl [Ht Hc]]] F']; subst.
  destruct l as [|y r].
  - cbn [join]. unfold nullTokensOfField. rewrite (split_no_separator x "," Hc).
    cbn [map filter]. rewrite Ht, Hl. unfold Boolean_string. now rewrite Hne.
  - specialize (IH F'). change (join ", " (x :: y :: r))
      with (x ++ String "," (String " " (join ", " (y :: r)))).
    unfold nullTokensOfField in *. rewrite (split_append x _ "," Hc).
    cbn [map filter]. rewrite Ht, Hl. unfold Boolean_string at 1.
    rewrite Hne. cbn [negb]. f_equal.
    rewrite <- IH at 2. cbn [split].
    change (Ascii.eqb " " ",") with false. cbv iota.
    destruct (split (join ", " (y :: r)) ",") as [|piece pieces] eqn:E.
    + now apply split_not_nil in E.
    + cbn [map]. now rewrite trim_leading_space.
Qed.

Lemma SFcompare_antisym (a b : number) :
  SFcompare b a = option_map CompOpp (SFcompare a b).
Proof.
  destruct a as [sa|sa| |sa ma ea], b as [sb|sb| |sb mb eb]; simpl;
    try reflexivity;
    try (destruct sa; reflexivity); try (destruct sb; reflexivity);
    try (destruct sa, sb; reflexivity).
  change (PosDef.Pos.compare_cont Eq mb ma) with (Pos.compare mb ma).
  change (PosDef.Pos.compare_cont Eq ma mb) with (Pos.compare ma mb).
  rewrite (Z.compare_antisym ea eb), (Pos.compare_antisym ma mb).
  destruct sa, sb; try reflexivity;
    destruct (ea ?= eb)%Z; simpl; try reflexivity;
    destruct (ma ?= mb)%positive; reflexivity.
Qed.

Lemma Math_max_one (x : number) :
  x <> NaN ->
  Math_max (Number_ofZ 1) x <> NaN
  /\ Number_lt (Math_max (Number_ofZ 1) x) (Number_ofZ 1) = false
  /\ (Math_max (Number_ofZ 1) x = Number_ofZ 1
      \/ Math_max (Number_ofZ 1) x = x).
Proof.
  intros Hx. unfold Math_max, Number_lt, SFltb.
  pose proof (SFcompare_antisym (Number_ofZ 1) x) as Ha.
  change (Number_ofZ 1) with (S754_finite false 4503599627370496 (-52)) in *.
  destruct (SFcompare (S754_finite false 4503599627370496 (-52)) x)
    as [[| |]|] eqn:E.
  - split; [discriminate|]. split; [reflexivity|]. now left.
  - split; [exact Hx|]. split; [|now right]. rewrite Ha. reflexivity.
  - split; [discriminate|]. split; [reflexivity|]. now left.
  - destruct x; try discriminate. now elim Hx.
Qed.

(* ================================================================== *)
(** * The dialect and the timestamp expression                      *)
(* ================================================================== *)

Lemma String_eqb_empty (s : string) : String.eqb s EmptyString = isEmpty s.
Proof. destruct s; reflexivity. Qed.

Lemma defaultTimestampExpression_trimmed (d : SqlDialect) :
  trim (defaultTimestampExpression d) = defaultTimestampExpression d
  /\ isEmpty (defaultTimestampExpression d) = false.
Proof. destruct d; split; reflexivity. Qed.

(** X13. [handleDialectChange] changes the dialect and no other option.
    A timestamp expression that is blank or the default of the old dialect
    becomes the default of the new one, every other expression is kept, and
    the expression is never blank afterwards. *)
Theorem handleDialectChange_keeps_expression_usable
  (o : GeneratorOptions) (e : string) (d : SqlDialect) :
  fst (handleDialectChange o e d) = withDialect o d
  /\ isEmpty (trim (snd (handleDialectChange o e d))) = false
  /\ (e = defaultTimestampExpression (dialect o) \/ trim e = EmptyString ->
      snd (handleDialectChange o e d) = defaultTimestampExpression d)
  /\ (e <> defaultTimestampExpression (dialect o) /\ trim e <> EmptyString ->
      snd (handleDialectChange o e d) = e).
Proof.
  unfold handleDialectChange. cbv zeta. cbn [fst snd].
  rewrite String_eqb_empty.
  split; [reflexivity|].
  destruct (defaultTimestampExpression_trimmed d) as [Ht Hn].
  destruct (isEmpty (trim e)) eqn:Eb; cbn [orb].
  - rewrite Ht. split; [exact Hn|]. split; [reflexivity|].
    intros [_ H]. apply isEmpty_true in Eb. contradiction.
  - destruct (String.eqb e (defaultTimestampExpression (dialect o))) eqn:Ed.
    + rewrite Ht. split; [exact Hn|]. split; [reflexivity|].
      intros [H _]. apply String.eqb_eq in Ed. contradiction.
    + split; [exact Eb|]. split.
      * intros [H|H]; [apply String.eqb_neq in Ed; contradiction|].
        rewrite H in Eb. discriminate.
      * reflexivity.
Qed.

(* ================================================================== *)
(** * The extra columns                                             *)
(* ================================================================== *)

Lemma mapIndexed_shift {A B : Type} (f : A -> nat -> B) (k : nat) (l : list A) :
  mapIndexed f (S k) l = mapIndexed (fun x index => f x (S index)) k l.
Proof.
  revert k. induction l as [|x l IH]; intros k; simpl; [reflexivity|].
  now rewrite IH.
Qed.

Lemma mapIndexed_unchanged {A : Type} (f : A -> nat -> A) (k : nat)
  (l : list A) :
  (forall x index, k <= index -> f x index = x) -> mapIndexed f k l = l.
Proof.
  revert k. induction l as [|x l IH]; intros k H; simpl; [reflexivity|].
  rewrite H by lia. rewrite IH; [reflexivity|]. intros; apply H; lia.
Qed.

Lemma upsertExtraColumn_nil (uuid targetName : string) (m : ExtraColumnMode)
  (v : string) :
  upsertExtraColumn uuid targetName m v [] = [upserted uuid targetName m v].
Proof. reflexivity. Qed.

Lemma upsertExtraColumn_cons (uuid targetName : string) (m : ExtraColumnMode)
  (v : string) (c : ExtraColumnConfig) (prev : list ExtraColumnConfig) :
  upsertExtraColumn uuid targetName m v (c :: prev)
  = if sameName (extraTargetName c) targetName
    then upserted (id c) targetName m v :: prev
    else c :: upsertExtraColumn uuid targetName m v prev.
Proof.
  unfold upsertExtraColumn, sameName. cbv zeta. cbn [findIndex].
  destruct (String.eqb (lookupName (extraTargetName c)) (lookupName targetName)).
  - cbn [nth_error mapIndexed Nat.eqb]. unfold upserted. f_equal.
    apply mapIndexed_unchanged. intros x [|index] H; [lia|reflexivity].
  - destruct (findIndex _ prev) as [i|]; [|reflexivity].
    cbn [nth_error mapIndexed Nat.eqb]. f_equal.
    rewrite mapIndexed_shift. reflexivity.
Qed.

Lemma sameName_eq (a b : string) :
  sameName a b = true <-> lookupName a = lookupName b.
Proof. apply String.eqb_eq. Qed.

Lemma upsertExtraColumn_ids (uuid targetName : string) (m : ExtraColumnMode)
  (v : string) (prev : list ExtraColumnConfig) :
  map id (upsertExtraColumn uuid targetName m v prev)
  = if existsb (fun c => sameName (extraTargetName c) targetName) prev
    then map id prev else (map id prev ++ [uuid])%list.
Proof.
  induction prev as [|c prev IH]; [reflexivity|].
  rewrite upsertExtraColumn_cons. cbn [existsb].
  destruct (sameName (extraTargetName c) targetName); [reflexivity|].
  cbn [orb map]. rewrite IH. now destruct (existsb _ prev).
Qed.

Lemma upsertExtraColumn_names (uuid targetName : string) (m : ExtraColumnMode)
  (v : string) (prev : list ExtraColumnConfig) :
  map (fun c => lookupName (extraTargetName c))
      (upsertExtraColumn uuid targetName m v prev)
  = if existsb (fun c => sameName (extraTargetName c) targetName) prev
    then map (fun c => lookupName (extraTargetName c)) prev
    else (map (fun c => lookupName (extraTargetName c)) prev
          ++ [lookupName targetName])%list.
Proof.
  induction prev as [|c prev IH]; [reflexivity|].
  rewrite upsertExtraColumn_cons. cbn [existsb].
  destruct (sameName (extraTargetName c) targetName) eqn:E.
  - cbn [orb map extraTargetName upserted]. apply sameName_eq in E.
    now rewrite E.
  - cbn [orb map]. rewrite IH. now destruct (existsb _ prev).
Qed.

Lemma upsertExtraColumn_In (uuid targetName : string) (m : ExtraColumnMode)
  (v : string) (prev : list ExtraColumnConfig) :
  exists i, In (upserted i targetName m v)
               (upsertExtraColumn uuid targetName m v prev).
Proof.
  induction prev as [|c prev [i IH]].
  - exists uuid. now left.
  - rewrite upsertExtraColumn_cons.
    destruct (sameName (extraTargetName c) targetName).
    + exists (id c). now left.
    + exists i. now right.
Qed.

Lemma upsertExtraColumn_others (uuid targetName : string) (m : ExtraColumnMode)
  (v : string) (prev : list ExtraColumnConfig) (c : ExtraColumnConfig) :
  In c prev -> sameName (extraTargetName c) targetName = false ->
  In c (upsertExtraColumn uuid targetName m v prev).
Proof.
  induction prev as [|x prev IH]; [contradiction|].
  rewrite upsertExtraColumn_cons. intros [->|H] Hc.
  - rewrite Hc. now left.
  - destruct (sameName (extraTargetName x) targetName); right; auto.
Qed.

Lemma upsertExtraColumn_from (uuid targetName : string) (m : ExtraColumnMode)
  (v : string) (prev : list ExtraColumnConfig) (c : ExtraColumnConfig) :
  In c (upsertExtraColumn uuid targetName m v prev) ->
  In c prev \/ exists i, c = upserted i targetName m v.
Proof.
  induction prev as [|x prev IH].
  - intros [<-|[]]. right. now exists uuid.
  - rewrite upsertExtraColumn_cons.
    destruct (sameName (extraTargetName x) targetName).
    + intros [<-|H]; [right; now exists (id x)|left; now right].
    + intros [<-|H]; [left; now left|].
      destruct (IH H) as [H'|H']; [left; now right|now right].
Qed.

Lemma sameName_refl (a : string) : sameName a a = true.
Proof. apply String.eqb_refl. Qed.

Lemma upsertExtraColumn_idempotent (uuid uuid' targetName : string)
  (m : ExtraColumnMode) (v : string) (prev : list ExtraColumnConfig) :
  upsertExtraColumn uuid' targetName m v
    (upsertExtraColumn uuid targetName m v prev)
  = upsertExtraColumn uuid targetName m v prev.
Proof.
  induction prev as [|c prev IH].
  - rewrite upsertExtraColumn_nil, upsertExtraColumn_cons.
    cbn [extraTargetName upserted]. now rewrite sameName_refl.
  - rewrite upsertExtraColumn_cons.
    destruct (sameName (extraTargetName c) targetName) eqn:E.
    + rewrite upsertExtraColumn_cons. cbn [extraTargetName upserted].
      now rewrite sameName_refl.
    + rewrite upsertExtraColumn_cons, E, IH. reflexivity.
Qed.

Lemma upsertExtraColumn_length (uuid targetName : string) (m : ExtraColumnMode)
  (v : string) (prev : list ExtraColumnConfig) :
  length (upsertExtraColumn uuid targetName m v prev)
  = if existsb (fun c => sameName (extraTargetName c) targetName) prev
    then length prev else S (length prev).
Proof.
  rewrite <- (length_map id), upsertExtraColumn_ids.
  destruct (existsb _ prev); rewrite ?length_app, length_map; simpl; lia.
Qed.

(** X14. After [upsertExtraColumn] there is an included extra column of
    the given target name, mode and value; the columns of another name,
    names being compared normalized and in lower case, are kept, and every
    column is a kept one or the written one; the number of columns grows by
    one if no column had that name and is unchanged otherwise; and doing the
    same update again changes nothing. *)
Theorem upsertExtraColumn_writes_one_column
  (uuid uuid' targetName : string) (m : ExtraColumnMode) (v : string)
  (prev : list ExtraColumnConfig) :
  (exists i, In (upserted i targetName m v)
                (upsertExtraColumn uuid targetName m v prev))
  /\ (forall c, In c prev -> sameName (extraTargetName c) targetName = false ->
                In c (upsertExtraColumn uuid targetName m v prev))
  /\ (forall c, In c (upsertExtraColumn uuid targetName m v prev) ->
                In c prev \/ exists i, c = upserted i targetName m v)
  /\ length (upsertExtraColumn uuid targetName m v prev)
     = (if existsb (fun c => sameName (extraTargetName c) targetName) prev
        then length prev else S (length prev))
  /\ upsertExtraColumn uuid' targetName m v
       (upsertExtraColumn uuid targetName m v prev)
     = upsertExtraColumn uuid targetName m v prev.
Proof.
  split; [apply upsertExtraColumn_In|].
  split; [intros c; apply upsertExtraColumn_others|].
  split; [intros c; apply upsertExtraColumn_from|].
  split; [apply upsertExtraColumn_length|apply upsertExtraColumn_idempotent].
Qed.

Lemma NoDup_snoc {A : Type} (l : list A) (x : A) :
  NoDup l -> ~ In x l -> NoDup (l ++ [x]).
Proof.
  intros Hl Hx. induction Hl as [|y l Hy Hl IH]; simpl.
  - constructor; [intros []|constructor].
  - constructor.
    + rewrite in_app_iff. intros [H|[H|[]]]; [contradiction|].
      apply Hx. now left.
    + apply IH. intros H. apply Hx. now right.
Qed.

(** Removing a column keeps distinct whatever was distinct among the
    columns: their identifiers, their names. *)
Lemma removeExtraColumn_distinct {K : Type} (key : ExtraColumnConfig -> K)
  (i : string) (prev : list ExtraColumnConfig) :
  NoDup (map key prev) -> NoDup (map key (removeExtraColumn i prev)).
Proof.
  unfold removeExtraColumn. induction prev as [|c prev IH]; [auto|].
  cbn [map filter]. intros H. apply NoDup_cons_iff in H as [Hc Hp].
  destruct (negb (String.eqb (id c) i)); [|auto].
  cbn [map]. apply NoDup_cons; [|auto].
  intros Hin. apply Hc. apply in_map_iff in Hin as [c' [E Hc']].
  apply filter_In in Hc' as [Hc' _]. apply in_map_iff. eauto.
Qed.

Lemma updateExtraColumn_ids (i : string) (patch : ExtraColumnPatch)
  (prev : list ExtraColumnConfig) :
  patchId patch = None ->
  map id (updateExtraColumn i patch prev) = map id prev.
Proof.
  intros Hp. unfold updateExtraColumn. rewrite map_map. apply map_ext.
  intros c. destruct (String.eqb (id c) i); [|reflexivity].
  unfold applyPatch. cbn [id]. now rewrite Hp.
Qed.

(** X15. The identifiers of the extra columns stay pairwise distinct under
    [addExtraColumn] and [upsertExtraColumn] with a fresh identifier, under
    [updateExtraColumn] with a patch that leaves the identifier alone, and
    under [removeExtraColumn], after which no column has the removed
    identifier. *)
Theorem extra_column_ids_stay_unique
  (prev : list ExtraColumnConfig) (uuid i targetName v : string)
  (m : ExtraColumnMode) (patch : ExtraColumnPatch) :
  NoDup (map id prev) -> ~ In uuid (map id prev) -> patchId patch = None ->
  NoDup (map id (addExtraColumn uuid prev))
  /\ NoDup (map id (updateExtraColumn i patch prev))
  /\ NoDup (map id (removeExtraColumn i prev))
  /\ NoDup (map id (upsertExtraColumn uuid targetName m v prev))
  /\ ~ In i (map id (removeExtraColumn i prev)).
Proof.
  intros Hn Hu Hp. split; [|split; [|split; [|split]]].
  - unfold addExtraColumn. rewrite map_app. now apply NoDup_snoc.
  - now rewrite updateExtraColumn_ids.
  - now apply removeExtraColumn_distinct.
  - rewrite upsertExtraColumn_ids. destruct (existsb _ prev); [exact Hn|].
    now apply NoDup_snoc.
  - intros H. apply in_map_iff in H as [c [E H]].
    apply filter_In in H as [_ H]. apply negb_true_iff in H.
    apply String.eqb_neq in H. contradiction.
Qed.

Lemma extra_column_ids_witness :
  NoDup (map id (addExtraColumn "extra-2" [createdAt]))
  /\ NoDup (map id (updateExtraColumn "extra-1"
                      {| patchId := None; patchTargetName := Some "made";
                         patchInclude := None; patchMode := None;
                         patchValue := None |} [createdAt]))
  /\ NoDup (map id (removeExtraColumn "extra-1" [createdAt]))
  /\ NoDup (map id (upsertExtraColumn "extra-2" "Created At" ModeSql "NOW()"
                      [createdAt]))
  /\ ~ In "extra-1" (map id (removeExtraColumn "extra-1" [createdAt])).
Proof.
  apply (extra_column_ids_stay_unique [createdAt] "extra-2" "extra-1"
           "Created At" "NOW()" ModeSql
           {| patchId := None; patchTargetName := Some "made";
              patchInclude := None; patchMode := None; patchValue := None |}).
  - simpl. constructor; [intros []|constructor].
  - simpl. intros [H|[]]. discriminate.
  - reflexivity.
Defined.

(* ================================================================== *)
(** * Timestamp defaults                                            *)
(* ================================================================== *)





Lemma applyTimestampDefaults_cases (uuid : nat -> string)
  (o : GeneratorOptions) (e text : string) (prev : list ExtraColumnConfig) :
  applyTimestampDefaults uuid o e text prev
  = match timestampNames text with
    | [] => ToastError "Add at least one timestamp column name"
    | _ :: _ =>
        ToastSuccess
          ("Timestamp defaults applied to "
           ++ Number_toString (Number_ofNat (length (timestampNames text)))
           ++ " column"
           ++ (if (length (timestampNames text) =? 1)%nat then EmptyString
               else "s"))
          (upsertAll uuid 0 (timestampNames text) (timestampValue o e) prev)
    end.
Proof.
  unfold applyTimestampDefaults. cbv zeta.
  fold (timestampNames text). fold (timestampValue o e).
  destruct (timestampNames text); reflexivity.
Qed.



(** X18. [applyTimestampDefaults] shows its error, and changes no column,
    if and only if every piece typed between commas is blank; it has no
    other error. *)
Theorem applyTimestampDefaults_needs_a_name
  (uuid : nat -> string) (o : GeneratorOptions) (e text : string)
  (prev : list ExtraColumnConfig) :
  (applyTimestampDefaults uuid o e text prev
   = ToastError "Add at least one timestamp column name"
   <-> forall name, In name (split text ",") -> trim name = EmptyString)
  /\ (forall message, applyTimestampDefaults uuid o e text prev
                      = ToastError message ->
                      message = "Add at least one timestamp column name").
Proof.
  rewrite applyTimestampDefaults_cases.
  destruct (timestampNames text) as [|n names] eqn:En.
  - split; [|congruence]. split; [|reflexivity]. intros _ name Hn.
    destruct (isEmpty (trim name)) eqn:Eb; [now apply isEmpty_true|].
    assert (Hin : In (trim name) (timestampNames text)).
    { unfold timestampNames. apply filter_In. split.
      - apply in_map_iff. eauto.
      - unfold Boolean_string. now rewrite Eb. }
    rewrite En in Hin. contradiction.
  - split; [|discriminate]. split; [discriminate|]. intros H. exfalso.
    assert (Hin : In n (timestampNames text)) by (rewrite En; now left).
    unfold timestampNames in Hin. apply filter_In in Hin as [Hin Hb].
    apply in_map_iff in Hin as [piece [<- Hp]].
    rewrite (H piece Hp) in Hb. discriminate.
Qed.

(* ================================================================== *)
(** * The table name                                                *)
(* ================================================================== *)

Lemma contains_append (c : ascii) (a b : string) :
  contains c (a ++ b) = contains c a || contains c b.
Proof.
  induction a as [|x r IH]; simpl; [reflexivity|].
  now rewrite IH, orb_assoc.
Qed.

Lemma removeExtension_append (base ext : string) :
  isEmpty ext = false -> contains "." ext = false ->
  removeExtension (base ++ String "." ext) = base.
Proof.
  intros He Hc. induction base as [|c r IH]; cbn [append removeExtension].
  - rewrite He, Hc. reflexivity.
  - rewrite contains_append. cbn [contains]. rewrite Ascii.eqb_refl.
    cbn [orb]. rewrite orb_true_r, andb_false_r. now rewrite IH.
Qed.

Lemma removeExtension_no_dot (s : string) :
  contains "." s = false -> removeExtension s = s.
Proof.
  induction s as [|c r IH]; simpl; [reflexivity|]. intros H.
  apply orb_false_iff in H as [-> H]. now rewrite (IH H).
Qed.

Lemma orElse_normalized (s fallback : string) :
  isEmpty fallback = false -> anyWhiteSpace fallback = false ->
  isEmpty (orElse (normalizeIdentifier s) fallback) = false
  /\ anyWhiteSpace (orElse (normalizeIdentifier s) fallback) = false.
Proof.
  intros Hf Hw. unfold orElse, Boolean_string.
  destruct (isEmpty (normalizeIdentifier s)) eqn:E; cbn [negb].
  - now split.
  - split; [exact E|apply normalizeIdentifier_no_white_space].
Qed.

(** X19. The table name set when a file is loaded is never blank and is
    its own normalized form, so it is quoted as it stands and the generator
    never finds the table name empty.  It is the normalized file name
    without its last extension, a dot followed by one or more characters
    that are no dots, and my_table when nothing is left. *)
Theorem defaultTableName_is_usable (fileName base ext : string)
  (d : SqlDialect) :
  isEmpty (normalizeIdentifier (defaultTableName fileName)) = false
  /\ normalizeIdentifier (defaultTableName fileName) = defaultTableName fileName
  /\ quoteIdentifier (defaultTableName fileName) d
     = quoted d (defaultTableName fileName)
  /\ (contains "." fileName = false ->
      defaultTableName fileName
      = orElse (normalizeIdentifier fileName) "my_table")
  /\ (isEmpty ext = false /\ contains "." ext = false ->
      defaultTableName (base ++ String "." ext)
      = orElse (normalizeIdentifier base) "my_table").
Proof.
  destruct (orElse_normalized (removeExtension fileName) "my_table"
              eq_refl eq_refl) as [He Hw].
  fold (defaultTableName fileName) in He, Hw.
  assert (Hf : normalizeIdentifier (defaultTableName fileName)
               = defaultTableName fileName)
    by now apply normalizeIdentifier_fixed.
  split; [now rewrite Hf|]. split; [exact Hf|].
  split; [now rewrite quoteIdentifier_quoted, Hf, He|].
  split.
  - intros H. unfold defaultTableName. now rewrite removeExtension_no_dot.
  - intros [H1 H2]. unfold defaultTableName.
    now rewrite removeExtension_append.
Qed.

Lemma defaultTableName_witness :
  defaultTableName "price list.final.xlsx" = "price_list.final"
  /\ defaultTableName "notes" = "notes"
  /\ defaultTableName ".xlsx" = "my_table".
Proof.
  split; [|split].
  - apply (proj2 (proj2 (proj2 (proj2
             (defaultTableName_is_usable EmptyString "price list.final" "xlsx"
                mysql))))).
    split; reflexivity.
  - apply (proj1 (proj2 (proj2 (proj2
             (defaultTableName_is_usable "notes" EmptyString EmptyString
                mysql))))).
    reflexivity.
  - apply (proj2 (proj2 (proj2 (proj2
             (defaultTableName_is_usable EmptyString EmptyString "xlsx" mysql))))).
    split; reflexivity.
Defined.

(* ================================================================== *)
(** * String literals read back                                     *)
(* ================================================================== *)

Lemma readStringLiteral_singleQuoted (s : string) :
  readStringLiteral (singleQuoted s) = Some s.
Proof. apply readQuoted_doubled. Qed.

(** X2. A string is encoded as NULL or as a literal that reads back, as
    an SQL lexer reads it, to the string, trimmed if and only if
    [trimStrings]; hence two strings with the same literal other than NULL
    are the same once trimmed so.  An extra column in text mode is encoded
    as the cell of its value. *)
Theorem string_literal_round_trip (o : GeneratorOptions) (s s' : string) :
  (toSqlLiteral (CString s) o = Normal "NULL"
   \/ exists lit, toSqlLiteral (CString s) o = Normal lit
                  /\ readStringLiteral lit = Some (matchedString o s))
  /\ (toSqlLiteral (CString s) o = toSqlLiteral (CString s') o ->
      toSqlLiteral (CString s) o = Normal "NULL"
      \/ matchedString o s = matchedString o s')
  /\ extraValueToSql
       {| id := EmptyString; extraTargetName := EmptyString;
          extraInclude := true; mode := ModeText; value := s |} o
     = toSqlLiteral (CString s) o.
Proof.
  assert (Ht : extraValueToSql
                 {| id := EmptyString; extraTargetName := EmptyString;
                    extraInclude := true; mode := ModeText; value := s |} o
               = toSqlLiteral (CString s) o) by reflexivity.
  rewrite Ht. clear Ht.
  rewrite !toSqlLiteral_string. unfold stringLiteral. cbv zeta.
  split; [|split; [|reflexivity]].
  - destruct (emptyStringAsNull o && isEmpty (matchedString o s));
      [now left|].
    destruct (includes (nullTokens o) (toLowerCase (matchedString o s)));
      [now left|].
    right. eexists. split; [reflexivity|apply readStringLiteral_singleQuoted].
  - destruct (emptyStringAsNull o && isEmpty (matchedString o s));
      [now left|].
    destruct (includes (nullTokens o) (toLowerCase (matchedString o s)));
      [now left|].
    destruct (emptyStringAsNull o && isEmpty (matchedString o s'));
      [discriminate|].
    destruct (includes (nullTokens o) (toLowerCase (matchedString o s')));
      [discriminate|].
    intros H. right. injection H as H.
    apply (f_equal (fun lit => readStringLiteral (String "'" lit))) in H.
    change (readStringLiteral (singleQuoted (matchedString o s))
            = readStringLiteral (singleQuoted (matchedString o s'))) in H.
    rewrite !readStringLiteral_singleQuoted in H. congruence.
Qed.

Lemma string_literal_witness :
  toSqlLiteral (CString "it's") (optionsWithTokens ["null"]) = Normal "NULL"
  \/ matchedString (optionsWithTokens ["null"]) "it's"
     = matchedString (optionsWithTokens ["null"]) " it's ".
Proof.
  apply (proj1 (proj2 (string_literal_round_trip (optionsWithTokens ["null"])
                         "it's" " it's "))).
  reflexivity.
Defined.

(* ================================================================== *)
(** * Milliseconds of a date                                        *)
(* ================================================================== *)

Lemma sqlTimestamp_seconds (t t' : Z) :
  (t / 1000 = t' / 1000)%Z -> sqlTimestamp t = sqlTimestamp t'.
Proof.
  intros H.
  assert (Hd : forall k, (0 < k)%Z ->
                         (t / (1000 * k) = t' / (1000 * k))%Z).
  { intros k Hk. rewrite <- !Z.div_div by lia. now rewrite H. }
  unfold sqlTimestamp, YearFromTime, MonthFromTime, DateFromTime,
    HourFromTime, MinFromTime, SecFromTime, msPerDay.
  change 86400000%Z with (1000 * 86400)%Z.
  change 3600000%Z with (1000 * 3600)%Z.
  change 60000%Z with (1000 * 60)%Z.
  rewrite !(Hd 86400%Z), !(Hd 3600%Z), !(Hd 60%Z), H by lia.
  reflexivity.
Qed.

Lemma sqlTimestamp_length (t : Z) : String.length (sqlTimestamp t) = 21.
Proof.
  unfold sqlTimestamp. rewrite !length_append, !fixedDigits_length.
  reflexivity.
Qed.

(** X5. The literal of a date of a year from 0 to 9999 has 21 characters,
    and two time values within the same second have the same literal: the
    milliseconds are dropped, not rounded. *)
Theorem date_literal_drops_milliseconds (o : GeneratorOptions) (t t' : Z) :
  (0 <= YearFromTime t <= 9999)%Z -> (t / 1000 = t' / 1000)%Z ->
  exists lit,
    toSqlLiteral (CDate (DateAt t)) o = Normal lit
    /\ toSqlLiteral (CDate (DateAt t')) o = Normal lit
    /\ String.length lit = 21.
Proof.
  intros Hy Ht. exists (sqlTimestamp t).
  split; [now apply toSqlLiteral_date|]. split; [|apply sqlTimestamp_length].
  rewrite (sqlTimestamp_seconds t t' Ht). apply toSqlLiteral_date.
  unfold YearFromTime, msPerDay in *.
  change 86400000%Z with (1000 * 86400)%Z in *.
  rewrite <- Z.div_div in * by lia. now rewrite <- Ht.
Qed.

Lemma date_literal_witness :
  exists lit,
    toSqlLiteral (CDate (DateAt 1700000000001)) (optionsWithTokens []) = Normal lit
    /\ toSqlLiteral (CDate (DateAt 1700000000999)) (optionsWithTokens [])
       = Normal lit
    /\ String.length lit = 21.
Proof.
  apply (date_literal_drops_milliseconds (optionsWithTokens [])
           1700000000001 1700000000999).
  - vm_compute. split; discriminate.
  - reflexivity.
Defined.

(* ================================================================== *)
(** * The number of statements                                      *)
(* ================================================================== *)

Lemma batchesFrom_count {T : Type} (n : nat) :
  1 <= n ->
  forall (fuel : nat) (l : list T), length l <= fuel ->
  length (batchesFrom fuel n l) = (length l + n - 1) / n
  /\ Forall (fun b => length b = n) (removelast (batchesFrom fuel n l)).
Proof.
  intros Hn. induction fuel as [|fuel IH]; intros l Hl.
  - destruct l; [|simpl in Hl; lia]. simpl. split; [|constructor].
    symmetry. apply Nat.div_small. lia.
  - destruct l as [|x r]; cbn [batchesFrom].
    + split; [|constructor]. symmetry. apply Nat.div_small. simpl. lia.
    + remember (x :: r) as l eqn:El.
      assert (Hpos : 1 <= length l) by (subst l; simpl; lia).
      assert (Hfuel : length l <= S fuel) by (subst l; exact Hl).
      clear El Hl x r.
      destruct (IH (skipn n l)) as [IHc IHf].
      { rewrite length_skipn. lia. }
      cbn [length]. rewrite IHc, length_skipn.
      destruct (Nat.le_gt_cases (length l) n) as [Hle|Hgt].
      * replace (length l - n) with 0 by lia.
        assert (E0 : skipn n l = []).
        { apply length_zero_iff_nil. rewrite length_skipn. lia. }
        rewrite E0, batchesFrom_nil. cbn [removelast]. split; [|constructor].
        replace ((0 + n - 1) / n) with 0 by (symmetry; apply Nat.div_small; lia).
        symmetry. replace (length l + n - 1) with ((length l - 1) + 1 * n) by lia.
        rewrite Nat.div_add by lia. rewrite Nat.div_small by lia. reflexivity.
      * split.
        -- replace (length l + n - 1) with ((length l - n + n - 1) + 1 * n) by lia.
           rewrite Nat.div_add by lia. lia.
        -- destruct (batchesFrom fuel n (skipn n l)) as [|b bs] eqn:Eb.
           { exfalso. rewrite length_skipn in IHc. revert IHc. cbn [length].
             assert (1 <= (length l - n + n - 1) / n); [|lia].
             apply Nat.div_le_lower_bound; lia. }
           cbn [removelast]. constructor; [|exact IHf].
           rewrite length_firstn. lia.
Qed.

(** X6. For an integer [rowsPerInsert] of absolute value below 2^53 and
    fewer than 2^32 tuples, [chunkArray] makes the ceiling of
    tuples / max(1, rowsPerInsert) batches, and every batch but the last
    holds exactly max(1, rowsPerInsert) tuples. *)
Theorem statement_count_and_batch_fill
  (o : GeneratorOptions) (k : Z) (tuples : list string) :
  rowsPerInsert o = Number_ofZ k ->
  (- 2 ^ 53 < k < 2 ^ 53)%Z ->
  (Z.of_nat (length tuples) < 2 ^ 32)%Z ->
  exists batches,
    chunkArray tuples (batchSize o) = Some batches
    /\ length batches
       = (length tuples + Z.to_nat (Z.max 1 k) - 1) / Z.to_nat (Z.max 1 k)
    /\ Forall (fun b => length b = Z.to_nat (Z.max 1 k)) (removelast batches).
Proof.
  intros Hr Hk Hl. exists (batchesOf (Z.to_nat (Z.max 1 k)) tuples).
  unfold batchSize. rewrite Hr. split; [now apply chunkArray_integer|].
  apply batchesFrom_count; lia.
Qed.

Lemma statement_count_witness :
  exists batches,
    chunkArray ["(1)"; "(2)"; "(3)"; "(4)"; "(5)"]
      (batchSize (exampleOptions mysql (Number_ofZ 2))) = Some batches
    /\ length batches = (5 + Z.to_nat (Z.max 1 2) - 1) / Z.to_nat (Z.max 1 2)
    /\ Forall (fun b => length b = Z.to_nat (Z.max 1 2)) (removelast batches).
Proof.
  apply (statement_count_and_batch_fill (exampleOptions mysql (Number_ofZ 2)) 2
           ["(1)"; "(2)"; "(3)"; "(4)"; "(5)"]).
  - reflexivity.
  - lia.
  - simpl. lia.
Defined.

(* ================================================================== *)
(** * Batch sizes that are no integers                              *)
(* ================================================================== *)

Lemma chunkArray_nil {T : Type} (size : number) :
  chunkArray (@nil T) size = Some [].
Proof. reflexivity. Qed.

Lemma Number_lt_zero_length {T : Type} (items : list T) :
  items <> [] -> (Z.of_nat (length items) < 2 ^ 53)%Z ->
  Number_lt (Number_ofZ 0) (Number_ofNat (length items)) = true.
Proof.
  intros Hi Hl. unfold Number_ofNat. rewrite Number_lt_ofZ by lia.
  destruct items; [contradiction|]. simpl length. apply Z.ltb_lt. lia.
Qed.

Lemma Number_lt_Infinity (x : number) : Number_lt Infinity x = false.
Proof. destruct x as [|[]| |]; reflexivity. Qed.

(** X7. [chunkArray] makes no batch of no items, whatever the size.  Of a
    non-empty array, the batch size Infinity makes one batch of all
    items, and the batch size NaN makes one batch that is empty. *)
Theorem chunkArray_unbounded_and_undefined_sizes
  {T : Type} (items : list T) (size : number) :
  items <> [] -> (Z.of_nat (length items) < 2 ^ 53)%Z ->
  chunkArray (@nil T) size = Some []
  /\ chunkArray items (Math_max (Number_ofZ 1) Infinity) = Some [items]
  /\ chunkArray items (Math_max (Number_ofZ 1) NaN) = Some [[]].
Proof.
  intros Hi Hl. split; [reflexivity|].
  pose proof (Number_lt_zero_length items Hi Hl) as H0.
  change (Math_max (Number_ofZ 1) Infinity) with Infinity.
  change (Math_max (Number_ofZ 1) NaN) with NaN.
  assert (En : exists n, length items = S n).
  { destruct items; [contradiction|]. simpl. eauto. }
  destruct En as [n En]. unfold chunkArray. rewrite En.
  cbn [chunkArray_loop]. rewrite H0.
  change (Number_add (Number_ofZ 0) Infinity) with Infinity.
  change (Number_add (Number_ofZ 0) NaN) with NaN.
  rewrite Number_lt_Infinity.
  change (Number_lt NaN (Number_ofNat (length items))) with false.
  unfold Array_slice.
  change (ToIntegerOrInfinity (Number_ofZ 0)) with (Integer 0).
  cbn [ToIntegerOrInfinity Infinity NaN relativeIndex Z.ltb Z.compare].
  replace (Z.to_nat (Z.min 0 (Z.of_nat (length items)))) with 0 by lia.
  rewrite Nat.sub_0_r. cbn [skipn firstn Nat.sub]. now rewrite firstn_all.
Qed.

Lemma chunkArray_sizes_witness :
  chunkArray (@nil string) (Number_ofZ 3) = Some []
  /\ chunkArray ["a"; "b"; "c"] (Math_max (Number_ofZ 1) Infinity)
     = Some [["a"; "b"; "c"]]
  /\ chunkArray ["a"; "b"; "c"] (Math_max (Number_ofZ 1) NaN) = Some [[]].
Proof.
  apply (chunkArray_unbounded_and_undefined_sizes ["a"; "b"; "c"]
           (Number_ofZ 3)).
  - discriminate.
  - simpl. lia.
Defined.

(* ================================================================== *)
(** * Inferred columns and stored fields                            *)
(* ================================================================== *)

Lemma bind_app_nil {A : Type} (c : completion (list A)) :
  bind c (fun xs => Normal (xs ++ [])%list) = c.
Proof. destruct c; simpl; [now rewrite app_nil_r|reflexivity]. Qed.

Lemma dataRows_In (activeRows : list Row) (hasHeaderRow : bool) (row : Row) :
  In row (dataRows activeRows hasHeaderRow) -> In row activeRows.
Proof.
  unfold dataRows. destruct activeRows as [|first rest]; [intros []|].
  cbn [length Nat.eqb]. destruct hasHeaderRow; [|auto].
  cbn [skipn]. now right.
Qed.

(** X8. [inferColumns] yields one column for each position up to the
    longest row, so that every row fits; the column at position [i] reads
    the cell [i]; every inferred column is included and is kept by
    [buildInsertScript], its target name being the normalized source name,
    which is neither empty nor holds white space; without a header row the
    source names are column_1, column_2, ... *)
Theorem inferColumns_covers_the_sheet (rows : list Row) (hasHeaderRow : bool) :
  length (inferColumns rows hasHeaderRow) = list_max (map (@length Cell) rows)
  /\ Forall (fun row => length row <= length (inferColumns rows hasHeaderRow))
            rows
  /\ map sourceIndex (inferColumns rows hasHeaderRow)
     = map Number_ofNat (seq 0 (length (inferColumns rows hasHeaderRow)))
  /\ includedColumns (inferColumns rows hasHeaderRow)
     = inferColumns rows hasHeaderRow
  /\ Forall (fun column =>
               include column = true
               /\ targetName column = normalizeIdentifier (sourceName column)
               /\ isEmpty (targetName column) = false
               /\ anyWhiteSpace (targetName column) = false)
            (inferColumns rows hasHeaderRow)
  /\ map sourceName (inferColumns rows false)
     = map (fun index =>
              "column_" ++ Number_toString (Number_ofNat (index + 1)))
           (seq 0 (length (inferColumns rows false))).
Proof.
  split; [apply inferColumns_length|].
  split.
  { rewrite inferColumns_length. apply Forall_forall. intros row Hr.
    apply list_max_In, in_map, Hr. }
  split.
  { rewrite inferColumns_length. unfold inferColumns. cbv zeta.
    rewrite fold_left_max, map_map. cbn [sourceIndex].
    replace (Nat.max _ _) with (list_max (map (@length Cell) rows));
      [reflexivity|].
    destruct hasHeaderRow; [|simpl; lia].
    destruct rows as [|first rest]; simpl; lia. }
  split; [apply inferColumns_included|].
  split.
  { unfold inferColumns. cbv zeta. apply Forall_forall. intros column Hc.
    apply in_map_iff in Hc as [index [<- _]].
    cbn [include targetName sourceName].
    split; [reflexivity|]. split; [reflexivity|].
    split; [|apply normalizeIdentifier_no_white_space].
    rewrite normalizeIdentifier_empty. apply inferredSourceName_not_blank. }
  rewrite inferColumns_length. unfold inferColumns. cbv zeta.
  rewrite fold_left_max, map_map. cbn [sourceName length Nat.max].
  apply map_ext. intros index. reflexivity.
Qed.

(** X9. Under the columns inferred from a sheet whose rows are shorter
    than 2^53 cells, the values of a data row are the literals of its cells,
    in their order, followed by one literal of [undefined] (NULL) for every
    position the row lacks up to the longest row of the sheet. *)
Theorem inferred_columns_encode_every_cell
  (activeRows : list Row) (hasHeaderRow : bool) (o : GeneratorOptions)
  (row : Row) :
  (Z.of_nat (list_max (map (@length Cell) activeRows)) < 2 ^ 53)%Z ->
  In row (dataRows activeRows hasHeaderRow) ->
  rowValueList (inferColumns activeRows hasHeaderRow) [] o row
  = mapM (fun cell => toSqlLiteral cell o)
         (row ++ repeat CUndefined
                   (list_max (map (@length Cell) activeRows) - length row))%list.
Proof.
  intros Hw Hr. apply dataRows_In in Hr.
  rewrite <- (inferColumns_length activeRows hasHeaderRow) in *.
  unfold rowValueList. rewrite inferColumns_literals.
  - cbn [includedExtraColumns filter mapM bind]. apply bind_app_nil.
  - exact Hw.
  - rewrite inferColumns_length. apply list_max_In, in_map, Hr.
Qed.

Lemma inferred_columns_witness :
  rowValueList
    (inferColumns [[CString "id"; CString "name"; CString "age"];
                   [CNumber (Number_ofZ 1); CString "Ann"]] true)
    [] (optionsWithTokens ["null"])
    [CNumber (Number_ofZ 1); CString "Ann"]
  = mapM (fun cell => toSqlLiteral cell (optionsWithTokens ["null"]))
         ([CNumber (Number_ofZ 1); CString "Ann"] ++ repeat CUndefined (3 - 2))%list.
Proof.
  apply (inferred_columns_encode_every_cell
           [[CString "id"; CString "name"; CString "age"];
            [CNumber (Number_ofZ 1); CString "Ann"]] true
           (optionsWithTokens ["null"])
           [CNumber (Number_ofZ 1); CString "Ann"]).
  - simpl. lia.
  - simpl. now left.
Defined.

(** X10. The tokens the field "NULL tokens" stores are not empty, in lower
    case, trimmed and free of commas; the text the field then shows, the
    tokens joined by ", ", is read back as the same tokens, as are the
    default tokens. *)
Theorem nullTokensOfField_round_trip (text : string) :
  Forall (fun token =>
            isEmpty token = false /\ toLowerCase token = token
            /\ trim token = token /\ contains "," token = false)
         (nullTokensOfField text)
  /\ nullTokensOfField (join ", " (nullTokensOfField text))
     = nullTokensOfField text
  /\ nullTokensOfField (join ", " (nullTokens defaultOptions))
     = nullTokens defaultOptions.
Proof.
  assert (F : Forall (fun token =>
                        isEmpty token = false /\ toLowerCase token = token
                        /\ trim token = token /\ contains "," token = false)
                     (nullTokensOfField text)).
  { apply Forall_forall. intros token. apply nullTokensOfField_shape. }
  split; [exact F|]. split; [now apply nullTokensOfField_join|reflexivity].
Qed.

(** X11. With the tokens stored by the field "NULL tokens", a string is
    encoded as NULL if and only if it is empty under [emptyStringAsNull],
    or equal, case being ignored, to one of the pieces typed between
    commas, trimmed and not blank; the string is trimmed first if and only
    if [trimStrings]. *)
Theorem field_tokens_match_ignoring_case
  (o : GeneratorOptions) (text s : string) :
  nullTokens o = nullTokensOfField text ->
  (toSqlLiteral (CString s) o = Normal "NULL"
   <-> emptyStringAsNull o && isEmpty (matchedString o s) = true
       \/ exists piece,
            In piece (split text ",")
            /\ isEmpty (trim piece) = false
            /\ toLowerCase (matchedString o s) = toLowerCase (trim piece)).
Proof.
  intros Ho. rewrite toSqlLiteral_string. unfold stringLiteral. cbv zeta.
  destruct (emptyStringAsNull o && isEmpty (matchedString o s)) eqn:Ee.
  { split; auto. }
  destruct (includes (nullTokens o) (toLowerCase (matchedString o s))) eqn:Ei.
  - split; [|reflexivity]. intros _. right.
    apply includes_In in Ei. rewrite Ho in Ei.
    unfold nullTokensOfField in Ei. apply filter_In in Ei as [Ei Hb].
    apply in_map_iff in Ei as [piece [E Hp]]. exists piece.
    split; [exact Hp|]. split; [|now rewrite E].
    rewrite <- E in Hb. unfold Boolean_string in Hb.
    rewrite isEmpty_toLowerCase in Hb. now apply negb_true_iff in Hb.
  - split; [discriminate|]. intros [H|[piece [Hp [Hb E]]]]; [discriminate|].
    exfalso. assert (Hin : In (toLowerCase (matchedString o s)) (nullTokens o)).
    { rewrite Ho, E. unfold nullTokensOfField. apply filter_In. split.
      - apply in_map_iff. eauto.
      - unfold Boolean_string. now rewrite isEmpty_toLowerCase, Hb. }
    apply includes_In in Hin. congruence.
Qed.

Lemma field_tokens_witness :
  toSqlLiteral (CString " n/A ")
    {| dialect := mysql; tableName := "t"; schemaName := EmptyString;
       rowsPerInsert := Number_ofZ 250; includeColumnList := true;
       trimStrings := true; emptyStringAsNull := false;
       nullTokens := nullTokensOfField "NULL, N/A" |}
  = Normal "NULL".
Proof.
  apply (field_tokens_match_ignoring_case
           {| dialect := mysql; tableName := "t"; schemaName := EmptyString;
              rowsPerInsert := Number_ofZ 250; includeColumnList := true;
              trimStrings := true; emptyStringAsNull := false;
              nullTokens := nullTokensOfField "NULL, N/A" |}
           "NULL, N/A" " n/A ").
  - reflexivity.
  - right. exists " N/A". split; [simpl; right; now left|].
    split; reflexivity.
Defined.

(** X12. The value the field "Rows Per INSERT" stores is never NaN and
    never zero: a text that reads as NaN or zero stores 1, and every other
    text stores the number it reads as.  The batch size [chunkArray]
    receives is then a number that is not below 1. *)
Theorem rowsPerInsertOfField_is_a_size (text : string) :
  Boolean_number (rowsPerInsertOfField text) = true
  /\ Math_max (Number_ofZ 1) (rowsPerInsertOfField text) <> NaN
  /\ Number_lt (Math_max (Number_ofZ 1) (rowsPerInsertOfField text))
       (Number_ofZ 1) = false
  /\ (Boolean_number (StringToNumber text) = false
      <-> rowsPerInsertOfField text <> StringToNumber text)
  /\ (Boolean_number (StringToNumber text) = false ->
      rowsPerInsertOfField text = Number_ofZ 1)
  /\ rowsPerInsertOfField EmptyString = Number_ofZ 1
  /\ rowsPerInsertOfField "0" = Number_ofZ 1
  /\ rowsPerInsertOfField "abc" = Number_ofZ 1
  /\ rowsPerInsertOfField "25" = Number_ofZ 25.
Proof.
  assert (Hb : Boolean_number (rowsPerInsertOfField text) = true).
  { unfold rowsPerInsertOfField. cbv zeta.
    destruct (Boolean_number (StringToNumber text)) eqn:E; [exact E|].
    reflexivity. }
  assert (Hn : rowsPerInsertOfField text <> NaN).
  { intros H. rewrite H in Hb. discriminate. }
  destruct (Math_max_one _ Hn) as [H1 [H2 _]].
  split; [exact Hb|]. split; [exact H1|]. split; [exact H2|].
  split; [|split; [|repeat split; vm_compute; reflexivity]].
  - unfold rowsPerInsertOfField. cbv zeta.
    destruct (Boolean_number (StringToNumber text)) eqn:E.
    + split; [discriminate|]. intros H. now elim H.
    + split; [|reflexivity]. intros _ H. rewrite <- H in E. discriminate.
  - unfold rowsPerInsertOfField. cbv zeta. now intros ->.
Qed.

(* ================================================================== *)
(** * The names of the extra columns                                *)
(* ================================================================== *)

Lemma upsertExtraColumn_names_unique (u targetName : string)
  (m : ExtraColumnMode) (v : string) (prev : list ExtraColumnConfig) :
  NoDup (lookupNames prev) ->
  NoDup (lookupNames (upsertExtraColumn u targetName m v prev)).
Proof.
  intros H. unfold lookupNames. rewrite upsertExtraColumn_names.
  destruct (existsb (fun c => sameName (extraTargetName c) targetName) prev)
    eqn:E; [exact H|].
  apply NoDup_snoc; [exact H|]. intros Hin.
  apply in_map_iff in Hin as [c [Hc Hin]].
  assert (Ht : existsb (fun c => sameName (extraTargetName c) targetName) prev
               = true).
  { apply existsb_exists. exists c. split; [exact Hin|].
    now apply sameName_eq. }
  congruence.
Qed.

Lemma upsertAll_names_unique (uuid : nat -> string) (names : list string)
  (v : string) :
  forall (k : nat) (prev : list ExtraColumnConfig),
  NoDup (lookupNames prev) ->
  NoDup (lookupNames (upsertAll uuid k names v prev)).
Proof.
  induction names as [|n names IH]; intros k prev H; [exact H|].
  cbn [upsertAll]. now apply IH, upsertExtraColumn_names_unique.
Qed.

(** X16. [upsertExtraColumn], [removeExtraColumn] and
    [applyTimestampDefaults] keep the names of the extra columns pairwise
    distinct, names being compared normalized and in lower case.
    [addExtraColumn] does not: adding two columns, removing the first and
    adding a third gives two columns named extra_column_2. *)
Theorem extra_column_names_stay_unique
  (uuid : nat -> string) (u i targetName v e text message : string)
  (m : ExtraColumnMode) (o : GeneratorOptions)
  (prev next : list ExtraColumnConfig) :
  NoDup (lookupNames prev) ->
  applyTimestampDefaults uuid o e text prev = ToastSuccess message next ->
  NoDup (lookupNames (upsertExtraColumn u targetName m v prev))
  /\ NoDup (lookupNames (removeExtraColumn i prev))
  /\ NoDup (lookupNames next)
  /\ ~ NoDup (lookupNames
                (addExtraColumn "c"
                   (removeExtraColumn "a"
                      (addExtraColumn "b" (addExtraColumn "a" []))))).
Proof.
  intros Hn Ha. split; [|split; [|split]].
  - now apply upsertExtraColumn_names_unique.
  - now apply (removeExtraColumn_distinct
                 (fun column => lookupName (extraTargetName column))).
  - rewrite applyTimestampDefaults_cases in Ha.
    destruct (timestampNames text) as [|n names] eqn:En; [discriminate|].
    assert (En' : next = upsertAll uuid 0 (n :: names) (timestampValue o e) prev)
      by congruence.
    rewrite En'. now apply upsertAll_names_unique.
  - intros H. vm_compute in H. inversion H as [|? ? Hx _]; subst.
    apply Hx. now left.
Qed.

Lemma extra_column_names_witness :
  NoDup (lookupNames (upsertExtraColumn "u" "Created At" ModeSql "NOW()"
                        [createdAt]))
  /\ NoDup (lookupNames (removeExtraColumn "extra-1" [createdAt]))
  /\ NoDup (lookupNames
              (upsertAll (fun k => "u" ++ decimal (Z.of_nat k)) 0
                 ["created_at"; "updated_at"] "NOW()" [createdAt]))
  /\ ~ NoDup (lookupNames
                (addExtraColumn "c"
                   (removeExtraColumn "a"
                      (addExtraColumn "b" (addExtraColumn "a" []))))).
Proof.
  apply (extra_column_names_stay_unique
           (fun k => "u" ++ decimal (Z.of_nat k)) "u" "extra-1" "Created At"
           "NOW()" "  " "created_at, updated_at"
           "Timestamp defaults applied to 2 columns" ModeSql defaultOptions
           [createdAt]).
  - simpl. constructor; [intros []|constructor].
  - reflexivity.
Defined.

(* ================================================================== *)
(** * Instances                                                     *)
(* ================================================================== *)

Lemma handleDialectChange_witness :
  snd (handleDialectChange defaultOptions "NOW()" sqlserver) = "SYSDATETIME()".
Proof.
  apply (proj1 (proj2 (proj2 (handleDialectChange_keeps_expression_usable
                                defaultOptions "NOW()" sqlserver)))).
  left. reflexivity.
Defined.

Lemma buildInsertScript_exceptions_witness :
  buildInsertScript [[CNumber (Number_ofZ 1); CDate InvalidDate]]
    exampleColumns [] (exampleOptions mysql (Number_ofZ 250))
  = Some (Throw invalidTime).
Proof.
  apply (proj1 (proj2 (proj2 (buildInsertScript_exceptions
                                [[CNumber (Number_ofZ 1); CDate InvalidDate]]
                                exampleColumns []
                                (exampleOptions mysql (Number_ofZ 250)))))).
  split; reflexivity.
Defined.

Lemma empty_script_witness :
  degenerate exampleRows exampleColumns []
    {| dialect := mysql; tableName := "   "; schemaName := EmptyString;
       rowsPerInsert := Number_ofZ 250; includeColumnList := true;
       trimStrings := true; emptyStringAsNull := true; nullTokens := [] |}
  = true.
Proof.
  apply (proj1 (empty_script_only_for_degenerate_input exampleRows
                  exampleColumns []
                  {| dialect := mysql; tableName := "   ";
                     schemaName := EmptyString;
                     rowsPerInsert := Number_ofZ 250;
                     includeColumnList := true; trimStrings := true;
                     emptyStringAsNull := true; nullTokens := [] |})).
  reflexivity.
Defined.

Lemma upsertExtraColumn_witness :
  In createdAt (upsertExtraColumn "u" "updated_at" ModeSql "NOW()" [createdAt]).
Proof.
  apply (proj1 (proj2 (upsertExtraColumn_writes_one_column "u" "u'"
                         "updated_at" ModeSql "NOW()" [createdAt]))).
  - now left.
  - reflexivity.
Defined.

Lemma applyTimestampDefaults_needs_a_name_witness :
  applyTimestampDefaults (fun _ => "u") defaultOptions "NOW()" " , " []
  = ToastError "Add at least one timestamp column name".
Proof.
  apply (proj1 (applyTimestampDefaults_needs_a_name (fun _ => "u")
                  defaultOptions "NOW()" " , " [])).
  intros name [<-|[<-|[]]]; reflexivity.
Defined.

Lemma rowsPerInsertOfField_witness :
  rowsPerInsertOfField "-0" <> StringToNumber "-0".
Proof.
  apply (proj1 (proj2 (proj2 (proj2 (rowsPerInsertOfField_is_a_size "-0"))))).
  reflexivity.
Defined.

(* ================================================================== *)
(** * The download                                                  *)
(* ================================================================== *)

(** X20. [handleDownload] shows its error exactly when the script is the
    one of a degenerate input; otherwise the file is named after the
    normalized table name, followed by .sql, so the name insert_script is
    never used for a generated script.  The file name holds no white
    space. *)
Theorem download_is_named_after_the_table
  (rows : list Row) (columns : list ColumnConfig)
  (extraColumns : list ExtraColumnConfig) (o : GeneratorOptions)
  (sql : string) :
  buildInsertScript rows columns extraColumns o = Some (Normal sql) ->
  handleDownload sql o
  = (if degenerate rows columns extraColumns o
     then DownloadError "No SQL generated yet"
     else DownloadFile (normalizeIdentifier (tableName o) ++ ".sql") sql
            "SQL file downloaded")
  /\ anyWhiteSpace (downloadName o) = false.
Proof.
  rewrite buildInsertScript_degenerate. intros H. split.
  - destruct (degenerate rows columns extraColumns o) eqn:Ed.
    + injection H as <-. reflexivity.
    + destruct (rowValues columns extraColumns o rows) as [tuples|e];
        [|discriminate].
      destruct (chunkArray tuples (batchSize o)) as [chunks|]; [|discriminate].
      injection H as <-. unfold handleDownload, downloadName, orElse.
      unfold degenerate in Ed. rewrite <- normalizeIdentifier_words in Ed.
      apply orb_false_iff in Ed as [Ed _]. apply orb_false_iff in Ed as [Ed _].
      unfold Boolean_string at 2. rewrite Ed. reflexivity.
  - unfold downloadName. rewrite anyWhiteSpace_append.
    destruct (orElse_normalized (tableName o) "insert_script" eq_refl eq_refl)
      as [_ ->]. reflexivity.
Qed.

Lemma download_witness :
  handleDownload exampleScript (exampleOptions sqlite (Number_ofZ 1))
  = DownloadFile "t.sql" exampleScript "SQL file downloaded"
  /\ anyWhiteSpace (downloadName (exampleOptions sqlite (Number_ofZ 1))) = false.
Proof.
  apply (download_is_named_after_the_table exampleRows exampleColumns []
           (exampleOptions sqlite (Number_ofZ 1)) exampleScript).
  vm_compute. reflexivity.
Defined.

(* ================================================================== *)
(** * The rows of the sheet                                           *)
(* ================================================================== *)

Lemma filter_keeps_all {A : Type} (keep : A -> bool) (l : list A) :
  length (filter keep l) = length l <-> forallb keep l = true.
Proof.
  induction l as [|x l IH]; simpl; [tauto|].
  pose proof (filter_length_le keep l) as Hle.
  destruct (keep x); simpl.
  - rewrite <- IH. lia.
  - split; [lia|discriminate].
Qed.

(** X21. The header row is no data row: with a header row the data rows
    are the rows after the first, and without one they are all rows.  The
    number of rows written in the head of the script, the rows that survive
    the filter of blank rows, is no larger than the number of data rows the
    page shows, and is that number if and only if no data row is blank. *)
Theorem data_rows_and_counted_rows
  (first : Row) (rest activeRows : list Row) (hasHeaderRow : bool) :
  dataRows (first :: rest) true = rest
  /\ dataRows activeRows false = activeRows
  /\ dataRows [] hasHeaderRow = []
  /\ length (filteredRows (dataRows activeRows hasHeaderRow))
     <= length (dataRows activeRows hasHeaderRow)
  /\ (length (filteredRows (dataRows activeRows hasHeaderRow))
      = length (dataRows activeRows hasHeaderRow)
      <-> forallb (fun row => negb (blankRow row))
            (dataRows activeRows hasHeaderRow) = true).
Proof.
  split; [reflexivity|]. split; [now destruct activeRows|].
  split; [reflexivity|]. rewrite filteredRows_surviving.
  split; [apply filter_length_le|apply filter_keeps_all].
Qed.
